(** * libxslt, transform.c: the transformation core

    A shallow embedding of [libxslt/transform.c] (the tree-walking
    interpreter that applies a compiled stylesheet to a source document)
    and the properties of it that the specification states.

    Layout of the model:
    - the stylesheet tree is immutable during a transformation: it is an
      inductive tree and a node pointer into it is a cursor (the node the
      walk started under, and a path below it);
    - the source tree is mutated (blank text nodes and skipped nodes are
      unlinked and freed) and its nodes are held by address in node lists:
      it is a heap of nodes indexed by address;
    - the result tree only grows at its end (xmlAddChild appends): a result
      node is addressed by its position, so that [insert->parent] is the
      enclosing position;
    - the functions of libxml2 and of the other files of libxslt that the
      code calls are either modelled on their documented behaviour or
      taken as parameters (record [externals]). *)

From Stdlib Require Import ZArith String Ascii List Bool Lia.
From stdpp Require Import gmap strings list.
Import ListNotations.
Local Open Scope Z_scope.
Local Open Scope string_scope.
Local Open Scope list_scope.
Set Warnings "-register-all".

(** ** libxml2 data *)

Inductive xmlElementType : Type :=
| XML_ELEMENT_NODE | XML_ATTRIBUTE_NODE | XML_TEXT_NODE
| XML_CDATA_SECTION_NODE | XML_ENTITY_REF_NODE | XML_ENTITY_NODE
| XML_PI_NODE | XML_COMMENT_NODE | XML_DOCUMENT_NODE
| XML_DOCUMENT_TYPE_NODE | XML_DOCUMENT_FRAG_NODE | XML_NOTATION_NODE
| XML_HTML_DOCUMENT_NODE | XML_DTD_NODE | XML_ELEMENT_DECL
| XML_ATTRIBUTE_DECL | XML_ENTITY_DECL.

#[global] Instance xmlElementType_eq_dec : EqDecision xmlElementType.
Proof. solve_decision. Defined.

Record xmlNs : Type := { href : string; prefix : option string }.

#[global] Instance xmlNs_eq_dec : EqDecision xmlNs.
Proof. solve_decision. Defined.

Record xmlAttr : Type :=
  { attr_name : string; attr_ns : option xmlNs; attr_value : string }.

(** The kinds of node of a stylesheet tree that carry no child list.  An
    entity reference points at its declaration (of type XML_ENTITY_DECL),
    which the template walk refuses to enter. *)
Inductive leafKind : Type :=
| LText | LCData | LEntityRef | LPI | LComment.

(** A node of the stylesheet tree: only elements have children. *)
Inductive xmlNode : Type :=
| Element (name : string) (ns : option xmlNs) (nsDef : list xmlNs)
          (properties : list xmlAttr) (children : list xmlNode)
| Leaf (kind : leafKind) (name : string) (content : string).

Definition leaf_type (k : leafKind) : xmlElementType :=
  match k with
  | LText => XML_TEXT_NODE
  | LCData => XML_CDATA_SECTION_NODE
  | LEntityRef => XML_ENTITY_REF_NODE
  | LPI => XML_PI_NODE
  | LComment => XML_COMMENT_NODE
  end.

Definition node_type (n : xmlNode) : xmlElementType :=
  match n with
  | Element _ _ _ _ _ => XML_ELEMENT_NODE
  | Leaf k _ _ => leaf_type k
  end.

Definition node_name (n : xmlNode) : string :=
  match n with Element nm _ _ _ _ => nm | Leaf _ nm _ => nm end.

Definition node_ns (n : xmlNode) : option xmlNs :=
  match n with Element _ ns _ _ _ => ns | Leaf _ _ _ => None end.

Definition node_nsDef (n : xmlNode) : list xmlNs :=
  match n with Element _ _ d _ _ => d | Leaf _ _ _ => [] end.

Definition node_properties (n : xmlNode) : list xmlAttr :=
  match n with Element _ _ _ ps _ => ps | Leaf _ _ _ => [] end.

Definition node_children (n : xmlNode) : list xmlNode :=
  match n with Element _ _ _ _ cs => cs | Leaf _ _ _ => [] end.

Definition node_content (n : xmlNode) : string :=
  match n with Element _ _ _ _ _ => "" | Leaf _ _ c => c end.

(** [cur->children->type], when [cur->children] is not NULL. *)
Definition first_child_type (n : xmlNode) : option xmlElementType :=
  match n with
  | Element _ _ _ _ (c :: _) => Some (node_type c)
  | Element _ _ _ _ [] => None
  | Leaf LEntityRef _ _ => Some XML_ENTITY_DECL
  | Leaf _ _ _ => None
  end.

(** xmlNodeGetContent: the text below a node. *)
Fixpoint xmlNodeGetContent (n : xmlNode) : string :=
  match n with
  | Element _ _ _ _ cs =>
      (fix cat (l : list xmlNode) : string :=
         match l with
         | [] => ""
         | c :: l' => xmlNodeGetContent c +:+ cat l'
         end) cs
  | Leaf _ _ c => c
  end.

(** *** Cursors into the stylesheet tree

    [c_top] is the node the walk may not leave ([list->parent] in
    xsltApplyOneTemplate); [c_path] lists the child indices from the node
    pointed at up to [c_top], innermost first. *)
Record cursor : Type := { c_top : xmlNode; c_path : list nat }.

Fixpoint node_at (top : xmlNode) (down : list nat) : option xmlNode :=
  match down with
  | [] => Some top
  | i :: rest =>
      match nth_error (node_children top) i with
      | Some c => node_at c rest
      | None => None
      end
  end.

Definition cursor_node (c : cursor) : option xmlNode :=
  node_at (c_top c) (rev (c_path c)).

(** The first node of a template body, [list] in xsltApplyOneTemplate: a
    child of the node that the walk of the body may not leave. *)
Record body : Type := { b_parent : xmlNode; b_index : nat }.

Definition body_cursor (b : body) : cursor :=
  {| c_top := b_parent b; c_path := [b_index b] |}.

(** [n->children] as the start of a body *)
Definition first_child (n : xmlNode) : option body :=
  match node_children n with
  | [] => None
  | _ :: _ => Some {| b_parent := n; b_index := 0%nat |}
  end.

(** [cur->children] *)
Definition cursor_children (c : cursor) : option cursor :=
  match cursor_node c with
  | Some n =>
      match node_children n with
      | [] => None
      | _ :: _ => Some {| c_top := c_top c; c_path := 0%nat :: c_path c |}
      end
  | None => None
  end.

(** [cur->next] *)
Definition cursor_next (c : cursor) : option cursor :=
  match c_path c with
  | [] => None
  | i :: up =>
      let c' := {| c_top := c_top c; c_path := S i :: up |} in
      match cursor_node c' with
      | Some _ => Some c'
      | None => None
      end
  end.

(** ** The source tree: a heap of nodes *)

Abbreviation ptr := nat.

Record srcNode : Type :=
  { s_type : xmlElementType;
    s_name : string;
    s_content : string;
    s_parent : option ptr;
    s_children : list ptr }.

(** ** The result tree *)

Inductive outNode : Type :=
  OutNode { o_type : xmlElementType;
            o_name : string;
            o_content : string;
            o_ns : option xmlNs;
            o_nsDef : list xmlNs;
            o_properties : list xmlAttr;
            o_children : list outNode }.

(** A result node is addressed by the tree it belongs to (tree 0 is the
    result document, the others are detached nodes) and its position in
    it, outermost index first. *)
Record outPtr : Type := { p_root : nat; p_path : list nat }.

#[global] Instance outPtr_eq_dec : EqDecision outPtr.
Proof. solve_decision. Defined.

(** [p->parent] *)
Definition out_parent (p : outPtr) : option outPtr :=
  match p_path p with
  | [] => None
  | _ :: _ => Some {| p_root := p_root p; p_path := removelast (p_path p) |}
  end.

Definition out_child (p : outPtr) (i : nat) : outPtr :=
  {| p_root := p_root p; p_path := p_path p ++ [i] |}.

Fixpoint out_at (t : outNode) (path : list nat) : option outNode :=
  match path with
  | [] => Some t
  | i :: rest =>
      match nth_error (o_children t) i with
      | Some c => out_at c rest
      | None => None
      end
  end.

Fixpoint list_update {A} (l : list A) (i : nat) (f : A -> option A)
  : option (list A) :=
  match l, i with
  | [], _ => None
  | x :: l', O => match f x with Some y => Some (y :: l') | None => None end
  | x :: l', S j =>
      match list_update l' j f with
      | Some l'' => Some (x :: l'')
      | None => None
      end
  end.

Definition with_children (t : outNode) (cs : list outNode) : outNode :=
  {| o_type := o_type t; o_name := o_name t; o_content := o_content t;
     o_ns := o_ns t; o_nsDef := o_nsDef t; o_properties := o_properties t;
     o_children := cs |}.

Fixpoint out_update (t : outNode) (path : list nat)
         (f : outNode -> option outNode) : option outNode :=
  match path with
  | [] => f t
  | i :: rest =>
      match list_update (o_children t) i (fun c => out_update c rest f) with
      | Some cs => Some (with_children t cs)
      | None => None
      end
  end.

Definition forest_at (ts : list outNode) (p : outPtr) : option outNode :=
  match nth_error ts (p_root p) with
  | Some t => out_at t (p_path p)
  | None => None
  end.

Definition forest_update (ts : list outNode) (p : outPtr)
           (f : outNode -> option outNode) : option (list outNode) :=
  list_update ts (p_root p) (fun t => out_update t (p_path p) f).

Record xmlDtd : Type :=
  { dtd_name : string; ExternalID : option string; SystemID : option string }.

(** The fields of the result xmlDoc that the code sets; the children of
    the document are tree 0 of the result forest. *)
Record xmlDoc : Type :=
  { doc_type : xmlElementType;
    doc_version : option string;
    doc_encoding : option string;
    doc_charset_utf8 : bool;
    intSubset : option xmlDtd }.

(** ** XPath values and the XPath context *)

Inductive xmlXPathObject : Type :=
| XPATH_NODESET (nodesetval : list ptr)
| XPATH_BOOLEAN (boolval : bool)
| XPATH_NUMBER (floatval : Z)   (* numbers are kept as integers here *)
| XPATH_STRING (stringval : string).

(** The fields of xmlXPathContext that transform.c reads and writes. *)
Record xmlXPathContext : Type :=
  { xp_node : option ptr;
    contextSize : Z;
    proximityPosition : Z }.

(** xmlXPathNewContext leaves the size and the position at -1. *)
Definition xmlXPathNewContext : xmlXPathContext :=
  {| xp_node := None; contextSize := -1; proximityPosition := -1 |}.

(** ** The compiled stylesheet *)

Record xsltTemplate : Type :=
  { t_name : option string;
    t_nameURI : option string;
    t_match : option string;
    (** the xsl:template element; [template->content] is its first child *)
    t_elem : xmlNode }.

Definition template_content (t : xsltTemplate) : option body :=
  first_child (t_elem t).

Record xsltStackElem : Type :=
  { v_name : string; v_param : bool; v_decl : xmlNode }.

Record xsltStylesheet : Type :=
  { templates : list xsltTemplate;
    stripSpaces : option (gmap string string);
    globals : list xsltStackElem;
    method : option string;
    version : option string;
    encoding : option string;
    doctypePublic : option string;
    doctypeSystem : option string }.

Inductive xsltOutputType : Type :=
| XSLT_OUTPUT_XML | XSLT_OUTPUT_HTML | XSLT_OUTPUT_TEXT.

(** ** The transformation context *)

Record xsltTransformContext : Type :=
  { style : xsltStylesheet;
    type : xsltOutputType;
    doc : option ptr;
    node : option ptr;
    nodeList : option (list ptr);
    output : option nat;
    insert : option outPtr;
    xpathCtxt : option xmlXPathContext;
    variables : list (list xsltStackElem) }.

(** The memory the context points into.  [allocs] fixes which of the
    coming allocations succeed (an exhausted list: they all do). *)
Record memory : Type :=
  { src : gmap nat srcNode;
    out : list outNode;
    outdoc : option xmlDoc;
    errors : list string;
    allocs : list bool }.

Record state : Type := { ctxt : xsltTransformContext; mem : memory }.

Definition set_ctxt (f : xsltTransformContext -> xsltTransformContext)
           (st : state) : state :=
  {| ctxt := f (ctxt st); mem := mem st |}.

Definition set_mem (f : memory -> memory) (st : state) : state :=
  {| ctxt := ctxt st; mem := f (mem st) |}.

Definition with_src (h : gmap nat srcNode) (m : memory) : memory :=
  {| src := h; out := out m; outdoc := outdoc m; errors := errors m;
     allocs := allocs m |}.

Definition with_out (ts : list outNode) (m : memory) : memory :=
  {| src := src m; out := ts; outdoc := outdoc m; errors := errors m;
     allocs := allocs m |}.

Definition with_outdoc (d : option xmlDoc) (m : memory) : memory :=
  {| src := src m; out := out m; outdoc := d; errors := errors m;
     allocs := allocs m |}.

Definition with_errors (l : list string) (m : memory) : memory :=
  {| src := src m; out := out m; outdoc := outdoc m; errors := l;
     allocs := allocs m |}.

Definition with_allocs (l : list bool) (m : memory) : memory :=
  {| src := src m; out := out m; outdoc := outdoc m; errors := errors m;
     allocs := l |}.

Definition with_type (t : xsltOutputType) (c : xsltTransformContext) :=
  {| style := style c; type := t; doc := doc c; node := node c;
     nodeList := nodeList c; output := output c; insert := insert c;
     xpathCtxt := xpathCtxt c; variables := variables c |}.

Definition with_node (n : option ptr) (c : xsltTransformContext) :=
  {| style := style c; type := type c; doc := doc c; node := n;
     nodeList := nodeList c; output := output c; insert := insert c;
     xpathCtxt := xpathCtxt c; variables := variables c |}.

Definition with_nodeList (l : option (list ptr)) (c : xsltTransformContext) :=
  {| style := style c; type := type c; doc := doc c; node := node c;
     nodeList := l; output := output c; insert := insert c;
     xpathCtxt := xpathCtxt c; variables := variables c |}.

Definition with_output (o : option nat) (c : xsltTransformContext) :=
  {| style := style c; type := type c; doc := doc c; node := node c;
     nodeList := nodeList c; output := o; insert := insert c;
     xpathCtxt := xpathCtxt c; variables := variables c |}.

Definition with_insert (i : option outPtr) (c : xsltTransformContext) :=
  {| style := style c; type := type c; doc := doc c; node := node c;
     nodeList := nodeList c; output := output c; insert := i;
     xpathCtxt := xpathCtxt c; variables := variables c |}.

Definition with_xpathCtxt (x : option xmlXPathContext)
           (c : xsltTransformContext) :=
  {| style := style c; type := type c; doc := doc c; node := node c;
     nodeList := nodeList c; output := output c; insert := insert c;
     xpathCtxt := x; variables := variables c |}.

Definition with_variables (v : list (list xsltStackElem))
           (c : xsltTransformContext) :=
  {| style := style c; type := type c; doc := doc c; node := node c;
     nodeList := nodeList c; output := output c; insert := insert c;
     xpathCtxt := xpathCtxt c; variables := v |}.

(** ** The monad of the interpreter: state, NULL dereference, fuel *)

Inductive outcome (A : Type) : Type :=
| Done (a : A) (s : state)
| Fault        (* a NULL pointer or a freed object is dereferenced *)
| OutOfFuel.

Arguments Done {A} a s.
Arguments Fault {A}.
Arguments OutOfFuel {A}.

Definition M (A : Type) : Type := state -> outcome A.

Definition ret {A} (a : A) : M A := fun st => Done a st.

Definition bind {A B} (m : M A) (k : A -> M B) : M B :=
  fun st =>
    match m st with
    | Done a st' => k a st'
    | Fault => Fault
    | OutOfFuel => OutOfFuel
    end.

Declare Scope xslt_scope.
Delimit Scope xslt_scope with xslt.
Notation "'do' x <- m ; k" := (bind m (fun x => k))
  (at level 10, x name, m at level 100, k at level 200) : xslt_scope.
Notation "'do' ' p <- m ; k" := (bind m (fun p => k))
  (at level 10, p pattern, m at level 100, k at level 200) : xslt_scope.
Notation "m ;; k" := (bind m (fun _ => k))
  (at level 100, k at level 200, right associativity) : xslt_scope.
Local Open Scope xslt_scope.

Definition get : M state := fun st => Done st st.
Definition modify (f : state -> state) : M unit := fun st => Done tt (f st).
Definition fault {A} : M A := fun _ => Fault.
Definition modify_ctxt (f : xsltTransformContext -> xsltTransformContext)
  : M unit := modify (set_ctxt f).
Definition modify_mem (f : memory -> memory) : M unit := modify (set_mem f).

(** A pointer that the code dereferences without a test. *)
Definition deref {A} (o : option A) : M A :=
  match o with Some a => ret a | None => fault end.

(** [o != NULL] *)
Definition is_set {A} (o : option A) : bool :=
  match o with Some _ => true | None => false end.

(** xsltGenericError; the debug traces (xsltGenericDebug) are left out. *)
Definition xsltGenericError (msg : string) : M unit :=
  modify_mem (fun m => with_errors (errors m ++ [msg]) m).

(** The macro TODO of xsltutils.h: an unimplemented block is reported
    by xsltGenericError (the file and the line are left out of the
    text). *)
Definition TODO : M unit := xsltGenericError "Unimplemented block".

(** The value of a local variable that has not been assigned yet is read
    and dereferenced: undefined behaviour, taken as a crash. *)
Definition uninitialised {A} : M A := fault.

(** An allocation: it succeeds unless the state says otherwise. *)
Definition alloc : M bool :=
  fun st =>
    match allocs (mem st) with
    | [] => Done true st
    | b :: rest => Done b (set_mem (with_allocs rest) st)
    end.

(** ** What transform.c takes from elsewhere

    The XPath engine of libxml2, and of libxslt the pattern engine
    (pattern.c), the attribute value templates (templates.c) and the
    numbering of xsltOutputType (xsltInternals.h) are parameters. *)
Record externals : Type :=
  { (** the integer a C enumerator stands for *)
    enum_value : xsltOutputType -> Z;
    (** xmlXPathEvalExpr: the value left on the stack, if any *)
    xmlXPathEvalExpr : state -> string -> option xmlXPathObject;
    (** the conversion functions, on the top of the stack *)
    xmlXPathStringFunction :
      state -> option xmlXPathObject -> option xmlXPathObject;
    xmlXPathBooleanFunction :
      state -> option xmlXPathObject -> option xmlXPathObject;
    xmlXPathNumberFunction :
      state -> option xmlXPathObject -> option xmlXPathObject;
    xsltEvalAttrValueTemplate : state -> xmlNode -> string -> option string;
    xsltAttrListTemplateProcess :
      state -> outPtr -> list xmlAttr -> list xmlAttr;
    xsltGetTemplate : state -> ptr -> option xsltTemplate }.

(** ** Strings, names and attributes (libxml2, xsltutils) *)

Definition XSLT_NAMESPACE : string := "http://www.w3.org/1999/XSL/Transform".

Definition IS_XSLT_ELEM (n : xmlNode) : bool :=
  match node_ns n with
  | Some ns => String.eqb (href ns) XSLT_NAMESPACE
  | None => false
  end.

Definition IS_XSLT_NAME (n : xmlNode) (val : string) : bool :=
  String.eqb (node_name n) val.

(** xmlGetNsProp: the attribute carries the namespace, or it carries none
    and its element is in the namespace. *)
Definition xmlGetNsProp (n : xmlNode) (nm namespace : string)
  : option string :=
  let anchored (a : xmlAttr) :=
    match attr_ns a with
    | Some ans => String.eqb (href ans) namespace
    | None =>
        match node_ns n with
        | Some ns => String.eqb (href ns) namespace
        | None => false
        end
    end in
  match find (fun a => String.eqb (attr_name a) nm && anchored a)
             (node_properties n) with
  | Some a => Some (attr_value a)
  | None => None
  end.

(** xmlSplitQName2: [Some (ncname, prefix)] for a name with a prefix. *)
Definition xmlSplitQName2 (nm : string) : option (string * string) :=
  match index 0 ":" nm with
  | Some (S k) =>
      Some (substring (S (S k)) (String.length nm - S (S k))%nat nm,
            substring 0 (S k) nm)
  | _ => None
  end.

Definition IS_BLANK_CH (c : ascii) : bool :=
  let n := nat_of_ascii c in
  (n =? 32)%nat || (n =? 9)%nat || (n =? 10)%nat || (n =? 13)%nat.

Fixpoint xsltIsBlank (s : string) : bool :=
  match s with
  | EmptyString => true
  | String c r => IS_BLANK_CH c && xsltIsBlank r
  end.

(** IS_BLANK_NODE, on a node of the source tree *)
Definition IS_BLANK_NODE (n : srcNode) : bool :=
  bool_decide (s_type n = XML_TEXT_NODE) && xsltIsBlank (s_content n).

(** ** The variable stack

    Modelled from the spec: variables.c is not among the sources.  The
    storage is a stack of scopes with the operations push scope, pop
    scope, declare a variable or a parameter in the top scope, and
    evaluate the global variables. *)

Definition xsltPushStack : M unit :=
  modify_ctxt (fun c => with_variables ([] :: variables c) c).

Definition xsltPopStack : M unit :=
  modify_ctxt (fun c => with_variables (tail (variables c)) c).

Definition declare (e : xsltStackElem) (vs : list (list xsltStackElem))
  : list (list xsltStackElem) :=
  match vs with
  | scope :: below => (e :: scope) :: below
  | [] => [[e]]
  end.

Definition xsltParseStylesheetVariable (cur : xmlNode) : M unit :=
  match xmlGetNsProp cur "name" XSLT_NAMESPACE with
  | None => xsltGenericError "xsl:variable : missing name attribute"
  | Some nm =>
      modify_ctxt (fun c =>
        with_variables
          (declare {| v_name := nm; v_param := false; v_decl := cur |}
                   (variables c)) c)
  end.

Definition xsltParseStylesheetParam (cur : xmlNode) : M unit :=
  match xmlGetNsProp cur "name" XSLT_NAMESPACE with
  | None => xsltGenericError "xsl:param : missing name attribute"
  | Some nm =>
      modify_ctxt (fun c =>
        with_variables
          (declare {| v_name := nm; v_param := true; v_decl := cur |}
                   (variables c)) c)
  end.

Definition xsltEvalGlobalVariables (c : xsltTransformContext)
  : xsltTransformContext :=
  with_variables [globals (style c)] c.

(** Modelled from the spec: pattern.c is not among the sources.  A named
    template is looked up by local name and namespace. *)
Definition xsltFindTemplate (s : xsltStylesheet) (nm : string)
           (nameURI : option string) : option xsltTemplate :=
  find (fun t =>
          match t_name t with
          | Some n => String.eqb n nm && bool_decide (t_nameURI t = nameURI)
          | None => false
          end) (templates s).

(** ** Building the result tree (libxml2) *)

Definition new_node (ty : xmlElementType) (nm content : string) : outNode :=
  {| o_type := ty; o_name := nm; o_content := content; o_ns := None;
     o_nsDef := []; o_properties := []; o_children := [] |}.

(** xmlCopyNode(node, 0): the node without its children, attributes and
    namespaces. *)
Definition xmlCopyNode (n : xmlNode) : outNode :=
  new_node (node_type n) (node_name n) (node_content n).

Definition xmlCopySourceNode (n : srcNode) : outNode :=
  new_node (s_type n) (s_name n) (s_content n).

Definition with_content (t : outNode) (c : string) : outNode :=
  {| o_type := o_type t; o_name := o_name t; o_content := c;
     o_ns := o_ns t; o_nsDef := o_nsDef t; o_properties := o_properties t;
     o_children := o_children t |}.

Definition with_properties (t : outNode) (ps : list xmlAttr) : outNode :=
  {| o_type := o_type t; o_name := o_name t; o_content := o_content t;
     o_ns := o_ns t; o_nsDef := o_nsDef t; o_properties := ps;
     o_children := o_children t |}.

(** The children of a node after xmlAddChild, and the index of the node
    that holds the added content: a text node added after a text node is
    merged into it. *)
Definition add_child (cs : list outNode) (cur : outNode)
  : list outNode * nat :=
  match last cs with
  | Some l =>
      if bool_decide (o_type cur = XML_TEXT_NODE)
         && bool_decide (o_type l = XML_TEXT_NODE)
      then (removelast cs ++ [with_content l (o_content l +:+ o_content cur)],
            (length cs - 1)%nat)
      else (cs ++ [cur], length cs)
  | None => (cs ++ [cur], length cs)
  end.

(** xmlAddChild; the parent is a document or an element. *)
Definition xmlAddChild (parent : option outPtr) (cur : outNode)
  : M (option outPtr) :=
  match parent with
  | None => ret None
  | Some p =>
      do st <- get;
      do pn <- deref (forest_at (out (mem st)) p);
      let '(cs, i) := add_child (o_children pn) cur in
      do ts <- deref (forest_update (out (mem st)) p
                        (fun t => Some (with_children t cs)));
      modify_mem (with_out ts);;
      ret (Some (out_child p i))
  end.

(** The nodes from the root of a tree down to a position. *)
Fixpoint out_branch (t : outNode) (path : list nat) : list outNode :=
  t :: match path with
       | [] => []
       | i :: rest =>
           match nth_error (o_children t) i with
           | Some c => out_branch c rest
           | None => []
           end
       end.

(** The namespace declarations in scope at a node, innermost first. *)
Definition in_scope_ns (ts : list outNode) (p : outPtr) : list xmlNs :=
  match nth_error ts (p_root p) with
  | Some t => concat (map o_nsDef (rev (out_branch t (p_path p))))
  | None => []
  end.

Definition xmlSearchNs (ts : list outNode) (p : outPtr) (pfx : string)
  : option xmlNs :=
  find (fun ns => bool_decide (prefix ns = Some pfx)) (in_scope_ns ts p).

Definition xmlSearchNsByHref (scope : list xmlNs) (h : string)
  : option xmlNs :=
  find (fun ns => String.eqb (href ns) h) scope.

Definition same_attr (nm : string) (ns : option xmlNs) (a : xmlAttr) : bool :=
  String.eqb (attr_name a) nm
  && bool_decide (href <$> attr_ns a = href <$> ns).

Fixpoint set_attr (ps : list xmlAttr) (nm : string) (ns : option xmlNs)
         (v : string) : list xmlAttr :=
  match ps with
  | [] => [{| attr_name := nm; attr_ns := ns; attr_value := v |}]
  | a :: ps' =>
      if same_attr nm ns a
      then {| attr_name := nm; attr_ns := attr_ns a; attr_value := v |} :: ps'
      else a :: set_attr ps' nm ns v
  end.

(** xmlSetProp (no namespace) and xmlSetNsProp *)
Definition xmlSetNsProp (p : outPtr) (ns : option xmlNs) (nm v : string)
  : M unit :=
  do st <- get;
  do ts <- deref (forest_update (out (mem st)) p
                    (fun t => Some (with_properties t
                                      (set_attr (o_properties t) nm ns v))));
  modify_mem (with_out ts).

Definition xmlSetProperties (p : outPtr) (ps : list xmlAttr) : M unit :=
  do st <- get;
  do ts <- deref (forest_update (out (mem st)) p
                    (fun t => Some (with_properties t ps)));
  modify_mem (with_out ts).

(** xmlNodeGetContent on a result node: NULL when there is no text. *)
Fixpoint out_text (t : outNode) : string :=
  match t with
  | OutNode ty _ c _ _ _ cs =>
      if bool_decide (ty = XML_TEXT_NODE)
         || bool_decide (ty = XML_CDATA_SECTION_NODE)
      then c
      else (fix cat (l : list outNode) : string :=
              match l with
              | [] => ""
              | x :: l' => out_text x +:+ cat l'
              end) cs
  end.

Definition out_content (t : outNode) : option string :=
  match o_children t with
  | [] => None
  | _ :: _ => Some (out_text t)
  end.

(** xmlNodeGetContent on a stylesheet node *)
Definition node_text (n : xmlNode) : option string :=
  match n with
  | Element _ _ _ _ [] => None
  | _ => Some (xmlNodeGetContent n)
  end.

(** xmlDocGetRootElement: the first element child of the document *)
Definition xmlDocGetRootElement (d : outNode) : option outNode :=
  find (fun c => bool_decide (o_type c = XML_ELEMENT_NODE)) (o_children d).

(** xmlCreateIntSubset: refused when the document has a subset already *)
Definition xmlCreateIntSubset (d : xmlDoc) (nm : string)
           (ext sys : option string) : option xmlDtd :=
  match intSubset d with
  | Some _ => None
  | None => Some {| dtd_name := nm; ExternalID := ext; SystemID := sys |}
  end.

Definition with_intSubset (d : xmlDoc) (s : option xmlDtd) : xmlDoc :=
  {| doc_type := doc_type d; doc_version := doc_version d;
     doc_encoding := doc_encoding d; doc_charset_utf8 := doc_charset_utf8 d;
     intSubset := s |}.

Definition with_encoding (d : xmlDoc) (utf8 : bool) (e : option string)
  : xmlDoc :=
  {| doc_type := doc_type d; doc_version := doc_version d;
     doc_encoding := e; doc_charset_utf8 := utf8;
     intSubset := intSubset d |}.

(** xmlNewDoc(version): the version is "1.0" when none is given. *)
Definition xmlNewDoc (v : option string) : xmlDoc :=
  {| doc_type := XML_DOCUMENT_NODE; doc_version := Some (default "1.0" v);
     doc_encoding := None; doc_charset_utf8 := false; intSubset := None |}.

(** htmlNewDoc(URI, ExternalID): an HTML document with its DOCTYPE, the
    HTML 4.0 transitional one when none is given. *)
Definition htmlNewDoc (uri ext : option string) : xmlDoc :=
  let '(e, s) :=
    match uri, ext with
    | None, None => (Some "-//W3C//DTD HTML 4.0 Transitional//EN",
                     Some "http://www.w3.org/TR/REC-html40/loose.dtd")
    | _, _ => (ext, uri)
    end in
  {| doc_type := XML_HTML_DOCUMENT_NODE; doc_version := None;
     doc_encoding := None; doc_charset_utf8 := false;
     intSubset := Some {| dtd_name := "HTML"; ExternalID := e;
                          SystemID := s |} |}.

(** ** The source tree *)

Fixpoint next_in (l : list nat) (p : nat) : option nat :=
  match l with
  | [] => None
  | x :: l' => if bool_decide (x = p) then head l' else next_in l' p
  end.

Definition with_s_children (n : srcNode) (cs : list nat) : srcNode :=
  {| s_type := s_type n; s_name := s_name n; s_content := s_content n;
     s_parent := s_parent n; s_children := cs |}.

(** xmlUnlinkNode followed by xmlFreeNode, on a node without children *)
Definition unlink_and_free (p : ptr) (h : gmap nat srcNode)
  : gmap nat srcNode :=
  match h !! p with
  | None => h
  | Some n =>
      let h1 :=
        match s_parent n with
        | Some q =>
            match h !! q with
            | Some pn =>
                <[q := with_s_children pn
                         (filter (fun x => x <> p) (s_children pn))]> h
            | None => h
            end
        | None => h
        end in
      delete p h1
  end.

Definition xmlFreeSourceNode (p : ptr) : M unit :=
  modify_mem (fun m => with_src (unlink_and_free p (src m)) m).

(** ** Whitespace stripping: the decision taken at each of the two sites *)

(** xsltDefaultProcessOneNode, when [strip_spaces] is still -1: the new
    value of [strip_spaces]. *)
Definition default_strip_spaces (strip : gmap string string)
           (parent_name : string) : Z :=
  let by_name :=
    match strip !! parent_name with
    | Some val =>
        let s := if String.eqb val "strip" then 1 else -1 in
        if String.eqb val "preserve" then 0 else s
    | None => -1
    end in
  if Z.eqb by_name (-1) then
    match strip !! "*" with
    | Some val => if String.eqb val "strip" then 1 else 0
    | None => 0
    end
  else by_name.

(** xsltApplyTemplates: whether the blank node is deleted. *)
Definition apply_templates_strips (strip : gmap string string)
           (parent_name : string) : bool :=
  match strip !! parent_name with
  | Some val => String.eqb val "strip"
  | None => false
  end.

(** ** Sorting

    Modelled from the spec: xsltSortFunction is in xsltutils.c, which is
    not among the sources.  The node list is sorted in place by the
    parallel array of keys, stably, a missing key before any real one. *)

Definition key_le (number : bool) (a b : option xmlXPathObject) : bool :=
  match a, b with
  | None, _ => true
  | Some _, None => false
  | Some (XPATH_NUMBER x), Some (XPATH_NUMBER y) =>
      if number then Z.leb x y else true
  | Some (XPATH_STRING x), Some (XPATH_STRING y) =>
      if number then true else String.leb x y
  | Some _, Some _ => true
  end.

Definition key_before (descending number : bool)
           (a b : option xmlXPathObject) : bool :=
  if descending then key_le number b a else key_le number a b.

Fixpoint sort_insert (descending number : bool)
         (x : nat * option xmlXPathObject)
         (l : list (nat * option xmlXPathObject))
  : list (nat * option xmlXPathObject) :=
  match l with
  | [] => [x]
  | y :: l' =>
      if key_before descending number (snd x) (snd y) then x :: l
      else y :: sort_insert descending number x l'
  end.

Definition xsltSortFunction (tab : list nat)
           (results : list (option xmlXPathObject))
           (descending number : bool) : list nat :=
  map fst (foldr (sort_insert descending number) [] (combine tab results)).

(** ** The interpreter

    The procedures of transform.c call one another recursively; here each
    takes the recursive calls as a parameter [rec], and [exec] ties the
    knot with a fuel.  The two loops that run the interpreter again in
    their body (the walk of a template body and the walk of the children
    under the default rule) are calls of their own, one per iteration. *)

(** The local variables of the loop of xsltApplyOneTemplate *)
Record walk : Type :=
  { w_cur : cursor;
    w_insert : option outPtr;
    w_copy : option outPtr;
    w_has_variables : bool }.

Inductive call : Type :=
| ApplyOneTemplate (nd : option ptr) (list : option body)
| ProcessOneNode (nd : ptr)
| TemplateLoop (nd : option ptr) (oldInsert : option outPtr) (w : walk)
| DefaultLoop (parent : ptr) (cur : option ptr) (strip_spaces : Z).

Definition with_proximityPosition (x : xmlXPathContext) (i : Z) :=
  {| xp_node := xp_node x; contextSize := contextSize x;
     proximityPosition := i |}.

Definition with_contextSize (x : xmlXPathContext) (n : Z) :=
  {| xp_node := xp_node x; contextSize := n;
     proximityPosition := proximityPosition x |}.

Definition with_xp_node (x : xmlXPathContext) (n : option ptr) :=
  {| xp_node := n; contextSize := contextSize x;
     proximityPosition := proximityPosition x |}.

Section Transform.

Variable X : externals.

(** The prologue of an XPath evaluation, as xsltValueOf, xsltApplyTemplates,
    xsltIf and xsltForEach all have it: the XPath context is created on
    first use, a parser context is allocated, the context node is set.
    [false] stands for [goto error]. *)
Definition xpath_setup (nd : ptr) : M bool :=
  do st <- get;
  do created <-
    match xpathCtxt (ctxt st) with
    | Some _ => ret true
    | None =>
        do ok <- alloc;
        if ok
        then modify_ctxt (with_xpathCtxt (Some xmlXPathNewContext));; ret true
        else ret false
    end;
  if negb created then ret false
  else
    do ok <- alloc;
    if negb ok then ret false
    else
      do st1 <- get;
      do xc <- deref (xpathCtxt (ctxt st1));
      modify_ctxt (with_xpathCtxt (Some (with_xp_node xc (Some nd))));;
      ret true.

(** *** xsltSort *)

(** What is written to [results[i]]: the result when it has the kind
    asked for, NULL when it has another kind.  When there is no result
    nothing is written (None): the slot keeps what xmlMalloc left
    there. *)
Definition sort_key (number : bool) (res : option xmlXPathObject)
  : option (option xmlXPathObject) :=
  match res with
  | Some (XPATH_NUMBER x) => Some (if number then res else None)
  | Some (XPATH_STRING s) => Some (if number then None else res)
  | Some _ => Some None
  | None => None
  end.

(** The array [results] when every slot has been written *)
Fixpoint written {A} (slots : list (option A)) : option (list A) :=
  match slots with
  | [] => Some []
  | Some a :: rest =>
      match written rest with
      | Some l => Some (a :: l)
      | None => None
      end
  | None :: _ => None
  end.

Fixpoint xsltSort_keys (prop : string) (number : bool) (tab : list nat)
         (i : Z) : M (list (option (option xmlXPathObject))) :=
  match tab with
  | [] => ret []
  | n :: rest =>
      modify_ctxt (with_node (Some n));;
      do st <- get;
      do xc <- deref (xpathCtxt (ctxt st));
      modify_ctxt (with_xpathCtxt (Some (with_proximityPosition xc (i + 1))));;
      do st1 <- get;
      let r := xmlXPathStringFunction X st1 (xmlXPathEvalExpr X st1 prop) in
      let r := if number then xmlXPathNumberFunction X st1 r else r in
      do ks <- xsltSort_keys prop number rest (i + 1);
      ret (sort_key number r :: ks)
  end.

Definition xsltSort (nd : option ptr) (inst : xmlNode) : M unit :=
  match nd with
  | None => ret tt
  | Some _ =>
  do st <- get;
  match nodeList (ctxt st) with
  | None => ret tt
  | Some tab =>
  if (length tab <=? 1)%nat then ret tt
  else
    let data_type :=
      match xsltEvalAttrValueTemplate X st inst "data-type" with
      | None => Some false
      | Some p =>
          if String.eqb p "text" then Some false
          else if String.eqb p "number" then Some true else None
      end in
    match data_type with
    | None => xsltGenericError "xsltSort: no support for data-type"
    | Some number =>
    let order :=
      match xsltEvalAttrValueTemplate X st inst "order" with
      | None => Some false
      | Some p =>
          if String.eqb p "ascending" then Some false
          else if String.eqb p "descending" then Some true else None
      end in
    match order with
    | None => xsltGenericError "xsltSort: invalid value for order"
    | Some descending =>
    let select :=
      match xmlGetNsProp inst "select" XSLT_NAMESPACE with
      | Some p => Some p
      | None => node_text inst
      end in
    match select with
    | None => xsltGenericError "xsltSort: select is not defined"
    | Some prop =>
        do ok <- alloc;
        if negb ok then ret tt
        else
          do ok' <- alloc;
          if negb ok'
          then xsltGenericError "xsltSort: memory allocation failure"
          else
            do slots <- xsltSort_keys prop number tab 0;
            (* xsltSortFunction and xmlXPathFreeObject read every slot *)
            do results <-
              match written slots with
              | Some l => ret l
              | None => uninitialised
              end;
            modify_ctxt
              (with_nodeList
                 (Some (xsltSortFunction tab results descending number)))
    end end end
  end end.

(** *** Evaluating a template body to a string

    Modelled from the spec: xsltEvalTemplateString is in templates.c,
    which is not among the sources.  The body of the instruction is
    evaluated as a template producing text: it is run under a detached
    node, whose text is the value. *)
Definition xsltEvalTemplateString (rec : call -> M unit) (nd : option ptr)
           (parent : xmlNode) : M (option string) :=
  match nd, first_child parent with
  | Some _, Some body =>
      do ok <- alloc;
      if negb ok then ret None
      else
        do st <- get;
        let k := length (out (mem st)) in
        let oldInsert := insert (ctxt st) in
        modify_mem (fun m =>
          with_out (out m ++ [new_node XML_ELEMENT_NODE "fake" ""]) m);;
        modify_ctxt (with_insert (Some {| p_root := k; p_path := [] |}));;
        rec (ApplyOneTemplate nd (Some body));;
        modify_ctxt (with_insert oldInsert);;
        do st' <- get;
        do fake <- deref (nth_error (out (mem st')) k);
        modify_mem (fun m => with_out (firstn k (out m)) m);;
        ret (out_content fake)
  | _, _ => ret None
  end.

(** *** xsltComment *)
Definition xsltComment (rec : call -> M unit) (nd : option ptr)
           (inst : xmlNode) : M unit :=
  do value <- xsltEvalTemplateString rec nd inst;
  do ok <- alloc;                                (* xmlNewComment *)
  if ok then
    do st <- get;
    do _ <- xmlAddChild (insert (ctxt st))
              (new_node XML_COMMENT_NODE "comment" (default "" value));
    ret tt
  else ret tt.                        (* xmlAddChild(insert, NULL) *)

(** *** xsltProcessingInstruction *)
Definition xsltProcessingInstruction (rec : call -> M unit)
           (nd : option ptr) (inst : xmlNode) : M unit :=
  do st <- get;
  match insert (ctxt st) with
  | None => ret tt
  | Some _ =>
      match xsltEvalAttrValueTemplate X st inst "name" with
      | None =>
          xsltGenericError "xslt:processing-instruction : name is missing"
      | Some ncname =>
          do value <- xsltEvalTemplateString rec nd inst;
          do ok <- alloc;                        (* xmlNewPI *)
          if ok then
            do st1 <- get;
            do _ <- xmlAddChild (insert (ctxt st1))
                      (new_node XML_PI_NODE ncname (default "" value));
            ret tt
          else ret tt                 (* xmlAddChild(insert, NULL) *)
      end
  end.

(** *** xsltAttribute *)
Definition xsltAttribute (rec : call -> M unit) (nd : option ptr)
           (inst : xmlNode) : M unit :=
  do st <- get;
  match insert (ctxt st) with
  | None => ret tt
  | Some ip =>
      do target <- deref (forest_at (out (mem st)) ip);
      match o_children target with
      | _ :: _ =>
          xsltGenericError "xslt:attribute : node has already children"
      | [] =>
          match xsltEvalAttrValueTemplate X st inst "namespace" with
          | Some _ => TODO                (* xsl:attribute namespace *)
          | None =>
              match xsltEvalAttrValueTemplate X st inst "name" with
              | None => xsltGenericError "xslt:attribute : name is missing"
              | Some prop =>
                  let '(ncname, pfx) :=
                    match xmlSplitQName2 prop with
                    | Some (n, p) => (n, Some p)
                    | None => (prop, None)
                    end in
                  if String.eqb ncname "xmlns"
                  then xsltGenericError "xslt:attribute : xmlns forbidden"
                  else
                    do ns <-
                      match pfx with
                      | Some p =>
                          match xmlSearchNs (out (mem st)) ip p with
                          | Some ns => ret (Some ns)
                          | None =>
                              xsltGenericError
                                "no namespace bound to prefix";;
                              ret None
                          end
                      | None => ret None
                      end;
                    do value <- xsltEvalTemplateString rec nd inst;
                    xmlSetNsProp ip ns ncname (default "" value)
              end
          end
      end
  end.

(** *** xsltValueOf *)
Definition xsltValueOf (nd : option ptr) (inst : xmlNode) : M unit :=
  match nd with
  | None => ret tt
  | Some n =>
      match xmlGetNsProp inst "disable-output-escaping" XSLT_NAMESPACE with
      | Some p =>
          (if String.eqb p "yes" || String.eqb p "no" then ret tt
           else
             xsltGenericError "invalud value for disable-output-escaping");;
          if String.eqb p "yes" then TODO else ret tt
      | None => ret tt
      end;;
      match xmlGetNsProp inst "select" XSLT_NAMESPACE with
      | None => xsltGenericError "xsltValueOf: select is not defined"
      | Some prop =>
          do ok <- xpath_setup n;
          if negb ok then ret tt
          else
            do st <- get;
            do copied <-
              match xmlXPathStringFunction X st (xmlXPathEvalExpr X st prop)
              with
              | Some (XPATH_STRING s) =>
                  do ok' <- alloc;
                  if ok'
                  then
                    do _ <- xmlAddChild (insert (ctxt st))
                              (new_node XML_TEXT_NODE "text" s);
                    ret true
                  else ret false
              | _ => ret false
              end;
            if copied then ret tt
            else xsltGenericError "xsltDefaultProcessOneNode: text copy failed"
      end
  end.

(** *** xsltCopyNode *)
Definition xsltCopyNode (nd : xmlNode) (ins : outPtr) : M outPtr :=
  do ok <- alloc;
  do _ <- (if ok then ret tt else fault);   (* copy->doc = ctxt->output *)
  do st <- get;
  do parent <- deref (forest_at (out (mem st)) ins);
  let '(cns, nsdef) :=
    match node_ns nd with
    | None => (None, node_nsDef nd)
    | Some ns =>
        let reuse :=
          match o_ns parent with
          | Some pns =>
              bool_decide (o_type parent = XML_ELEMENT_NODE)
              && String.eqb (href pns) (href ns)
          | None => false
          end in
        if reuse then (o_ns parent, node_nsDef nd)
        else
          match xmlSearchNsByHref
                  (node_nsDef nd ++ in_scope_ns (out (mem st)) ins)
                  (href ns) with
          | Some found => (Some found, node_nsDef nd)
          | None => (None, node_nsDef nd ++ [ns])   (* xmlNewNs(copy, ..) *)
          end
    end in
  do r <- xmlAddChild (Some ins)
            {| o_type := XML_ELEMENT_NODE; o_name := node_name nd;
               o_content := ""; o_ns := cns; o_nsDef := nsdef;
               o_properties := []; o_children := [] |};
  deref r.

(** *** xsltDefaultProcessOneNode *)

(** The copy of a text or CDATA node of the source under the insertion
    point. *)
Definition copy_source_text (n : srcNode) : M unit :=
  do ok <- alloc;
  if ok
  then
    do st <- get;
    do _ <- xmlAddChild (insert (ctxt st)) (xmlCopySourceNode n);
    ret tt
  else xsltGenericError "xsltDefaultProcessOneNode: text copy failed".

(** One iteration of the loop over the children; [parent] is the node
    whose children are walked, [cur] the child at hand. *)
Definition xsltDefaultProcessOneNode_loop (rec : call -> M unit)
           (parent : ptr) (cur : option ptr) (strip_spaces : Z) : M unit :=
  match cur with
  | None => ret tt
  | Some p =>
      do st <- get;
      do n <- deref (src (mem st) !! p);
      do '(delete, strip_spaces') <-
        match s_type n with
        | XML_DOCUMENT_NODE | XML_HTML_DOCUMENT_NODE | XML_ELEMENT_NODE =>
            rec (ProcessOneNode p);; ret (false, strip_spaces)
        | XML_TEXT_NODE =>
            match IS_BLANK_NODE n, s_parent n, stripSpaces (style (ctxt st))
            with
            | true, Some q, Some strip =>
                do s <-
                  (if Z.eqb strip_spaces (-1)
                   then
                     do pn <- deref (src (mem st) !! q);
                     ret (default_strip_spaces strip (s_name pn))
                   else ret strip_spaces);
                if Z.eqb s 1 then ret (true, s)
                else copy_source_text n;; ret (false, s)
            | _, _, _ => copy_source_text n;; ret (false, strip_spaces)
            end
        | XML_CDATA_SECTION_NODE =>
            copy_source_text n;; ret (false, strip_spaces)
        | _ => ret (true, strip_spaces)
        end;
      do st1 <- get;
      do pn <- deref (src (mem st1) !! parent);
      let next := next_in (s_children pn) p in
      (if delete : bool then xmlFreeSourceNode p else ret tt);;
      rec (DefaultLoop parent next strip_spaces')
  end.

Definition xsltDefaultProcessOneNode (rec : call -> M unit) (nd : ptr)
  : M unit :=
  do st <- get;
  do n <- deref (src (mem st) !! nd);
  match s_type n with
  | XML_DOCUMENT_NODE | XML_HTML_DOCUMENT_NODE | XML_ELEMENT_NODE =>
      rec (DefaultLoop nd (head (s_children n)) (-1))
  | XML_TEXT_NODE => copy_source_text n
  | _ => ret tt
  end.

(** *** xsltCallTemplate *)

Fixpoint xsltCallTemplate_params (cs : list xmlNode) (has_param : bool)
  : M bool :=
  match cs with
  | [] => ret has_param
  | cur :: rest =>
      if IS_XSLT_ELEM cur then
        if IS_XSLT_NAME cur "with-param" then
          (if has_param then ret tt else xsltPushStack);;
          xsltParseStylesheetParam cur;;
          xsltCallTemplate_params rest true
        else
          xsltGenericError "xslt:call-template: misplaced xslt element";;
          xsltCallTemplate_params rest has_param
      else
        xsltGenericError "xslt:call-template: misplaced element";;
        xsltCallTemplate_params rest has_param
  end.

(** The name attribute split by xmlSplitQName2: the local name, the
    prefix, and the namespace that xmlSearchNs finds for the prefix at
    the insertion point. *)
Definition called_name (prop : string) : string :=
  match xmlSplitQName2 prop with
  | Some (n, _) => n
  | None => prop
  end.

Definition called_prefix (prop : string) : option string :=
  match xmlSplitQName2 prop with
  | Some (_, p) => Some p
  | None => None
  end.

Definition called_ns (ts : list outNode) (ip : outPtr) (prop : string)
  : option xmlNs :=
  match called_prefix prop with
  | Some p => xmlSearchNs ts ip p
  | None => None
  end.

(** When no template is found the argument of the message is
    [cur->name] (line 732), and [cur], declared at line 700, is assigned
    at line 735 only. *)
Definition xsltCallTemplate (rec : call -> M unit) (nd : option ptr)
           (inst : xmlNode) : M unit :=
  do st <- get;
  match insert (ctxt st) with
  | None => ret tt
  | Some ip =>
      match xmlGetNsProp inst "name" XSLT_NAMESPACE with
      | None => xsltGenericError "xslt:call-template : name is missing"
      | Some prop =>
          let ns := called_ns (out (mem st)) ip prop in
          (if is_set (called_prefix prop) && negb (is_set ns)
           then xsltGenericError "no namespace bound to prefix"
           else ret tt);;
          match xsltFindTemplate (style (ctxt st)) (called_name prop)
                                 (href <$> ns) with
          | None => uninitialised                (* cur->name *)
          | Some template =>
              do has_param <-
                xsltCallTemplate_params (node_children inst) false;
              rec (ApplyOneTemplate nd (template_content template));;
              if has_param : bool then xsltPopStack else ret tt
          end
      end
  end.

(** *** The iteration over a selected node list
    (xsltApplyTemplates and xsltForEach) *)

(** The assignments that open iteration [i] (counted from 0) on node [p] *)
Definition enter_iteration (p : ptr) (i : Z) : M unit :=
  modify_ctxt (with_node (Some p));;
  do st <- get;
  do xc <- deref (xpathCtxt (ctxt st));
  modify_ctxt (with_xpathCtxt (Some (with_proximityPosition xc (i + 1)))).

Fixpoint node_loop (body : ptr -> M unit) (tab : list nat) (i : Z)
  : M unit :=
  match tab with
  | [] => ret tt
  | p :: rest =>
      enter_iteration p i;;
      body p;;
      node_loop body rest (i + 1)
  end.

(** The leading xsl:sort children are handled and skipped; the result is
    the number of them. *)
Fixpoint skip_sorts (nd : option ptr) (cs : list xmlNode) (k : nat)
  : M nat :=
  match cs with
  | c :: rest =>
      if IS_XSLT_ELEM c && IS_XSLT_NAME c "sort"
      then xsltSort nd c;; skip_sorts nd rest (S k)
      else ret k
  | [] => ret k
  end.

(** [replacement], the first child after the xsl:sort ones *)
Definition replacement_at (inst : xmlNode) (k : nat) : option body :=
  match nth_error (node_children inst) k with
  | Some _ => Some {| b_parent := inst; b_index := k |}
  | None => None
  end.

(** The state is saved and the list installed. *)
Definition enter_list (tab : list nat)
  : M (option (list nat) * Z * Z) :=
  do st <- get;
  let oldlist := nodeList (ctxt st) in
  modify_ctxt (with_nodeList (Some tab));;
  do xc <- deref (xpathCtxt (ctxt st));
  modify_ctxt (with_xpathCtxt
                 (Some (with_contextSize xc (Z.of_nat (length tab)))));;
  ret (oldlist, contextSize xc, proximityPosition xc).

Definition leave_list (saved : option (list nat) * Z * Z) : M unit :=
  let '(oldlist, oldContextSize, oldProximityPosition) := saved in
  modify_ctxt (with_nodeList oldlist);;
  do st <- get;
  do xc <- deref (xpathCtxt (ctxt st));
  modify_ctxt (with_xpathCtxt
                 (Some (with_proximityPosition
                          (with_contextSize xc oldContextSize)
                          oldProximityPosition))).

(** From the saving of the state to its restoration.  [open_selected]
    goes up to the loop: its result is the saved state, the number [k] of
    xsl:sort children and the list to iterate on; [body k] is what an
    iteration runs. *)
Definition open_selected (nd : option ptr) (inst : xmlNode)
           (tab : list nat)
  : M (option (list nat) * Z * Z * nat * list nat) :=
  do saved <- enter_list tab;
  do k <- skip_sorts nd (node_children inst) 0;
  do st <- get;
  do sorted <- deref (nodeList (ctxt st));  (* the list, sorted in place *)
  ret (saved, k, sorted).

Definition iterate_selected (nd : option ptr) (inst : xmlNode)
           (list : option (list nat)) (body : nat -> ptr -> M unit)
  : M unit :=
  do tab <- deref list;                    (* list->nodeNr *)
  do '(saved, k, sorted) <- open_selected nd inst tab;
  node_loop (body k) sorted 0;;
  leave_list saved.

(** *** xsltApplyTemplates *)

(** The node list built from the children when there is no select *)
Fixpoint xsltApplyTemplates_children (cs : list nat) (acc : list nat)
  : M (list nat) :=
  match cs with
  | [] => ret acc
  | cur :: rest =>
      do st <- get;
      do n <- deref (src (mem st) !! cur);
      do delete <-
        match s_type n with
        | XML_TEXT_NODE =>
            match IS_BLANK_NODE n, s_parent n, stripSpaces (style (ctxt st))
            with
            | true, Some q, Some strip =>
                do pn <- deref (src (mem st) !! q);
                ret (apply_templates_strips strip (s_name pn))
            | _, _, _ => ret false
            end
        | XML_DOCUMENT_NODE | XML_HTML_DOCUMENT_NODE | XML_ELEMENT_NODE
        | XML_CDATA_SECTION_NODE => ret false
        | _ => ret true
        end;
      if delete : bool
      then xmlFreeSourceNode cur;; xsltApplyTemplates_children rest acc
      else xsltApplyTemplates_children rest (acc ++ [cur])
  end.

Definition xsltApplyTemplates (rec : call -> M unit) (nd : option ptr)
           (inst : xmlNode) : M unit :=
  match nd with
  | None => ret tt
  | Some n =>
      do selected <-
        match xmlGetNsProp inst "select" XSLT_NAMESPACE with
        | Some prop =>
            do ok <- xpath_setup n;
            if negb ok then ret None
            else
              do st <- get;
              match xmlXPathEvalExpr X st prop with
              | Some (XPATH_NODESET l) => ret (Some (Some l))
              | Some _ => ret None
              | None => ret (Some None)
              end
        | None =>
            do st <- get;
            do sn <- deref (src (mem st) !! n);
            do l <- xsltApplyTemplates_children (s_children sn) [];
            ret (Some (Some l))
        end;
      match selected with
      | None => ret tt                         (* goto error *)
      | Some list =>
          iterate_selected nd inst list
            (fun _ p => rec (ProcessOneNode p))
      end
  end.

(** *** xsltIf *)
Definition xsltIf (rec : call -> M unit) (nd : option ptr) (inst : xmlNode)
  : M unit :=
  match nd with
  | None => ret tt
  | Some n =>
      match xmlGetNsProp inst "test" XSLT_NAMESPACE with
      | None => xsltGenericError "xsltIf: test is not defined"
      | Some prop =>
          do ok <- xpath_setup n;
          if negb ok then ret tt
          else
            do st <- get;
            let res :=
              xmlXPathBooleanFunction X st (xmlXPathEvalExpr X st prop) in
            let doit :=          (* int doit = 1; None is [goto error] *)
              match res with
              | None => Some true
              | Some (XPATH_BOOLEAN b) => Some b
              | Some _ => None
              end in
            match doit with
            | Some true =>
                rec (ApplyOneTemplate (node (ctxt st)) (first_child inst))
            | _ => ret tt
            end
      end
  end.

(** *** xsltForEach *)
Definition xsltForEach (rec : call -> M unit) (nd : option ptr)
           (inst : xmlNode) : M unit :=
  match nd with
  | None => ret tt
  | Some n =>
      match xmlGetNsProp inst "select" XSLT_NAMESPACE with
      | None => xsltGenericError "xsltForEach: select is not defined"
      | Some prop =>
          do ok <- xpath_setup n;
          if negb ok then ret tt
          else
            do st <- get;
            let selected :=
              match xmlXPathEvalExpr X st prop with
              | Some (XPATH_NODESET l) => Some (Some l)
              | Some _ => None
              | None => Some None
              end in
            match selected with
            | None => ret tt                   (* goto error *)
            | Some list =>
                iterate_selected nd inst list
                  (fun k p =>
                     rec (ApplyOneTemplate (Some p) (replacement_at inst k)))
            end
      end
  end.

(** *** xsltApplyOneTemplate *)

(** An XSLT element met by the walk; the result is [has_variables]. *)
Definition xsltApplyOneTemplate_instruction (rec : call -> M unit)
           (nd : option ptr) (oldInsert ins : option outPtr)
           (cur : xmlNode) (has_variables : bool) : M bool :=
  let under_insert (handler : M unit) : M bool :=
    modify_ctxt (with_insert ins);;
    handler;;
    modify_ctxt (with_insert oldInsert);;
    ret has_variables in
  let push : M unit := if has_variables then ret tt else xsltPushStack in
  if IS_XSLT_NAME cur "apply-templates"
  then under_insert (xsltApplyTemplates rec nd cur)
  else if IS_XSLT_NAME cur "value-of"
  then under_insert (xsltValueOf nd cur)
  else if IS_XSLT_NAME cur "if"
  then under_insert (xsltIf rec nd cur)
  else if IS_XSLT_NAME cur "for-each"
  then under_insert (xsltForEach rec nd cur)
  else if IS_XSLT_NAME cur "attribute"
  then under_insert (xsltAttribute rec nd cur)
  else if IS_XSLT_NAME cur "comment"
  then under_insert (xsltComment rec nd cur)
  else if IS_XSLT_NAME cur "processing-instruction"
  then under_insert (xsltProcessingInstruction rec nd cur)
  else if IS_XSLT_NAME cur "variable"
  then push;; xsltParseStylesheetVariable cur;; ret true
  else if IS_XSLT_NAME cur "param"
  then push;; xsltParseStylesheetParam cur;; ret true
  else if IS_XSLT_NAME cur "call-template"
  then push;; xsltCallTemplate rec nd cur;; ret true
  else xsltGenericError "xsltApplyOneTemplate: found xslt element";;
       TODO;;
       ret has_variables.

(** The do-while that climbs to the next node in document order: the new
    [cur] and the new [insert]. *)
Fixpoint unwind (top : xmlNode) (path : list nat) (ins : option outPtr)
  : M (option cursor * option outPtr) :=
  match path with
  | [] => fault
  | _ :: up =>
      do ip <- deref ins;                  (* insert = insert->parent *)
      let ins' := out_parent ip in
      match up with
      | [] => ret (None, ins')             (* cur == list->parent *)
      | _ :: _ =>
          match cursor_next {| c_top := top; c_path := up |} with
          | Some nx => ret (Some nx, ins')
          | None => unwind top up ins'
          end
      end
  end.

Inductive walk_result : Type :=
| WalkReturn                        (* the return on insert == NULL *)
| WalkDone (has_variables : bool)   (* cur == NULL: the loop is left *)
| WalkNext (w : walk).

(** From the label skip_children to the end of the loop body *)
Definition skip_children (w : walk) : M walk_result :=
  match cursor_next (w_cur w) with
  | Some nx =>
      ret (WalkNext {| w_cur := nx; w_insert := w_insert w;
                       w_copy := w_copy w;
                       w_has_variables := w_has_variables w |})
  | None =>
      do '(cur', ins') <-
        unwind (c_top (w_cur w)) (c_path (w_cur w)) (w_insert w);
      match cur' with
      | Some c =>
          ret (WalkNext {| w_cur := c; w_insert := ins';
                           w_copy := w_copy w;
                           w_has_variables := w_has_variables w |})
      | None => ret (WalkDone (w_has_variables w))
      end
  end.

(** One iteration of the loop *)
Definition xsltApplyOneTemplate_step (rec : call -> M unit)
           (nd : option ptr) (oldInsert : option outPtr) (w : walk)
  : M walk_result :=
  match w_insert w with
  | None => ret WalkReturn
  | Some ins =>
      do cur <- deref (cursor_node (w_cur w));
      if IS_XSLT_ELEM cur then
        do hv <- xsltApplyOneTemplate_instruction rec nd oldInsert
                   (Some ins) cur (w_has_variables w);
        skip_children {| w_cur := w_cur w; w_insert := w_insert w;
                         w_copy := w_copy w; w_has_variables := hv |}
      else
        do copy <-
          (if bool_decide (node_type cur = XML_TEXT_NODE) then
             do ok <- alloc;
             if ok then xmlAddChild (Some ins) (xmlCopyNode cur)
             else
               xsltGenericError "xsltApplyOneTemplate: text copy failed";;
               ret None
           else if bool_decide (node_type cur = XML_ELEMENT_NODE) then
             do c <- xsltCopyNode cur ins;
             match node_properties cur with
             | [] => ret tt
             | _ :: _ =>
                 do st <- get;
                 xmlSetProperties c
                   (xsltAttrListTemplateProcess X st c (node_properties cur))
             end;;
             ret (Some c)
           else ret (w_copy w));
        let w' := {| w_cur := w_cur w; w_insert := w_insert w;
                     w_copy := copy;
                     w_has_variables := w_has_variables w |} in
        match first_child_type cur, cursor_children (w_cur w) with
        | Some t, Some down =>
            if bool_decide (t = XML_ENTITY_DECL) then skip_children w'
            else
              ret (WalkNext
                     {| w_cur := down;
                        w_insert := match copy with
                                    | Some c => Some c
                                    | None => w_insert w
                                    end;
                        w_copy := copy;
                        w_has_variables := w_has_variables w |})
        | _, _ => skip_children w'
        end
  end.

Definition xsltApplyOneTemplate_loop (rec : call -> M unit)
           (nd : option ptr) (oldInsert : option outPtr) (w : walk)
  : M unit :=
  do r <- xsltApplyOneTemplate_step rec nd oldInsert w;
  match r with
  | WalkReturn => ret tt
  | WalkDone has_variables =>
      if has_variables then xsltPopStack else ret tt
  | WalkNext w' => rec (TemplateLoop nd oldInsert w')
  end.

Definition xsltApplyOneTemplate (rec : call -> M unit) (nd : option ptr)
           (list : option body) : M unit :=
  do st <- get;
  let oldInsert := insert (ctxt st) in
  match list with
  | None => ret tt
  | Some b =>
      rec (TemplateLoop nd oldInsert
             {| w_cur := body_cursor b; w_insert := oldInsert;
                w_copy := None; w_has_variables := false |})
  end.

(** *** xsltProcessOneNode *)
Definition xsltProcessOneNode (rec : call -> M unit) (nd : ptr) : M unit :=
  do st <- get;
  match xsltGetTemplate X st nd with
  | None => xsltDefaultProcessOneNode rec nd
  | Some template => rec (ApplyOneTemplate (Some nd) (template_content template))
  end.

(** *** The knot *)
Fixpoint exec (fuel : nat) (c : call) : M unit :=
  match fuel with
  | O => fun _ => OutOfFuel
  | S f =>
      match c with
      | ApplyOneTemplate nd list => xsltApplyOneTemplate (exec f) nd list
      | ProcessOneNode nd => xsltProcessOneNode (exec f) nd
      | TemplateLoop nd oldInsert w =>
          xsltApplyOneTemplate_loop (exec f) nd oldInsert w
      | DefaultLoop parent cur strip_spaces =>
          xsltDefaultProcessOneNode_loop (exec f) parent cur strip_spaces
      end
  end.

(** *** xsltApplyStylesheet *)

(** xsltNewTransformContext, with the two fields set right after it *)
Definition xsltNewTransformContext (s : xsltStylesheet) (d : ptr)
  : xsltTransformContext :=
  {| style := s; type := XSLT_OUTPUT_XML; doc := Some d; node := None;
     nodeList := None; output := None; insert := None; xpathCtxt := None;
     variables := [] |}.

(** The node of a new document: the internal subset that the document
    is created with (by htmlNewDoc) is its first child. *)
Definition document_node (d : xmlDoc) : outNode :=
  with_children (new_node (doc_type d) "" "")
    match intSubset d with
    | Some dtd => [new_node XML_DTD_NODE (dtd_name dtd) ""]
    | None => []
    end.

(** A new document becomes a tree of the result forest. *)
Definition new_document (d : xmlDoc) : M (option nat) :=
  do ok <- alloc;
  if ok then
    do st <- get;
    modify_mem (fun m =>
      with_outdoc (Some d) (with_out (out m ++ [document_node d]) m));;
    ret (Some (length (out (mem st))))
  else ret None.

(** Lines 1363 to 1370: the condition assigns XSLT_OUTPUT_XML to
    [ctxt->type] and tests the value assigned. *)
Definition attach_doctype (s : xsltStylesheet) (k : nat) : M unit :=
  modify_ctxt (with_type XSLT_OUTPUT_XML);;
  if negb (Z.eqb (enum_value X XSLT_OUTPUT_XML) 0)
     && (is_set (doctypePublic s) || is_set (doctypeSystem s))
  then
    do st <- get;
    do dn <- deref (nth_error (out (mem st)) k);
    match xmlDocGetRootElement dn with
    | Some root =>
        do d <- deref (outdoc (mem st));
        modify_mem
          (with_outdoc
             (Some (with_intSubset d
                      (xmlCreateIntSubset d (o_name root)
                         (doctypePublic s) (doctypeSystem s)))))
    | None => ret tt
    end
  else ret tt.

Definition xsltApplyStylesheet_run (fuel : nat) (s : xsltStylesheet)
           (d : ptr) : M (option nat) :=
  modify_ctxt xsltEvalGlobalVariables;;
  let other_method :=      (* method != NULL and method is not "xml" *)
    match method s with
    | Some m => if String.eqb m "xml" then None else Some m
    | None => None
    end in
  do res <-
    match other_method with
    | Some m =>
        if String.eqb m "html" then
          modify_ctxt (with_type XSLT_OUTPUT_HTML);;
          new_document (htmlNewDoc (doctypePublic s) (doctypeSystem s))
        else if String.eqb m "text" then
          modify_ctxt (with_type XSLT_OUTPUT_TEXT);;
          new_document (xmlNewDoc (version s))
        else
          xsltGenericError "xsltApplyStylesheet: insupported method";;
          ret None
    | None =>
        modify_ctxt (with_type XSLT_OUTPUT_XML);;
        new_document (xmlNewDoc (version s))
    end;
  match res with
  | None => ret None                         (* error: *)
  | Some k =>
      do st <- get;
      do rd <- deref (outdoc (mem st));
      modify_mem (with_outdoc (Some (with_encoding rd true (encoding s))));;
      modify_ctxt (fun c =>
        with_node (Some d)
          (with_insert (Some {| p_root := k; p_path := [] |})
             (with_output (Some k) c)));;
      exec fuel (ProcessOneNode d);;
      attach_doctype s k;;
      ret (Some k)
  end.

Inductive run_result : Type :=
| Returns (res : option nat) (m : memory)
| Crashes
| Diverges.

(** The result is the index of the result document in the forest, or
    None for NULL; the context does not outlive the call. *)
Definition xsltApplyStylesheet (fuel : nat) (s : option xsltStylesheet)
           (d : option ptr) (m : memory) : run_result :=
  match s, d with
  | Some s, Some d =>
      let run :=
        do ok <- alloc;
        if ok then xsltApplyStylesheet_run fuel s d
        else
          xsltGenericError "xsltNewTransformContext : malloc failed";;
          ret None in
      match run {| ctxt := xsltNewTransformContext s d; mem := m |} with
      | Done r st => Returns r (mem st)
      | Fault => Crashes
      | OutOfFuel => Diverges
      end
  | _, _ => Returns None m
  end.

End Transform.

(** ** A small instance, to run the interpreter on concrete documents

    The XPath engine knows a handful of expressions, a match pattern is
    "/", "*", "text()" or an element name, and attribute value templates
    are plain attribute values. *)
Module Demo.

Definition children_of (st : state) (p : option ptr) : list nat :=
  match p with
  | Some q =>
      match src (mem st) !! q with
      | Some n => s_children n
      | None => []
      end
  | None => []
  end.

Definition eval (st : state) (e : string) : option xmlXPathObject :=
  let here := match xpathCtxt (ctxt st) with
              | Some xc => xp_node xc
              | None => None
              end in
  if String.eqb e "." then
    Some (XPATH_NODESET (match here with Some p => [p] | None => [] end))
  else if String.eqb e "node()" then
    Some (XPATH_NODESET (children_of st here))
  else if String.eqb e "true()" then Some (XPATH_BOOLEAN true)
  else if String.eqb e "false()" then Some (XPATH_BOOLEAN false)
  else if String.eqb e "position()" then
    match xpathCtxt (ctxt st) with
    | Some xc => Some (XPATH_NUMBER (proximityPosition xc))
    | None => None
    end
  else if String.eqb e "'text'" then Some (XPATH_STRING "text")
  else None.

Fixpoint concat_strings (l : list string) : string :=
  match l with
  | [] => ""
  | s :: l' => s +:+ concat_strings l'
  end.

Definition string_value (st : state) (p : ptr) : string :=
  match src (mem st) !! p with
  | Some n =>
      if bool_decide (s_type n = XML_TEXT_NODE) then s_content n
      else
        concat_strings
          (map (fun c => match src (mem st) !! c with
                         | Some cn => s_content cn
                         | None => ""
                         end) (s_children n))
  | None => ""
  end.

Definition to_string (st : state) (o : option xmlXPathObject)
  : option xmlXPathObject :=
  match o with
  | Some (XPATH_NODESET (p :: _)) => Some (XPATH_STRING (string_value st p))
  | Some (XPATH_NODESET []) => Some (XPATH_STRING "")
  | Some (XPATH_BOOLEAN b) =>
      Some (XPATH_STRING (if b then "true" else "false"))
  | Some (XPATH_NUMBER _) => Some (XPATH_STRING "0")
  | Some (XPATH_STRING s) => o
  | None => None
  end.

Definition to_boolean (st : state) (o : option xmlXPathObject)
  : option xmlXPathObject :=
  match o with
  | Some (XPATH_NODESET l) =>
      Some (XPATH_BOOLEAN (negb (bool_decide (l = []))))
  | Some (XPATH_BOOLEAN b) => o
  | Some (XPATH_NUMBER x) => Some (XPATH_BOOLEAN (negb (Z.eqb x 0)))
  | Some (XPATH_STRING s) => Some (XPATH_BOOLEAN (negb (String.eqb s "")))
  | None => None
  end.

Definition to_number (st : state) (o : option xmlXPathObject)
  : option xmlXPathObject :=
  match o with
  | Some (XPATH_NUMBER x) => o
  | Some _ => Some (XPATH_NUMBER 0)
  | None => None
  end.

Definition matches (st : state) (p : ptr) (t : xsltTemplate) : bool :=
  match t_match t, src (mem st) !! p with
  | Some pat, Some n =>
      if String.eqb pat "/" then bool_decide (s_type n = XML_DOCUMENT_NODE)
      else if String.eqb pat "*"
      then bool_decide (s_type n = XML_ELEMENT_NODE)
      else if String.eqb pat "text()"
      then bool_decide (s_type n = XML_TEXT_NODE)
      else bool_decide (s_type n = XML_ELEMENT_NODE)
           && String.eqb pat (s_name n)
  | _, _ => false
  end.

(** [xml_first] says whether XSLT_OUTPUT_XML is the first enumerator,
    of value 0 (as in libxslt), or the last one. *)
Definition engine_numbered (xml_first : bool) : externals :=
  {| enum_value := fun t => match t with
                            | XSLT_OUTPUT_XML => if xml_first then 0 else 2
                            | XSLT_OUTPUT_HTML => if xml_first then 1 else 0
                            | XSLT_OUTPUT_TEXT => if xml_first then 2 else 1
                            end;
     xmlXPathEvalExpr := eval;
     xmlXPathStringFunction := to_string;
     xmlXPathBooleanFunction := to_boolean;
     xmlXPathNumberFunction := to_number;
     xsltEvalAttrValueTemplate :=
       fun _ inst nm => xmlGetNsProp inst nm XSLT_NAMESPACE;
     xsltAttrListTemplateProcess := fun _ _ ps => ps;
     xsltGetTemplate :=
       fun st p => find (matches st p) (templates (style (ctxt st))) |}.

Definition engine : externals := engine_numbered true.

(** Stylesheet elements *)
Definition xsl : option xmlNs :=
  Some {| href := XSLT_NAMESPACE; prefix := Some "xsl" |}.

Definition attr (nm v : string) : xmlAttr :=
  {| attr_name := nm; attr_ns := None; attr_value := v |}.

Definition instr (nm : string) (ps : list xmlAttr) (cs : list xmlNode)
  : xmlNode := Element nm xsl [] ps cs.

Definition lit (nm : string) (cs : list xmlNode) : xmlNode :=
  Element nm None [] [] cs.

Definition text (s : string) : xmlNode := Leaf LText "text" s.

Definition template (pat : string) (body : list xmlNode) : xsltTemplate :=
  {| t_name := None; t_nameURI := None; t_match := Some pat;
     t_elem := instr "template" [attr "match" pat] body |}.

Definition named_template (nm : string) (body : list xmlNode)
  : xsltTemplate :=
  {| t_name := Some nm; t_nameURI := None; t_match := None;
     t_elem := instr "template" [attr "name" nm] body |}.

Definition stylesheet (ts : list xsltTemplate)
           (strip : option (gmap string string)) : xsltStylesheet :=
  {| templates := ts; stripSpaces := strip; globals := [];
     method := None; version := Some "1.0"; encoding := None;
     doctypePublic := None; doctypeSystem := None |}.

(** Source nodes *)
Definition snode (ty : xmlElementType) (nm content : string)
           (par : option ptr) (cs : list nat) : srcNode :=
  {| s_type := ty; s_name := nm; s_content := content; s_parent := par;
     s_children := cs |}.

Definition memory_of (h : gmap nat srcNode) : memory :=
  {| src := h; out := []; outdoc := None; errors := []; allocs := [] |}.

(** The document <r>hello</r>: 0 is the document, 1 is r, 2 the text. *)
Definition hello : gmap nat srcNode :=
  <[0%nat := snode XML_DOCUMENT_NODE "" "" None [1%nat]]>
  (<[1%nat := snode XML_ELEMENT_NODE "r" "" (Some 0%nat) [2%nat]]>
  (<[2%nat := snode XML_TEXT_NODE "text" "hello" (Some 1%nat) []]> ∅)).

(** <r>{two spaces}<!--c-->z</r>: 2 is the blank text, 3 the comment,
    4 the text z. *)
Definition blank : gmap nat srcNode :=
  <[0%nat := snode XML_DOCUMENT_NODE "" "" None [1%nat]]>
  (<[1%nat := snode XML_ELEMENT_NODE "r" "" (Some 0%nat)
                    [2%nat; 3%nat; 4%nat]]>
  (<[2%nat := snode XML_TEXT_NODE "text" "  " (Some 1%nat) []]>
  (<[3%nat := snode XML_COMMENT_NODE "comment" "c" (Some 1%nat) []]>
  (<[4%nat := snode XML_TEXT_NODE "text" "z" (Some 1%nat) []]> ∅)))).

(** <r><!--c--></r> *)
Definition commented : gmap nat srcNode :=
  <[0%nat := snode XML_DOCUMENT_NODE "" "" None [1%nat]]>
  (<[1%nat := snode XML_ELEMENT_NODE "r" "" (Some 0%nat) [2%nat]]>
  (<[2%nat := snode XML_COMMENT_NODE "comment" "c" (Some 1%nat) []]> ∅)).

(** <r><a/><b/><c/></r> *)
Definition items : gmap nat srcNode :=
  <[0%nat := snode XML_DOCUMENT_NODE "" "" None [1%nat]]>
  (<[1%nat := snode XML_ELEMENT_NODE "r" "" (Some 0%nat)
                    [2%nat; 3%nat; 4%nat]]>
  (<[2%nat := snode XML_ELEMENT_NODE "a" "" (Some 1%nat) []]>
  (<[3%nat := snode XML_ELEMENT_NODE "b" "" (Some 1%nat) []]>
  (<[4%nat := snode XML_ELEMENT_NODE "c" "" (Some 1%nat) []]> ∅)))).

Definition root : outPtr := {| p_root := 0%nat; p_path := [] |}.

(** The state in which xsltApplyStylesheet starts the processing: the
    empty result document is the insertion point. *)
Definition start (s : xsltStylesheet) (h : gmap nat srcNode)
           (xp : option xmlXPathContext) : state :=
  {| ctxt := {| style := s; type := XSLT_OUTPUT_XML; doc := Some 0%nat;
                node := Some 0%nat; nodeList := None; output := Some 0%nat;
                insert := Some root; xpathCtxt := xp; variables := [] |};
     mem := {| src := h; out := [new_node XML_DOCUMENT_NODE "" ""];
               outdoc := Some (xmlNewDoc (version s)); errors := [];
               allocs := [] |} |}.

(** The state a run ends in *)
Definition final {A} (o : outcome A) (otherwise : state) : state :=
  match o with
  | Done _ s => s
  | _ => otherwise
  end.

(** The text of a result tree, elements in angle brackets *)
Fixpoint render (t : outNode) : string :=
  match t with
  | OutNode ty nm c _ _ ps cs =>
      let inner :=
        (fix go (l : list outNode) : string :=
           match l with
           | [] => ""
           | x :: l' => render x +:+ go l'
           end) cs in
      if bool_decide (ty = XML_TEXT_NODE) then c
      else if bool_decide (ty = XML_ELEMENT_NODE)
      then "<" +:+ nm +:+ ">" +:+ inner +:+ "</" +:+ nm +:+ ">"
      else inner
  end.

(** A context that holds a context size and a position already *)
Definition busy : option xmlXPathContext :=
  Some {| xp_node := None; contextSize := 7; proximityPosition := 3 |}.

Definition plain : xsltStylesheet := stylesheet [] None.

(** <xsl:for-each select="node()"><i/></xsl:for-each> *)
Definition for_each_node : xmlNode :=
  instr "for-each" [attr "select" "node()"] [lit "i" []].

(** A body that declares a variable: <xsl:variable name="v"/><b>x</b> *)
Definition with_variable : xmlNode :=
  lit "t" [instr "variable" [attr "name" "v"] []; lit "b" [text "x"]].

(** <xsl:if test="unknown()">YES</xsl:if>: the engine gives no result
    for the test. *)
Definition if_unknown : xmlNode :=
  instr "if" [attr "test" "unknown()"] [text "YES"].

(** <xsl:call-template name="nowhere"/> *)
Definition call_nowhere : xmlNode :=
  instr "call-template" [attr "name" "nowhere"] [].

(** <xsl:attribute name="id">v</xsl:attribute> *)
Definition attribute_id : xmlNode :=
  instr "attribute" [attr "name" "id"] [text "v"].

(** The result <out>x</out> under construction, the insertion point
    being the element out. *)
Definition filled : state :=
  set_ctxt (with_insert (Some {| p_root := 0%nat; p_path := [0%nat] |}))
    (set_mem (with_out
                [with_children (new_node XML_DOCUMENT_NODE "" "")
                   [with_children (new_node XML_ELEMENT_NODE "out" "")
                      [new_node XML_TEXT_NODE "text" "x"]]])
       (start plain hello None)).

(** A stylesheet that writes <out/> and declares a DOCTYPE *)
Definition with_doctype (m : option string) : xsltStylesheet :=
  {| templates := [template "/" [lit "out" []]]; stripSpaces := None;
     globals := []; method := m; version := Some "1.0"; encoding := None;
     doctypePublic := None; doctypeSystem := Some "out.dtd" |}.

(** Every element name is stripped of its blank text. *)
Definition strip_all : xsltStylesheet :=
  stylesheet [] (Some {["*" := "strip"]}).

End Demo.

(** * Specification

    The notions in which the properties are stated and proved. *)

(** [wp m Q st]: if [m] returns from [st], [Q] holds of its result and of
    the state it returns in. *)
Definition wp {A} (m : M A) (Q : A -> state -> Prop) (st : state) : Prop :=
  match m st with
  | Done a st' => Q a st'
  | Fault | OutOfFuel => True
  end.

(** The context size and the position of a context; -1, the value in a
    fresh context, when there is none. *)
Definition size_of (o : option xmlXPathContext) : Z :=
  match o with Some x => contextSize x | None => -1 end.

Definition prox_of (o : option xmlXPathContext) : Z :=
  match o with Some x => proximityPosition x | None => -1 end.

(** The nodes that the walks of the source tree unlink: blank text nodes,
    and the nodes that are neither element, document, text nor CDATA. *)
Definition removable (n : srcNode) : Prop :=
  IS_BLANK_NODE n = true \/
  (s_type n <> XML_TEXT_NODE /\ s_type n <> XML_CDATA_SECTION_NODE /\
   s_type n <> XML_ELEMENT_NODE /\ s_type n <> XML_DOCUMENT_NODE /\
   s_type n <> XML_HTML_DOCUMENT_NODE).

(** [h'] is [h] with some removable nodes unlinked and freed. *)
Definition src_shrink (h h' : gmap nat srcNode) : Prop :=
  forall p,
    match h' !! p with
    | Some n' =>
        exists n, h !! p = Some n /\
          s_type n' = s_type n /\ s_name n' = s_name n /\
          s_content n' = s_content n /\ s_parent n' = s_parent n /\
          sublist (s_children n') (s_children n)
    | None => forall n, h !! p = Some n -> removable n
    end.

Record mask : Type :=
  { m_vars : bool; m_insert : bool; m_list : bool; m_size : bool;
    m_prox : bool }.

Definition keep_all : mask :=
  {| m_vars := true; m_insert := true; m_list := true; m_size := true;
     m_prox := true |}.

(** between the saving and the restoration in an iteration *)
Definition keep_iter : mask :=
  {| m_vars := true; m_insert := true; m_list := false; m_size := true;
     m_prox := false |}.

(** while a scope of variables is being filled *)
Definition keep_scope : mask :=
  {| m_vars := false; m_insert := true; m_list := true; m_size := true;
     m_prox := true |}.

(** inside the walk of a template body *)
Definition keep_walk : mask :=
  {| m_vars := false; m_insert := false; m_list := true; m_size := true;
     m_prox := true |}.

Definition when (b : bool) (P : Prop) : Prop := if b then P else True.

Definition rel (m : mask) (st st' : state) : Prop :=
  when (m_vars m) (variables (ctxt st') = variables (ctxt st)) /\
  when (m_insert m) (insert (ctxt st') = insert (ctxt st)) /\
  when (m_list m) (nodeList (ctxt st') = nodeList (ctxt st)) /\
  when (m_size m)
       (size_of (xpathCtxt (ctxt st')) = size_of (xpathCtxt (ctxt st))) /\
  when (m_prox m)
       (prox_of (xpathCtxt (ctxt st')) = prox_of (xpathCtxt (ctxt st))) /\
  src_shrink (src (mem st)) (src (mem st')).

(** The variable stack below the scope that a body has opened, if it has
    opened one *)
Definition base_vars (has_scope : bool) (st : state)
  : list (list xsltStackElem) :=
  if has_scope then tail (variables (ctxt st)) else variables (ctxt st).

(** The insertion point is as deep under the starting one as the walk is
    under the node it started at; it is NULL only before anything ran. *)
Definition walk_ok (w : walk) : Prop :=
  match w_insert w with
  | Some ip => (length (c_path (w_cur w)) <= S (length (p_path ip)))%nat
  | None => w_has_variables w = false
  end.

(** What a call that returns has done *)
Definition spec (c : call) (st st' : state) : Prop :=
  match c with
  | TemplateLoop nd oldInsert w =>
      walk_ok w -> insert (ctxt st) = oldInsert ->
      rel keep_walk st st' /\
      variables (ctxt st') = base_vars (w_has_variables w) st /\
      insert (ctxt st') = oldInsert
  | _ => rel keep_all st st'
  end.

(** The fields that an iteration saves are as they were. *)
Definition restored (st st' : state) : Prop :=
  nodeList (ctxt st') = nodeList (ctxt st) /\
  forall xc, xpathCtxt (ctxt st) = Some xc ->
    exists xc', xpathCtxt (ctxt st') = Some xc' /\
      contextSize xc' = contextSize xc /\
      proximityPosition xc' = proximityPosition xc.

Definition pres {A} (m : M A) : Prop :=
  forall st, wp m (fun _ st' => restored st st') st.

(** The list [l] is installed and the context size is [N]. *)
Definition listed (N : nat) (l : list nat) (st : state) : Prop :=
  nodeList (ctxt st) = Some l /\
  exists xc, xpathCtxt (ctxt st) = Some xc /\ contextSize xc = Z.of_nat N.

(** From [st0] to [st] nothing has been written to the trees and to
    the output document, and the context has its stylesheet, output
    type, documents, insertion point and variables. *)
Definition kept (st0 st : state) : Prop :=
  src (mem st) = src (mem st0) /\ out (mem st) = out (mem st0) /\
  outdoc (mem st) = outdoc (mem st0) /\
  style (ctxt st) = style (ctxt st0) /\ type (ctxt st) = type (ctxt st0) /\
  doc (ctxt st) = doc (ctxt st0) /\ output (ctxt st) = output (ctxt st0) /\
  insert (ctxt st) = insert (ctxt st0) /\
  variables (ctxt st) = variables (ctxt st0).

(** In [st] a rearrangement of [l0] is installed, with the length of
    [l0] as context size; the rest is as in [st0]. *)
Definition arranged (l0 : list nat) (st0 st : state) : Prop :=
  (exists l, listed (length l0) l st /\ l ≡ₚ l0) /\ kept st0 st.

(** [e] is the state [s] once iteration [i], counted from 0, on the node
    [p] is opened: the current node is set to [p] and the proximity
    position to i+1, and nothing else differs. *)
Definition entered (p : ptr) (i : nat) (s e : state) : Prop :=
  exists xc,
    xpathCtxt (ctxt s) = Some xc /\
    e = set_ctxt
          (fun c =>
             with_xpathCtxt
               (Some (with_proximityPosition xc (Z.of_nat i + 1)))
               (with_node (Some p) c)) s.

(** [e] is a state in which iteration [i], counted from 0, over the
    list [all] runs on the node [p]: [all] is the node list of the
    context and [p] its node of index [i], [p] is the current node, the
    context size is the length of [all] and the proximity position is
    i+1. *)
Definition iteration_state (all : list nat) (i : nat) (p : ptr)
           (e : state) : Prop :=
  all !! i = Some p /\
  nodeList (ctxt e) = Some all /\
  node (ctxt e) = Some p /\
  exists xc, xpathCtxt (ctxt e) = Some xc /\
    contextSize xc = Z.of_nat (length all) /\
    proximityPosition xc = Z.of_nat i + 1 /\
    1 <= proximityPosition xc <= Z.of_nat (length all).

(** [iterations rec iter all i s s']: from the state [s], the iterations
    of index [i] and above over [all] are run, one after the other, and
    they lead to [s'].  An iteration on [p] is the call [rec (iter p)];
    it is run in the state [e] that opens it from the state the
    iteration before it returned in, and [e] is a state of its index. *)
Inductive iterations (rec : call -> M unit) (iter : ptr -> call)
          (all : list nat) : nat -> state -> state -> Prop :=
| iterations_end s : iterations rec iter all (length all) s s
| iterations_step i p s e s' s'' :
    entered p i s e ->
    iteration_state all i p e ->
    rec (iter p) e = Done tt s' ->
    iterations rec iter all (S i) s' s'' ->
    iterations rec iter all i s s''.

(** The number of xsl:sort elements that open the children [cs] of an
    instruction; the body of an xsl:for-each starts after them. *)
Fixpoint leading_sorts (cs : list xmlNode) : nat :=
  match cs with
  | c :: rest =>
      if IS_XSLT_ELEM c && IS_XSLT_NAME c "sort"
      then S (leading_sorts rest) else 0%nat
  | [] => 0%nat
  end.

(** The list [l] is what the select attribute of [inst] evaluates to on
    the node [n]; [st1] is the state after the evaluation. *)
Definition by_expression (X : externals) (n : ptr) (inst : xmlNode)
           (st : state) (l : list nat) (st1 : state) : Prop :=
  exists prop,
    xmlGetNsProp inst "select" XSLT_NAMESPACE = Some prop /\
    xpath_setup n st = Done true st1 /\
    xmlXPathEvalExpr X st1 prop = Some (XPATH_NODESET l).

(** There is no select attribute and [l] is the list that
    xsl:apply-templates builds from the children of [n]. *)
Definition by_children (n : ptr) (inst : xmlNode) (st : state)
           (l : list nat) (st1 : state) : Prop :=
  xmlGetNsProp inst "select" XSLT_NAMESPACE = None /\
  exists sn, src (mem st) !! n = Some sn /\
    xsltApplyTemplates_children (s_children sn) [] st = Done l st1.

(** From [st1], where the list [l] was selected, the instruction ran one
    iteration per node of a rearrangement [all] of [l] (the order that
    the xsl:sort children give), in the order of [all], and returned
    with the memory of the last one.  The iterations start from [s0],
    which is [st1] with the list [all] installed and the length of [l]
    as context size. *)
Definition iterates (rec : call -> M unit) (iter : ptr -> call)
           (l : list nat) (st1 st' : state) : Prop :=
  exists all s0 sN,
    all ≡ₚ l /\
    listed (length l) all s0 /\ kept st1 s0 /\
    iterations rec iter all 0 s0 sN /\
    mem st' = mem sN.

Definition sound (rec : call -> M unit) : Prop :=
  forall c st, wp (rec c) (fun _ st' => spec c st st') st.

Definition step_post (oldInsert : option outPtr) (hv0 : bool) (st : state)
           (r : walk_result) (st' : state) : Prop :=
  match r with
  | WalkReturn => st' = st /\ hv0 = false
  | WalkDone hv =>
      rel keep_walk st st' /\
      base_vars hv st' = base_vars hv0 st /\
      insert (ctxt st') = oldInsert
  | WalkNext w' =>
      walk_ok w' /\ rel keep_walk st st' /\
      base_vars (w_has_variables w') st' = base_vars hv0 st /\
      insert (ctxt st') = oldInsert
  end.

(** The kinds of child that the default rule neither processes nor
    copies *)
Definition other_kind (n : srcNode) : Prop :=
  s_type n <> XML_ELEMENT_NODE /\ s_type n <> XML_DOCUMENT_NODE /\
  s_type n <> XML_HTML_DOCUMENT_NODE /\ s_type n <> XML_TEXT_NODE /\
  s_type n <> XML_CDATA_SECTION_NODE.

(** The source tree changes by the removal of ignorable blank text nodes
    only: whatever else was there is still there. *)
Definition only_blank_text_removed (h h' : gmap nat srcNode) : Prop :=
  forall p n, h !! p = Some n -> h' !! p = None -> IS_BLANK_NODE n = true.

(** The stripping policy in the words of the specification: the decision
    of the strip/preserve map for the name of the parent; if there is
    none, the decision for the wildcard entry; the node is stripped
    exactly when the decision is strip. *)
Definition strip_policy (strip : gmap string string) (parent_name : string)
  : bool :=
  let decision (v : option string) : option bool :=
    match v with
    | Some val =>
        if String.eqb val "strip" then Some true
        else if String.eqb val "preserve" then Some false else None
    | None => None
    end in
  match decision (strip !! parent_name) with
  | Some d => d
  | None =>
      match decision (strip !! "*") with
      | Some d => d
      | None => false
      end
  end.

(** ** The stripping of the source tree *)

(** The source tree is well linked: no node is twice a child of the same
    node, and the children of a node are nodes of the tree whose parent
    it is. *)
Definition tree_ok (h : gmap nat srcNode) : Prop :=
  forall p n, h !! p = Some n ->
    NoDup (s_children n) /\
    Forall (fun c => s_parent <$> h !! c = Some (Some p)) (s_children n).

(** The two sorts of node that the walks of the source tree unlink: the
    nodes that are neither element, document, text nor CDATA, and the
    blank text nodes designated for stripping, those for which the
    policy of the strip/preserve map on the name of their parent is to
    strip. *)
Definition stripped_sort (strip : option (gmap string string))
           (h : gmap nat srcNode) (n : srcNode) : Prop :=
  other_kind n \/
  (IS_BLANK_NODE n = true /\
   exists m q pn,
     strip = Some m /\ s_parent n = Some q /\ h !! q = Some pn /\
     strip_policy m (s_name pn) = true).

(** [h'] is [h] without some nodes of these two sorts: they are gone
    from the tree and from the children of their parent, and nothing
    else has changed. *)
Definition src_stripped (strip : option (gmap string string))
           (h h' : gmap nat srcNode) : Prop :=
  forall p,
    match h' !! p with
    | Some n' =>
        exists n, h !! p = Some n /\
          s_type n' = s_type n /\ s_name n' = s_name n /\
          s_content n' = s_content n /\ s_parent n' = s_parent n /\
          s_children n' = filter (fun c => is_Some (h' !! c)) (s_children n)
    | None => forall n, h !! p = Some n -> stripped_sort strip h n
    end.

(** What the stripping reads and writes: the strip/preserve map of the
    stylesheet and the source tree. *)
Definition stripping_view (st : state)
  : option (gmap string string) * gmap nat srcNode :=
  (stripSpaces (style (ctxt st)), src (mem st)).

(** From [v] to [v'] the map is kept, and a well linked tree is still
    well linked and has only lost nodes of the two sorts.  [P] is what
    the step relies on. *)
Definition stripping (P : Prop)
           (v v' : option (gmap string string) * gmap nat srcNode) : Prop :=
  fst v' = fst v /\
  (tree_ok (snd v) -> P ->
   tree_ok (snd v') /\ src_stripped (fst v) (snd v) (snd v')).

Definition strips_only (st st' : state) : Prop :=
  stripping True (stripping_view st) (stripping_view st').

(** What the loop of the default rule relies on: [cur] is a child of
    [parent], and the cached decision [s], if there is one, is the one
    for the name of [parent]. *)
Definition cached (s : Z) (pn : srcNode) (st : state) : Prop :=
  s = -1 \/
  exists m, stripSpaces (style (ctxt st)) = Some m /\
            s = default_strip_spaces m (s_name pn).

Definition loop_ready (parent : ptr) (cur : option ptr) (s : Z)
           (st : state) : Prop :=
  forall pn, src (mem st) !! parent = Some pn ->
    (forall p, cur = Some p -> p ∈ s_children pn) /\ cached s pn st.

(** What the loop has decided on the child [p]: [r] is the pair of the
    deletion flag and of the cached decision. *)
Definition decided (parent p : ptr) (s : Z) (st : state) (r : bool * Z)
           (st1 : state) : Prop :=
  strips_only st st1 /\
  (tree_ok (src (mem st)) -> loop_ready parent (Some p) s st ->
   forall pn, src (mem st1) !! parent = Some pn ->
     cached (snd r) pn st1 /\
     (fst r = true ->
      exists n1, src (mem st1) !! p = Some n1 /\
        stripped_sort (stripSpaces (style (ctxt st1))) (src (mem st1)) n1)).

Definition strips_spec (c : call) (st st' : state) : Prop :=
  match c with
  | DefaultLoop parent cur s =>
      stripping (loop_ready parent cur s st)
                (stripping_view st) (stripping_view st')
  | _ => strips_only st st'
  end.

Definition careful (rec : call -> M unit) : Prop :=
  forall c st, wp (rec c) (fun _ st' => strips_spec c st st') st.

(** A node without [p] among its children *)
Definition prune (p : ptr) (n : srcNode) : srcNode :=
  with_s_children n (filter (fun c => c <> p) (s_children n)).

(** The internal subset of the document that a transformation returns,
    and the name of its root element *)
Definition result_subset (r : run_result) : option (option xmlDtd) :=
  match r with
  | Returns (Some _) m => intSubset <$> outdoc m
  | _ => None
  end.

Definition result_root (r : run_result) : option string :=
  match r with
  | Returns (Some k) m =>
      match nth_error (out m) k with
      | Some d => o_name <$> xmlDocGetRootElement d
      | None => None
      end
  | _ => None
  end.

(** * Further notions: growth of the result, text, literal bodies *)

(** A node of the result tree as it may become: its type, name and
    namespaces are kept, its text is extended at the end. *)
Definition extends (n n' : outNode) : Prop :=
  o_type n' = o_type n /\ o_name n' = o_name n /\ o_ns n' = o_ns n /\
  o_nsDef n' = o_nsDef n /\ exists s, o_content n' = o_content n +:+ s.

(** Every node of the tree [t] is still at its place in [t']. *)
Definition node_grows (t t' : outNode) : Prop :=
  forall path n, out_at t path = Some n ->
    exists n', out_at t' path = Some n' /\ extends n n'.

(** Every node of the forest [ts] is still at its place in [ts']. *)
Definition grows (ts ts' : list outNode) : Prop :=
  forall p n, forest_at ts p = Some n ->
    exists n', forest_at ts' p = Some n' /\ extends n n'.

(** What no procedure of the interpreter touches, and what it only adds
    to. *)
Definition steady (st st' : state) : Prop :=
  style (ctxt st') = style (ctxt st) /\
  type (ctxt st') = type (ctxt st) /\
  doc (ctxt st') = doc (ctxt st) /\
  output (ctxt st') = output (ctxt st) /\
  outdoc (mem st') = outdoc (mem st) /\
  errors (mem st) `prefix_of` errors (mem st') /\
  grows (out (mem st)) (out (mem st')).

(** The procedures behind [rec] keep to [steady]. *)
Definition unmoved (rec : call -> M unit) : Prop :=
  forall c st, wp (rec c) (fun _ st' => steady st st') st.

(** What a whole transformation does to the memory it is given *)
Definition run_post (s : xsltStylesheet) (st : state) (r : option nat)
           (st' : state) : Prop :=
  src_shrink (src (mem st)) (src (mem st')) /\
  errors (mem st) `prefix_of` errors (mem st') /\
  grows (out (mem st)) (out (mem st')) /\
  forall k, r = Some k ->
    k = length (out (mem st)) /\
    exists rd t,
      outdoc (mem st') = Some rd /\
      doc_charset_utf8 rd = true /\ doc_encoding rd = encoding s /\
      doc_type rd = (if bool_decide (method s = Some "html")
                     then XML_HTML_DOCUMENT_NODE else XML_DOCUMENT_NODE) /\
      (method s <> Some "html" ->
       doc_version rd = Some (default "1.0" (version s))) /\
      nth_error (out (mem st')) k = Some t /\ o_type t = doc_type rd.

(** The memory a transformation returns *)
Definition memory_after (r : run_result) (otherwise : memory) : memory :=
  match r with
  | Returns _ m => m
  | _ => otherwise
  end.

(** The text of a list of result nodes, one after the other *)
Definition out_texts (l : list outNode) : string :=
  foldr (fun x acc => out_text x +:+ acc) "" l.

(** The node is one that holds its text in its children. *)
Definition holds_children (t : outNode) : Prop :=
  o_type t <> XML_TEXT_NODE /\ o_type t <> XML_CDATA_SECTION_NODE.

(** The next allocation succeeds. *)
Definition can_alloc (st : state) : Prop :=
  head (allocs (mem st)) <> Some false.

(** The state in which xsl:value-of goes on after it has read
    disable-output-escaping: the value yes is reported as an
    unimplemented block. *)
Definition escaping_logged (inst : xmlNode) (st : state) : state :=
  match xmlGetNsProp inst "disable-output-escaping" XSLT_NAMESPACE with
  | Some p =>
      if String.eqb p "yes"
      then set_mem (fun m =>
                      with_errors (errors m ++ ["Unimplemented block"]) m) st
      else st
  | None => st
  end.


(** The contents of a list of source nodes, one after the other *)
Definition source_text (h : gmap nat srcNode) (cs : list nat) : string :=
  foldr (fun c acc =>
           match h !! c with Some n => s_content n | None => "" end +:+ acc)
        "" cs.

(** A child that the default rule copies: a CDATA section, or a text node
    that is not blank or that no strip/preserve map can designate *)
Definition copied_as_text (strip : option (gmap string string))
           (n : srcNode) : Prop :=
  s_type n = XML_CDATA_SECTION_NODE \/
  (s_type n = XML_TEXT_NODE /\ (IS_BLANK_NODE n = false \/ strip = None)).

(** No allocation failure is scheduled. *)
Definition allocs_succeed (st : state) : Prop :=
  Forall (fun b => b = true) (allocs (mem st)).




(** What xsl:comment and xsl:processing-instruction do with the node
    [c] they build: from [s1], where the body has been evaluated, the
    allocation of [c] is tried; if it succeeds [c] becomes the last child
    of the node at the insertion point [ip], after the children this node
    has in [s1], and if it fails the result tree stays as it is. *)
Definition appended (ip : outPtr) (c : outNode) (s1 st' : state) : Prop :=
  exists ok s2,
    alloc s1 = Done ok s2 /\
    if ok : bool
    then exists target1,
           forest_at (out (mem s1)) ip = Some target1 /\
           forest_at (out (mem st')) ip
             = Some (with_children target1 (o_children target1 ++ [c]))
    else out (mem st') = out (mem s1).

(** A node of a template body that holds no XSLT element: text and the
    other leaves, and the literal result elements made of such nodes. *)
Fixpoint literal (n : xmlNode) : bool :=
  match n with
  | Element _ _ _ _ cs => negb (IS_XSLT_ELEM n) && forallb literal cs
  | Leaf _ _ _ => true
  end.

(** The number of nodes of a tree of the stylesheet, and of a list of
    trees: the walk of a template body visits each of them once. *)
Fixpoint node_count (n : xmlNode) : nat :=
  match n with
  | Element _ _ _ _ cs => S (list_sum (map node_count cs))
  | Leaf _ _ _ => 1%nat
  end.

(** The number of nodes of a list of trees *)
Definition nodes_count (l : list xmlNode) : nat :=
  list_sum (map node_count l).

(** [emits body cs cs']: the children [cs] of the insertion node become
    [cs'] when the literal nodes [body] are instantiated under it.  A text
    node is added as xmlAddChild adds it; a literal result element adds
    an element of the same name, whose children are what its own content
    gives; the other leaves add nothing. *)
Inductive emits : list xmlNode -> list outNode -> list outNode -> Prop :=
| emits_nil cs : emits [] cs cs
| emits_text nm c rest cs cs' :
    emits rest (fst (add_child cs (new_node XML_TEXT_NODE nm c))) cs' ->
    emits (Leaf LText nm c :: rest) cs cs'
| emits_skip k nm c rest cs cs' :
    k <> LText -> emits rest cs cs' -> emits (Leaf k nm c :: rest) cs cs'
| emits_element nm ns d ps kids rest cs e cs' :
    o_type e = XML_ELEMENT_NODE -> o_name e = nm -> o_content e = "" ->
    emits kids [] (o_children e) ->
    emits rest (cs ++ [e]) cs' ->
    emits (Element nm ns d ps kids :: rest) cs cs'.

(** The walk record at the node of path [q] (innermost index first) under
    [top], the insertion point being [ins] *)
Definition walk_at (top : xmlNode) (q : list nat) (ins : outPtr)
           (copy : option outPtr) : walk :=
  {| w_cur := {| c_top := top; c_path := q |}; w_insert := Some ins;
     w_copy := copy; w_has_variables := false |}.

(** What the loop of xsltApplyOneTemplate does with the outcome of an
    iteration, [f] being the fuel left *)
Definition finish (X : externals) (nd : option ptr) (old : option outPtr)
           (f : nat) (r : walk_result) : M unit :=
  match r with
  | WalkReturn => ret tt
  | WalkDone has_variables =>
      if has_variables then xsltPopStack else ret tt
  | WalkNext w' => exec X f (TemplateLoop nd old w')
  end.

(** The state is the same but for the result forest and the allocations
    that were made. *)
Definition same_but_out (st st1 : state) : Prop :=
  allocs_succeed st1 /\ ctxt st1 = ctxt st /\
  src (mem st1) = src (mem st) /\ errors (mem st1) = errors (mem st).

(** The context but for the current node and the XPath context, which
    an iteration assigns *)
Definition same_frame (c c' : xsltTransformContext) : Prop :=
  insert c' = insert c /\ nodeList c' = nodeList c /\
  variables c' = variables c /\ style c' = style c /\
  doc c' = doc c /\ output c' = output c /\ type c' = type c.

(** The type of the document node of the result *)
Definition result_type (s : xsltStylesheet) : xmlElementType :=
  if bool_decide (method s = Some "html")
  then XML_HTML_DOCUMENT_NODE else XML_DOCUMENT_NODE.

(** The document that xsltApplyStylesheet creates for the result *)
Definition result_document (s : xsltStylesheet) : xmlDoc :=
  if bool_decide (method s = Some "html")
  then htmlNewDoc (doctypePublic s) (doctypeSystem s)
  else xmlNewDoc (version s).

(** No DOCTYPE is attached once the document node is processed: the
    guard of the attachment is false. *)
Definition no_doctype_attached (X : externals) (s : xsltStylesheet) : Prop :=
  enum_value X XSLT_OUTPUT_XML = 0 \/
  (doctypePublic s = None /\ doctypeSystem s = None).

(** The output methods that xsltApplyStylesheet knows *)
Definition supported (s : xsltStylesheet) : Prop :=
  method s = None \/ method s = Some "xml" \/ method s = Some "html" \/
  method s = Some "text".

(** xsltApplyStylesheet_run in two parts: the creation of the result
    document according to the output method, and what is done with the
    document created *)
Definition open_document (s : xsltStylesheet) : M (option nat) :=
  match
    match method s with
    | Some m => if String.eqb m "xml" then None else Some m
    | None => None
    end
  with
  | Some m =>
      if String.eqb m "html" then
        modify_ctxt (with_type XSLT_OUTPUT_HTML);;
        new_document (htmlNewDoc (doctypePublic s) (doctypeSystem s))
      else if String.eqb m "text" then
        modify_ctxt (with_type XSLT_OUTPUT_TEXT);;
        new_document (xmlNewDoc (version s))
      else
        xsltGenericError "xsltApplyStylesheet: insupported method";;
        ret None
  | None =>
      modify_ctxt (with_type XSLT_OUTPUT_XML);;
      new_document (xmlNewDoc (version s))
  end.

(** The part after the creation of the document: [res] is the document
    created, NULL when there is none. *)
Definition fill_document (X : externals) (fuel : nat) (s : xsltStylesheet)
           (d : ptr) (res : option nat) : M (option nat) :=
  match res with
  | None => ret None
  | Some k =>
      do st <- get;
      do rd <- deref (outdoc (mem st));
      modify_mem (with_outdoc (Some (with_encoding rd true (encoding s))));;
      modify_ctxt (fun c =>
        with_node (Some d)
          (with_insert (Some {| p_root := k; p_path := [] |})
             (with_output (Some k) c)));;
      exec X fuel (ProcessOneNode d);;
      attach_doctype X s k;;
      ret (Some k)
  end.

(** The nodes whose children the built-in rule walks *)
Definition element_like (ty : xmlElementType) : bool :=
  match ty with
  | XML_ELEMENT_NODE | XML_DOCUMENT_NODE | XML_HTML_DOCUMENT_NODE => true
  | _ => false
  end.

(** [copied_as_text] as a test *)
Definition copied_child (strip : option (gmap string string))
           (n : srcNode) : bool :=
  match s_type n with
  | XML_CDATA_SECTION_NODE => true
  | XML_TEXT_NODE => negb (IS_BLANK_NODE n) || negb (is_set strip)
  | _ => false
  end.

(** Two texts put one after the other, and the sum of their counts *)
Definition join_text (a b : option (string * nat)) : option (string * nat) :=
  match a, b with
  | Some (s, m), Some (s', m') => Some (s +:+ s', (m + m')%nat)
  | _, _ => None
  end.

(** The text below the element or document [p], in document order, and
    the number of nodes that hold it, found by a walk of depth at most
    [depth].  There is none when a node is missing, when a node occurs
    twice among the children of its parent, and when a child is of a
    kind that the built-in rule removes (a blank text node that may be
    stripped, a comment, a processing instruction, ...). *)
Fixpoint builtin_text (h : gmap nat srcNode)
         (strip : option (gmap string string)) (depth : nat) (p : ptr)
  : option (string * nat) :=
  match depth with
  | O => None
  | S k =>
      match h !! p with
      | Some n =>
          if element_like (s_type n) && bool_decide (NoDup (s_children n))
          then
            foldr
              (fun c acc =>
                 join_text
                   match h !! c with
                   | Some cn =>
                       if element_like (s_type cn)
                       then builtin_text h strip k c
                       else if copied_child strip cn
                            then Some (s_content cn, 1%nat)
                            else None
                   | None => None
                   end acc)
              (Some ("", 1%nat)) (s_children n)
          else None
      | None => None
      end
  end.

(** The text of the child [c]: the text below it when it is an element,
    its content when it is a text node or a CDATA section that is
    copied *)
Definition child_text (h : gmap nat srcNode)
           (strip : option (gmap string string)) (k : nat) (c : ptr)
  : option (string * nat) :=
  match h !! c with
  | Some cn =>
      if element_like (s_type cn)
      then builtin_text h strip k c
      else if copied_child strip cn
           then Some (s_content cn, 1%nat)
           else None
  | None => None
  end.

(** The text of the children [cs], one after the other; the count
    includes the parent. *)
Definition children_text (h : gmap nat srcNode)
           (strip : option (gmap string string)) (k : nat) (cs : list nat)
  : option (string * nat) :=
  foldr (fun c acc => join_text (child_text h strip k c) acc)
    (Some ("", 1%nat)) cs.

(** [m], run on the source [h] in the context [c0] under the insertion
    point [ip], returns having appended [s] to the text at the insertion
    point and changed nothing else but the allocations made. *)
Definition copies (h : gmap nat srcNode) (c0 : xsltTransformContext)
           (ip : outPtr) (m : M unit) (s : string) : Prop :=
  forall st target,
    ctxt st = c0 -> src (mem st) = h -> allocs_succeed st ->
    forest_at (out (mem st)) ip = Some target -> holds_children target ->
    exists st' target',
      m st = Done tt st' /\
      ctxt st' = c0 /\ src (mem st') = h /\ allocs_succeed st' /\
      errors (mem st') = errors (mem st) /\
      forest_update (out (mem st)) ip (fun _ => Some target')
        = Some (out (mem st')) /\
      forest_at (out (mem st')) ip = Some target' /\
      o_type target' = o_type target /\ o_name target' = o_name target /\
      out_text target' = out_text target +:+ s.

(** Sample instructions, nodes and states *)
Module Cases.

(** <xsl:value-of select="'text'"/> *)
Definition value_of_text : xmlNode :=
  Demo.instr "value-of" [Demo.attr "select" "'text'"] [].

(** <xsl:value-of disable-output-escaping="yes" select="'text'"/> *)
Definition value_of_raw : xmlNode :=
  Demo.instr "value-of"
    [Demo.attr "disable-output-escaping" "yes"; Demo.attr "select" "'text'"]
    [].

(** [Demo.filled] once the unimplemented block is reported and the
    XPath evaluation is set up on the document node *)
Definition raw_ready : state :=
  Demo.final (xpath_setup 0%nat (escaping_logged value_of_raw Demo.filled))
             Demo.filled.

(** The state [Demo.filled] once the XPath evaluation is set up on the
    document node *)
Definition filled_ready : state :=
  Demo.final (xpath_setup 0%nat Demo.filled) Demo.filled.

(** The element <out>x</out> that [Demo.filled] has at its insertion
    point *)
Definition out_x : outNode :=
  with_children (new_node XML_ELEMENT_NODE "out" "")
    [new_node XML_TEXT_NODE "text" "x"].

(** The position of the element out: the first child of tree 0 *)
Definition at_out : outPtr := {| p_root := 0%nat; p_path := [0%nat] |}.




(** <xsl:for-each select="unknown()"/>: the engine gives no result for
    the expression. *)
Definition for_each_unknown : xmlNode :=
  Demo.instr "for-each" [Demo.attr "select" "unknown()"] [].

(** [Demo.hello] at the start, once the XPath evaluation is set up on
    the document node *)
Definition ready : state :=
  Demo.final (xpath_setup 0%nat (Demo.start Demo.plain Demo.hello None))
             (Demo.start Demo.plain Demo.hello None).


(** A stylesheet with the named template t, and a call of it with a
    parameter *)
Definition named : xsltStylesheet :=
  Demo.stylesheet [Demo.named_template "t" [Demo.lit "b" []]] None.

(** The call of t with the parameter p:
    <xsl:call-template name="t"><xsl:with-param name="p"/>... *)
Definition call_t : xmlNode :=
  Demo.instr "call-template" [Demo.attr "name" "t"]
    [Demo.instr "with-param" [Demo.attr "name" "p"] []].

(** <xsl:comment>note</xsl:comment> *)
Definition comment_note : xmlNode :=
  Demo.instr "comment" [] [Demo.text "note"].

(** The template <xsl:template match="/"><a>x</a>y</xsl:template> *)
Definition a_x_y : xmlNode :=
  Demo.instr "template" [Demo.attr "match" "/"]
    [Demo.lit "a" [Demo.text "x"]; Demo.text "y"].

(** <xsl:if test="true()"><b>x</b></xsl:if> *)
Definition if_true : xmlNode :=
  Demo.instr "if" [Demo.attr "test" "true()"]
    [Demo.lit "b" [Demo.text "x"]].

(** The state in which the XPath evaluation is set up on node [n] of the
    document <r><a/><b/><c/></r> *)
Definition items_ready (n : ptr) : state :=
  Demo.final (xpath_setup n (Demo.start Demo.plain Demo.items None))
    (Demo.start Demo.plain Demo.items None).

(** The stylesheet of the single template
    <xsl:template match="/"><a>x</a>y</xsl:template> *)
Definition a_x_y_sheet : xsltStylesheet :=
  Demo.stylesheet
    [Demo.template "/" [Demo.lit "a" [Demo.text "x"]; Demo.text "y"]] None.

(** The document <r>a<b>c</b>d</r>: 0 is the document, 1 is r, 3 is b,
    2, 4 and 5 are the text nodes. *)
Definition nested : gmap nat srcNode :=
  <[0%nat := Demo.snode XML_DOCUMENT_NODE "" "" None [1%nat]]>
  (<[1%nat := Demo.snode XML_ELEMENT_NODE "r" "" (Some 0%nat)
                [2%nat; 3%nat; 5%nat]]>
  (<[2%nat := Demo.snode XML_TEXT_NODE "text" "a" (Some 1%nat) []]>
  (<[3%nat := Demo.snode XML_ELEMENT_NODE "b" "" (Some 1%nat) [4%nat]]>
  (<[4%nat := Demo.snode XML_TEXT_NODE "text" "c" (Some 3%nat) []]>
  (<[5%nat := Demo.snode XML_TEXT_NODE "text" "d" (Some 1%nat) []]> ∅))))).

End Cases.

(** * Proofs *)

Lemma wp_ret {A} (a : A) (Q : A -> state -> Prop) st : Q a st -> wp (ret a) Q st.
Proof. exact (fun H => H). Qed.

Lemma wp_bind {A B} (m : M A) (k : A -> M B) (Q : B -> state -> Prop) st :
  wp m (fun a s => wp (k a) Q s) st -> wp (bind m k) Q st.
Proof. unfold wp, bind. destruct (m st); auto. Qed.

Lemma wp_get (Q : state -> state -> Prop) st : Q st st -> wp get Q st.
Proof. exact (fun H => H). Qed.

Lemma wp_modify f (Q : unit -> state -> Prop) st : Q tt (f st) -> wp (modify f) Q st.
Proof. exact (fun H => H). Qed.

Lemma wp_alloc (Q : bool -> state -> Prop) st :
  (forall b l, Q b (set_mem (with_allocs l) st)) -> Q true st -> wp alloc Q st.
Proof.
  intros H1 H2. unfold wp, alloc. destruct (allocs (mem st)); auto.
Qed.

Lemma wp_mono {A} (m : M A) (Q Q' : A -> state -> Prop) st :
  wp m Q st -> (forall a s, Q a s -> Q' a s) -> wp m Q' st.
Proof. unfold wp. destruct (m st); auto. Qed.

Lemma wp_done {A} (m : M A) (Q : A -> state -> Prop) st a s :
  wp m Q st -> m st = Done a s -> Q a s.
Proof. unfold wp. intros H E. now rewrite E in H. Qed.

Lemma wp_intro {A} (m : M A) (Q : A -> state -> Prop) st :
  (forall a s, m st = Done a s -> Q a s) -> wp m Q st.
Proof. unfold wp. destruct (m st); auto. Qed.

Lemma bind_done {A B} (m : M A) (k : A -> M B) st b s :
  bind m k st = Done b s ->
  exists a s1, m st = Done a s1 /\ k a s1 = Done b s.
Proof. unfold bind. destruct (m st); try discriminate. eauto. Qed.

Lemma src_shrink_refl h : src_shrink h h.
Proof.
  intros p. destruct (h !! p) eqn:E.
  - exists s. repeat split; auto.
  - intros n Hn. discriminate.
Qed.

Lemma removable_same n n' :
  s_type n' = s_type n -> s_content n' = s_content n ->
  removable n' -> removable n.
Proof.
  unfold removable, IS_BLANK_NODE. intros -> ->. auto.
Qed.

Lemma src_shrink_trans h1 h2 h3 :
  src_shrink h1 h2 -> src_shrink h2 h3 -> src_shrink h1 h3.
Proof.
  intros H12 H23 p. specialize (H12 p). specialize (H23 p).
  destruct (h3 !! p) as [n3|].
  - destruct H23 as (n2 & E2 & ? & ? & ? & ? & ?). rewrite E2 in H12.
    destruct H12 as (n1 & E1 & ? & ? & ? & ? & ?).
    exists n1. repeat split; try congruence. etransitivity; eauto.
  - intros n1 E1. destruct (h2 !! p) as [n2|] eqn:E2.
    + destruct H12 as (n1' & E1' & ? & ? & ? & ? & ?).
      assert (n1' = n1) by congruence. subst n1'.
      eapply removable_same; [ | | apply (H23 n2 eq_refl)]; auto.
    + eauto.
Qed.

Lemma unlink_and_free_shrink p h :
  (forall n, h !! p = Some n -> removable n) ->
  src_shrink h (unlink_and_free p h).
Proof.
  intros Hrem. unfold unlink_and_free.
  destruct (h !! p) as [n|] eqn:Ep; [|apply src_shrink_refl].
  intros x. destruct (decide (x = p)) as [->|Hne].
  - rewrite lookup_delete_eq. intros n' En'. apply Hrem. congruence.
  - rewrite lookup_delete_ne by congruence.
    destruct (s_parent n) as [q|]; [destruct (h !! q) as [pn|] eqn:Eq|].
    + destruct (decide (x = q)) as [->|Hq].
      * rewrite lookup_insert_eq. exists pn. repeat split; auto.
        apply sublist_filter.
      * rewrite lookup_insert_ne by congruence.
        pose proof (src_shrink_refl h x) as R. exact R.
    + pose proof (src_shrink_refl h x) as R. exact R.
    + pose proof (src_shrink_refl h x) as R. exact R.
Qed.

Ltac use_eqs :=
  repeat match goal with
         | E : ?a = Some _ |- context [?a] => rewrite E
         | E : ?a = None |- context [?a] => rewrite E
         end.

Ltac solve_rel :=
  unfold spec in *;
  unfold rel, when, keep_all, keep_iter, keep_walk, keep_scope in *;
  simpl in *;
  repeat match goal with
         | H : _ /\ _ |- _ => destruct H
         end;
  simplify_eq; repeat split; try exact I; use_eqs; simpl; try congruence;
  eauto 8 using src_shrink_refl, src_shrink_trans.

Lemma rel_refl m st : rel m st st.
Proof. destruct m as [[] [] [] [] []]; solve_rel. Qed.

Lemma rel_trans m a b c : rel m a b -> rel m b c -> rel m a c.
Proof. destruct m as [[] [] [] [] []]; intros; solve_rel. Qed.

Lemma rel_weaken m a b : rel keep_all a b -> rel m a b.
Proof. destruct m as [[] [] [] [] []]; intros; solve_rel. Qed.

Create HintDb wpdb.

Ltac wp_prim0 :=
  lazymatch goal with
  | |- wp (bind _ _) _ _ => apply wp_bind
  | |- wp (ret _) _ _ => apply wp_ret
  | |- wp get _ _ => apply wp_get
  | |- wp (modify _) _ _ => apply wp_modify
  | |- wp (modify_ctxt _) _ _ => apply wp_modify
  | |- wp (modify_mem _) _ _ => apply wp_modify
  | |- wp (xsltGenericError _) _ _ => apply wp_modify
  | |- wp TODO _ _ => apply wp_modify
  | |- wp uninitialised _ _ => exact I
  | |- wp xsltPushStack _ _ => apply wp_modify
  | |- wp xsltPopStack _ _ => apply wp_modify
  | |- wp (xmlFreeSourceNode _) _ _ => apply wp_modify
  | |- wp fault _ _ => exact I
  | |- wp (deref ?o) _ _ =>
      let E := fresh "E" in destruct o eqn:E; [apply wp_ret | exact I]
  | |- wp alloc _ _ => apply wp_alloc; [intros ? ? | ]
  | |- wp (if ?b then _ else _) _ _ =>
      let E := fresh "E" in destruct b eqn:E
  | |- wp (match ?x with _ => _ end) _ _ =>
      let E := fresh "E" in destruct x eqn:E
  end; cbv beta zeta in *.

Ltac wp_prim :=
  first [ wp_prim0
        | lazymatch goal with
          | |- wp _ _ _ =>
              eapply wp_mono; [solve [eauto with wpdb] | intros ? ? ?]
          end; cbv beta in * ].

Ltac wp_run := repeat wp_prim.

Lemma tail_declare e vs : tail (declare e vs) = tail vs.
Proof. destruct vs; reflexivity. Qed.

Lemma unlink_shrink p h n :
  h !! p = Some n -> removable n -> src_shrink h (unlink_and_free p h).
Proof.
  intros E R. apply unlink_and_free_shrink. intros n' E'. congruence.
Qed.

Ltac solve_removable :=
  match goal with
  | |- removable ?n =>
      first [ left; unfold IS_BLANK_NODE in *; use_eqs; assumption
            | left; assumption
            | right; use_eqs; repeat split; congruence ]
  end.

Section Soundness.

Variable X : externals.

Lemma xpath_setup_rel nd st :
  wp (xpath_setup nd) (fun _ st' => rel keep_all st st') st.
Proof. unfold xpath_setup. wp_run; solve_rel. Qed.

Hint Resolve xpath_setup_rel : wpdb.

Lemma xsltSort_keys_rel prop number tab : forall i st,
  wp (xsltSort_keys X prop number tab i)
     (fun _ st' => rel keep_iter st st') st.
Proof.
  induction tab as [|n rest IH]; intros i st; simpl.
  - wp_run. solve_rel.
  - wp_run. solve_rel.
Qed.

Hint Resolve xsltSort_keys_rel : wpdb.

Lemma xsltSort_rel nd inst st :
  wp (xsltSort X nd inst) (fun _ st' => rel keep_iter st st') st.
Proof. unfold xsltSort. wp_run; solve_rel. Qed.

Hint Resolve xsltSort_rel : wpdb.

Lemma skip_sorts_rel nd cs : forall k st,
  wp (skip_sorts X nd cs k) (fun _ st' => rel keep_iter st st') st.
Proof.
  induction cs as [|c rest IH]; intros k st; simpl.
  - wp_run. solve_rel.
  - wp_run; solve_rel.
Qed.

Hint Resolve skip_sorts_rel : wpdb.

Lemma node_loop_rel (body : ptr -> M unit) tab :
  (forall p st, wp (body p) (fun _ st' => rel keep_all st st') st) ->
  forall i st, wp (node_loop body tab i) (fun _ st' => rel keep_iter st st') st.
Proof.
  intros Hbody. induction tab as [|p rest IH]; intros i st; simpl.
  - wp_run. solve_rel.
  - unfold enter_iteration. wp_run. solve_rel.
Qed.

Lemma iterate_selected_rel nd inst list (body : nat -> ptr -> M unit) st :
  (forall k p st, wp (body k p) (fun _ st' => rel keep_all st st') st) ->
  wp (iterate_selected X nd inst list body)
     (fun _ st' => rel keep_all st st') st.
Proof.
  intros Hbody. unfold iterate_selected, open_selected, enter_list, leave_list.
  wp_run.
  eapply wp_mono; [apply node_loop_rel; apply Hbody|]. intros [] s3 H3.
  wp_run. solve_rel.
Qed.

Lemma xmlAddChild_rel parent cur st :
  wp (xmlAddChild parent cur)
     (fun r st' =>
        rel keep_all st st' /\
        forall p, parent = Some p ->
          exists c, r = Some c /\
                    length (p_path c) = S (length (p_path p))) st.
Proof.
  unfold xmlAddChild. wp_run; (split; [solve_rel|]); intros; simplify_eq.
  all: eexists; split; [reflexivity|]; simpl; rewrite length_app; simpl; lia.
Qed.

Hint Resolve xmlAddChild_rel : wpdb.

Lemma xmlSetNsProp_rel p ns nm v st :
  wp (xmlSetNsProp p ns nm v) (fun _ st' => rel keep_all st st') st.
Proof. unfold xmlSetNsProp. wp_run; solve_rel. Qed.

Hint Resolve xmlSetNsProp_rel : wpdb.

Lemma xmlSetProperties_rel p ps st :
  wp (xmlSetProperties p ps) (fun _ st' => rel keep_all st st') st.
Proof. unfold xmlSetProperties. wp_run; solve_rel. Qed.

Hint Resolve xmlSetProperties_rel : wpdb.

Lemma copy_source_text_rel n st :
  wp (copy_source_text n) (fun _ st' => rel keep_all st st') st.
Proof. unfold copy_source_text. wp_run; solve_rel. Qed.

Hint Resolve copy_source_text_rel : wpdb.

Lemma xsltCopyNode_rel nd ins st :
  wp (xsltCopyNode nd ins)
     (fun c st' => rel keep_all st st' /\
                   length (p_path c) = S (length (p_path ins))) st.
Proof.
  unfold xsltCopyNode. wp_run; (split; [solve_rel|]).
  all: match goal with
       | H : _ /\ (forall p, Some ?i = Some p -> _) |- _ =>
           destruct H as [_ H]; destruct (H i eq_refl) as (c & ? & ?)
       end; simplify_eq; assumption.
Qed.

Hint Resolve xsltCopyNode_rel : wpdb.

Lemma xsltValueOf_rel nd inst st :
  wp (xsltValueOf X nd inst) (fun _ st' => rel keep_all st st') st.
Proof. unfold xsltValueOf. wp_run; solve_rel. Qed.

Hint Resolve xsltValueOf_rel : wpdb.

(** *** The saving and the restoration around an iteration *)
Lemma wp_true {A} (m : M A) st : wp m (fun _ _ => True) st.
Proof. unfold wp. destruct (m st); exact I. Qed.

Lemma restored_refl st : restored st st.
Proof. split; [reflexivity|]. intros xc E. eauto. Qed.

Lemma restored_trans a b c : restored a b -> restored b c -> restored a c.
Proof.
  intros [L1 X1] [L2 X2]. split; [congruence|].
  intros xc E. destruct (X1 xc E) as (xc1 & E1 & ? & ?).
  destruct (X2 xc1 E1) as (xc2 & E2 & ? & ?).
  exists xc2. repeat split; congruence.
Qed.

Lemma pres_ret {A} (a : A) : pres (ret a).
Proof. intros st. apply wp_ret, restored_refl. Qed.

Lemma pres_bind {A B} (m : M A) (k : A -> M B) :
  pres m -> (forall a, pres (k a)) -> pres (bind m k).
Proof.
  intros Hm Hk st. apply wp_bind. eapply wp_mono; [apply Hm|].
  intros a s R. eapply wp_mono; [apply Hk|].
  intros b s' R'. exact (restored_trans _ _ _ R R').
Qed.

Lemma pres_get : pres get.
Proof. intros st. apply wp_get, restored_refl. Qed.

Lemma pres_deref {A} (o : option A) : pres (deref o).
Proof. intros st. destruct o; [apply wp_ret, restored_refl|exact I]. Qed.

Lemma restored_ctxt st st' : ctxt st' = ctxt st -> restored st st'.
Proof.
  intros E. unfold restored. rewrite E. split; [reflexivity|]. eauto.
Qed.

Lemma pres_mem f : pres (modify_mem f).
Proof. intros st. apply wp_modify, restored_ctxt. reflexivity. Qed.

Lemma pres_alloc : pres alloc.
Proof.
  intros st. apply wp_alloc; intros; apply restored_ctxt; reflexivity.
Qed.

Ltac pres_step :=
  lazymatch goal with
  | |- pres (bind _ _) => apply pres_bind; [|intros]
  | |- pres (ret _) => apply pres_ret
  | |- pres get => apply pres_get
  | |- pres (deref _) => apply pres_deref
  | |- pres alloc => apply pres_alloc
  | |- pres (xsltGenericError _) => apply pres_mem
  | |- pres (modify_mem _) => apply pres_mem
  | |- pres (xmlFreeSourceNode _) => apply pres_mem
  | |- pres (if ?b then _ else _) => destruct b
  | |- pres (match ?x with _ => _ end) => destruct x
  end.

Lemma xpath_setup_pres nd : pres (xpath_setup nd).
Proof.
  intros st. unfold xpath_setup. wp_run.
  all: split; [reflexivity|]; simpl in *; intros xc Exc; simplify_eq;
    eexists; repeat split; eauto.
Qed.

Lemma xsltApplyTemplates_children_pres cs : forall acc,
  pres (xsltApplyTemplates_children cs acc).
Proof.
  induction cs as [|c rest IH]; intros acc; simpl.
  - apply pres_ret.
  - repeat pres_step; apply IH.
Qed.

Lemma leave_list_spec l cs pp st :
  wp (leave_list (l, cs, pp))
     (fun _ st' =>
        nodeList (ctxt st') = l /\
        exists xc', xpathCtxt (ctxt st') = Some xc' /\
                    contextSize xc' = cs /\ proximityPosition xc' = pp) st.
Proof. unfold leave_list. wp_run. simpl. eauto. Qed.

Lemma open_selected_saved nd inst tab st :
  wp (open_selected X nd inst tab)
     (fun r _ =>
        exists xc, xpathCtxt (ctxt st) = Some xc /\
          fst (fst r) =
            (nodeList (ctxt st), contextSize xc, proximityPosition xc)) st.
Proof.
  unfold open_selected, enter_list. wp_run. simpl. eauto.
Qed.

Lemma iterate_selected_pres nd inst list (body : nat -> ptr -> M unit) :
  pres (iterate_selected X nd inst list body).
Proof.
  intros st. unfold iterate_selected. apply wp_bind.
  destruct list as [tab|]; [apply wp_ret|exact I].
  apply wp_bind. eapply wp_mono; [apply open_selected_saved|].
  intros [[saved k] sorted] s1 (xc & Exc & Hs). simpl in *. subst saved.
  apply wp_bind. eapply wp_mono; [apply wp_true|]. intros _ s2 _.
  eapply wp_mono; [apply leave_list_spec|].
  intros ? s3 (Hl & xc' & E' & Hc & Hp).
  split; [exact Hl|]. intros xc0 E0. exists xc'. simplify_eq. auto.
Qed.

Lemma xsltApplyTemplates_pres rec nd inst :
  pres (xsltApplyTemplates X rec nd inst).
Proof.
  unfold xsltApplyTemplates.
  repeat first [ pres_step
               | apply xpath_setup_pres
               | apply xsltApplyTemplates_children_pres
               | apply iterate_selected_pres ].
Qed.

Lemma xsltForEach_pres rec nd inst : pres (xsltForEach X rec nd inst).
Proof.
  unfold xsltForEach.
  repeat first [ pres_step
               | apply xpath_setup_pres
               | apply iterate_selected_pres ].
Qed.

(** *** The list and the context size across xsl:sort *)
Lemma sort_insert_length d nb x l :
  length (sort_insert d nb x l) = S (length l).
Proof.
  induction l as [|y l IH]; simpl; [reflexivity|].
  destruct (key_before d nb (snd x) (snd y)); simpl; congruence.
Qed.

Lemma xsltSortFunction_length tab results d nb :
  length results = length tab ->
  length (xsltSortFunction tab results d nb) = length tab.
Proof.
  intros H. unfold xsltSortFunction. rewrite length_map.
  assert (G : forall l : list (nat * option xmlXPathObject),
             length (foldr (sort_insert d nb) [] l) = length l).
  { induction l as [|a l IH]; simpl; [reflexivity|].
    rewrite sort_insert_length. congruence. }
  rewrite G, length_combine. lia.
Qed.

Lemma written_length {A} (slots : list (option A)) : forall l,
  written slots = Some l -> length l = length slots.
Proof.
  induction slots as [|[a|] rest IH]; simpl; intros l H.
  - injection H as <-. reflexivity.
  - destruct (written rest) as [l'|]; [|discriminate].
    injection H as <-. simpl. f_equal. apply IH. reflexivity.
  - discriminate.
Qed.

Lemma sort_insert_perm d nb x l : sort_insert d nb x l ≡ₚ x :: l.
Proof.
  induction l as [|y l IH]; simpl; [reflexivity|].
  destruct (key_before d nb (snd x) (snd y)); [reflexivity|].
  rewrite IH. apply Permutation_swap.
Qed.

Lemma xsltSortFunction_perm tab results d nb :
  length results = length tab ->
  xsltSortFunction tab results d nb ≡ₚ tab.
Proof.
  intros H. unfold xsltSortFunction.
  assert (G : forall l : list (nat * option xmlXPathObject),
             foldr (sort_insert d nb) [] l ≡ₚ l).
  { induction l as [|a l IH]; simpl; [reflexivity|].
    rewrite sort_insert_perm, IH. reflexivity. }
  rewrite G. clear G. revert results H.
  induction tab as [|a tab IH]; intros [|r results] H; simpl in *;
    try discriminate; [reflexivity|].
  rewrite IH by congruence. reflexivity.
Qed.

Ltac solve_kept :=
  unfold kept in *; simpl in *;
  repeat match goal with H : _ /\ _ |- _ => destruct H end;
  repeat split; congruence.

Lemma kept_refl st : kept st st.
Proof. solve_kept. Qed.

Lemma xsltSort_keys_listed prop number tab N l : forall i st,
  listed N l st ->
  wp (xsltSort_keys X prop number tab i)
     (fun ks st' => length ks = length tab /\ listed N l st' /\
                    mem st' = mem st /\ kept st st') st.
Proof.
  induction tab as [|n rest IH]; intros i st HL; simpl.
  - apply wp_ret. auto using kept_refl.
  - destruct HL as (Hl & xc & Exc & Hc).
    repeat wp_prim0.
    eapply wp_mono; [apply IH|].
    + split; [exact Hl|]. simpl in *. simplify_eq.
      eexists. split; [reflexivity|exact Hc].
    + intros ks s9 (Hk & HL' & Hm & Hkept). apply wp_ret. simpl.
      split; [congruence|]. split; [exact HL'|]. split; [exact Hm|].
      solve_kept.
Qed.

Lemma xsltSort_arranged nd inst l0 st0 st :
  arranged l0 st0 st ->
  wp (xsltSort X nd inst) (fun _ st' => arranged l0 st0 st') st.
Proof.
  intros ((l & HL & Hp) & Hkept). unfold xsltSort.
  assert (Hlen : length l = length l0) by (rewrite Hp; reflexivity).
  repeat wp_prim0;
    try (split; [exists l; split; [exact HL|exact Hp]|solve_kept]).
  all: try (split; [exists l; split; [|exact Hp];
                    destruct HL as (? & ? & ? & ?); split; simpl; eauto
                   |solve_kept]).
  all: destruct HL as (Hl & xc & Exc & Hc); simplify_eq.
  all: (eapply wp_mono;
        [apply (xsltSort_keys_listed _ _ _ (length l0) l);
         split; simpl; eauto|]).
  all: intros ks s9 (Hk & (Hl' & xc' & Exc' & Hc') & Hm & Hkept');
    apply wp_bind.
  all: destruct (written ks) as [res|] eqn:Ew; [apply wp_ret|exact I].
  all: apply wp_modify.
  all: split;
        [eexists; split;
           [split; [reflexivity|]; simpl; eauto
           |rewrite xsltSortFunction_perm;
              [exact Hp|rewrite (written_length _ _ Ew); exact Hk]]
        |solve_kept].
Qed.

Lemma skip_sorts_arranged nd cs l0 st0 : forall k st,
  arranged l0 st0 st ->
  wp (skip_sorts X nd cs k) (fun _ st' => arranged l0 st0 st') st.
Proof.
  induction cs as [|c rest IH]; intros k st HC; simpl.
  - apply wp_ret. exact HC.
  - destruct (IS_XSLT_ELEM c && IS_XSLT_NAME c "sort");
      [|apply wp_ret; exact HC].
    apply wp_bind. eapply wp_mono; [apply xsltSort_arranged; exact HC|].
    intros ? s9 HC'. apply IH. exact HC'.
Qed.

Lemma open_selected_arranged nd inst tab st :
  wp (open_selected X nd inst tab)
     (fun r st0 => snd r ≡ₚ tab /\ listed (length tab) (snd r) st0 /\
                   kept st st0) st.
Proof.
  unfold open_selected, enter_list. repeat wp_prim0.
  eapply wp_mono; [apply (skip_sorts_arranged _ _ tab st)|].
  - split; [|solve_kept].
    exists tab. split; [|reflexivity]. split; simpl; eauto.
  - intros k s9 ((l & HL & Hp) & Hkept). repeat wp_prim0. simpl.
    destruct HL as (Hl & Hx). simplify_eq. split; [exact Hp|].
    split; [split; assumption|exact Hkept].
Qed.

Variable rec : call -> M unit.

Hypothesis Hrec : sound rec.

Lemma rec_apply nd l st :
  wp (rec (ApplyOneTemplate nd l)) (fun _ st' => rel keep_all st st') st.
Proof. apply (Hrec (ApplyOneTemplate nd l)). Qed.

Lemma rec_process nd st :
  wp (rec (ProcessOneNode nd)) (fun _ st' => rel keep_all st st') st.
Proof. apply (Hrec (ProcessOneNode nd)). Qed.

Lemma rec_default parent cur s st :
  wp (rec (DefaultLoop parent cur s)) (fun _ st' => rel keep_all st st') st.
Proof. apply (Hrec (DefaultLoop parent cur s)). Qed.

Hint Resolve rec_apply rec_process rec_default : wpdb.

Lemma xsltEvalTemplateString_rel nd parent st :
  wp (xsltEvalTemplateString rec nd parent)
     (fun _ st' => rel keep_all st st') st.
Proof. unfold xsltEvalTemplateString. wp_run; solve_rel. Qed.

Hint Resolve xsltEvalTemplateString_rel : wpdb.

Lemma xsltComment_rel nd inst st :
  wp (xsltComment rec nd inst) (fun _ st' => rel keep_all st st') st.
Proof. unfold xsltComment. wp_run; solve_rel. Qed.

Hint Resolve xsltComment_rel : wpdb.

Lemma xsltProcessingInstruction_rel nd inst st :
  wp (xsltProcessingInstruction X rec nd inst)
     (fun _ st' => rel keep_all st st') st.
Proof. unfold xsltProcessingInstruction. wp_run; solve_rel. Qed.

Hint Resolve xsltProcessingInstruction_rel : wpdb.

Lemma xsltAttribute_rel nd inst st :
  wp (xsltAttribute X rec nd inst) (fun _ st' => rel keep_all st st') st.
Proof. unfold xsltAttribute. wp_run; solve_rel. Qed.

Hint Resolve xsltAttribute_rel : wpdb.

Lemma xsltCallTemplate_params_rel cs : forall hp st,
  wp (xsltCallTemplate_params cs hp)
     (fun hp' st' => rel keep_scope st st' /\
                     base_vars hp' st' = base_vars hp st) st.
Proof.
  induction cs as [|c rest IH]; intros hp st; simpl.
  - wp_run. split; [solve_rel | reflexivity].
  - unfold xsltParseStylesheetParam, base_vars in *.
    wp_run; (split; [solve_rel|]);
      unfold rel, when, keep_scope in *; simpl in *;
      repeat match goal with H : _ /\ _ |- _ => destruct H end;
      try rewrite tail_declare in *; simpl in *; congruence.
Qed.

Lemma xsltCallTemplate_rel nd inst st :
  wp (xsltCallTemplate rec nd inst) (fun _ st' => rel keep_all st st') st.
Proof.
  unfold xsltCallTemplate. wp_run; try solve_rel.
  all: eapply wp_mono; [apply xsltCallTemplate_params_rel|];
    intros hp s1 [H1 Hb]; unfold base_vars in Hb; wp_run; solve_rel.
Qed.

Hint Resolve xsltCallTemplate_rel : wpdb.

Lemma xsltApplyTemplates_children_rel cs : forall acc st,
  wp (xsltApplyTemplates_children cs acc)
     (fun _ st' => rel keep_all st st') st.
Proof.
  induction cs as [|c rest IH]; intros acc st; simpl.
  - wp_run. solve_rel.
  - wp_run; try solve [solve_rel].
    all: unfold rel, when, keep_all in *; simpl in *;
      repeat match goal with H : _ /\ _ |- _ => destruct H end;
      repeat split; try congruence;
      (eapply src_shrink_trans; [|eassumption]);
      (eapply unlink_shrink; [eassumption|]); solve_removable.
Qed.

Hint Resolve xsltApplyTemplates_children_rel : wpdb.

Lemma xsltApplyTemplates_rel nd inst st :
  wp (xsltApplyTemplates X rec nd inst) (fun _ st' => rel keep_all st st') st.
Proof.
  unfold xsltApplyTemplates. wp_run; try solve [solve_rel].
  all: eapply wp_mono;
    [apply iterate_selected_rel; intros; apply rec_process|];
    intros; solve_rel.
Qed.

Hint Resolve xsltApplyTemplates_rel : wpdb.

Lemma xsltIf_rel nd inst st :
  wp (xsltIf X rec nd inst) (fun _ st' => rel keep_all st st') st.
Proof. unfold xsltIf. wp_run; solve_rel. Qed.

Hint Resolve xsltIf_rel : wpdb.

Lemma xsltForEach_rel nd inst st :
  wp (xsltForEach X rec nd inst) (fun _ st' => rel keep_all st st') st.
Proof.
  unfold xsltForEach. wp_run; try solve [solve_rel].
  all: eapply wp_mono;
    [apply iterate_selected_rel; intros; apply rec_apply|];
    intros; solve_rel.
Qed.

Hint Resolve xsltForEach_rel : wpdb.

Lemma xsltDefaultProcessOneNode_rel nd st :
  wp (xsltDefaultProcessOneNode rec nd) (fun _ st' => rel keep_all st st') st.
Proof. unfold xsltDefaultProcessOneNode. wp_run; solve_rel. Qed.

Hint Resolve xsltDefaultProcessOneNode_rel : wpdb.

Lemma xsltProcessOneNode_rel nd st :
  wp (xsltProcessOneNode X rec nd) (fun _ st' => rel keep_all st st') st.
Proof. unfold xsltProcessOneNode. wp_run; solve_rel. Qed.

Lemma xsltDefaultProcessOneNode_loop_rel parent cur s st :
  wp (xsltDefaultProcessOneNode_loop rec parent cur s)
     (fun _ st' => rel keep_all st st') st.
Proof.
  unfold xsltDefaultProcessOneNode_loop. wp_run; try solve [solve_rel].
  all: unfold spec, rel, when, keep_all in *; simpl in *;
      repeat match goal with H : _ /\ _ |- _ => destruct H end;
      repeat split; try congruence;
      (eapply src_shrink_trans; [|eassumption]);
      (eapply unlink_shrink; [eassumption|]); solve_removable.
Qed.

(** *** The walk of a template body *)
Lemma instruction_spec nd oldInsert ins cur hv st :
  insert (ctxt st) = oldInsert ->
  wp (xsltApplyOneTemplate_instruction X rec nd oldInsert ins cur hv)
     (fun hv' st' =>
        rel keep_walk st st' /\
        base_vars hv' st' = base_vars hv st /\
        insert (ctxt st') = oldInsert) st.
Proof.
  intros Hins.
  unfold xsltApplyOneTemplate_instruction, xsltParseStylesheetVariable,
    xsltParseStylesheetParam, base_vars.
  destruct hv; wp_run.
  all: (split; [solve_rel|]); split; [|solve_rel].
  all: unfold spec, rel, when, keep_all in *; simpl in *;
    repeat match goal with H : _ /\ _ |- _ => destruct H end;
    try rewrite tail_declare in *; simpl in *; try congruence.
  all: repeat match goal with
              | H : variables (ctxt _) = _ |- _ => rewrite H
              end; reflexivity.
Qed.

Lemma cursor_next_length c nx :
  cursor_next c = Some nx -> length (c_path nx) = length (c_path c).
Proof.
  unfold cursor_next. destruct (c_path c) eqn:E; [discriminate|].
  destruct (cursor_node _); [|discriminate].
  intros [= <-]. reflexivity.
Qed.

Lemma cursor_children_length c down :
  cursor_children c = Some down ->
  length (c_path down) = S (length (c_path c)).
Proof.
  unfold cursor_children. destruct (cursor_node c); [|discriminate].
  destruct (node_children x); [discriminate|].
  intros [= <-]. reflexivity.
Qed.

Lemma removelast_length {A} (l : list A) :
  length (removelast l) = pred (length l).
Proof.
  induction l as [|a [|b l] IH]; simpl in *; auto.
Qed.

Lemma out_parent_length ip :
  (1 <= length (p_path ip))%nat ->
  exists ip', out_parent ip = Some ip' /\
              S (length (p_path ip')) = length (p_path ip).
Proof.
  unfold out_parent. destruct (p_path ip) as [|i l] eqn:E.
  - simpl. lia.
  - intros _. eexists; split; [reflexivity|]. cbn [p_path].
    rewrite removelast_length. reflexivity.
Qed.

Lemma unwind_spec top path : forall ins st,
  wp (unwind top path ins)
     (fun r st' =>
        st' = st /\
        forall ip, ins = Some ip ->
          (length path <= S (length (p_path ip)))%nat ->
          match fst r with
          | Some c =>
              exists ip', snd r = Some ip' /\
                (length (c_path c) <= S (length (p_path ip')))%nat
          | None => True
          end) st.
Proof.
  induction path as [|i up IH]; intros ins st; simpl; [exact I|].
  destruct ins as [ip|]; [|exact I].
  apply wp_bind, wp_ret.
  destruct up as [|j up'].
  - apply wp_ret. split; [reflexivity|]. simpl. auto.
  - destruct (cursor_next {| c_top := top; c_path := j :: up' |}) as [nx|] eqn:En.
    + apply wp_ret. split; [reflexivity|]. simpl.
      intros ip0 [= <-] Hlen. simpl in Hlen.
      destruct (out_parent_length ip) as (ip' & -> & Hl); [lia|].
      exists ip'. split; [reflexivity|].
      rewrite (cursor_next_length _ _ En). simpl. lia.
    + eapply wp_mono; [apply IH|]. intros [c ins'] s [-> H].
      split; [reflexivity|]. intros ip0 [= <-] Hlen. simpl in Hlen.
      destruct (out_parent_length ip) as (ip' & E' & Hl); [lia|].
      apply (H ip' E'). simpl. lia.
Qed.

Lemma skip_children_spec w st :
  wp (skip_children w)
     (fun r st' =>
        st' = st /\
        forall ip, w_insert w = Some ip -> walk_ok w ->
          match r with
          | WalkNext w' =>
              walk_ok w' /\ w_has_variables w' = w_has_variables w
          | WalkDone hv => hv = w_has_variables w
          | WalkReturn => False
          end) st.
Proof.
  unfold skip_children.
  destruct (cursor_next (w_cur w)) as [nx|] eqn:En.
  - apply wp_ret. split; [reflexivity|]. intros ip Hip Hok.
    unfold walk_ok in *. simpl. rewrite Hip in *.
    rewrite (cursor_next_length _ _ En). auto.
  - apply wp_bind. eapply wp_mono; [apply unwind_spec|].
    intros [[c|] ins'] s [-> H]; apply wp_ret; (split; [reflexivity|]);
      intros ip Hip Hok; unfold walk_ok in *; rewrite Hip in *; simpl.
    + destruct (H ip eq_refl Hok) as (ip' & E' & Hl). simpl in E'.
      subst ins'. auto.
    + reflexivity.
Qed.

Lemma skip_children_post oldInsert hv0 st s w2 ins :
  w_insert w2 = Some ins -> walk_ok w2 ->
  rel keep_walk st s ->
  base_vars (w_has_variables w2) s = base_vars hv0 st ->
  insert (ctxt s) = oldInsert ->
  wp (skip_children w2) (step_post oldInsert hv0 st) s.
Proof.
  intros Ew Hok Hr Hb Hi.
  eapply wp_mono; [apply skip_children_spec|].
  intros r s' [-> H]. specialize (H ins Ew Hok).
  destruct r as [|hv'|w']; simpl in *.
  - contradiction.
  - subst hv'. auto.
  - destruct H as [H1 H2]. rewrite H2. auto.
Qed.

Lemma copy_literal_spec cur ins (old : option outPtr) st :
  wp (if bool_decide (node_type cur = XML_TEXT_NODE) then
        do ok <- alloc;
        if ok then xmlAddChild (Some ins) (xmlCopyNode cur)
        else
          xsltGenericError "xsltApplyOneTemplate: text copy failed";;
          ret None
      else if bool_decide (node_type cur = XML_ELEMENT_NODE) then
        do c <- xsltCopyNode cur ins;
        match node_properties cur with
        | [] => ret tt
        | _ :: _ =>
            do st <- get;
            xmlSetProperties c
              (xsltAttrListTemplateProcess X st c (node_properties cur))
        end;;
        ret (Some c)
      else ret old)
     (fun copy st' =>
        rel keep_all st st' /\
        (node_type cur = XML_ELEMENT_NODE ->
         exists c, copy = Some c /\
                   length (p_path c) = S (length (p_path ins)))) st.
Proof.
  wp_run; (split; [solve_rel|]).
  all: try (intros Hty; apply bool_decide_eq_true in E; congruence).
  all: try (intros Hty; apply bool_decide_eq_false in E0; congruence).
  all: intros _; eexists; split; [reflexivity|];
    repeat match goal with H : _ /\ _ |- _ => destruct H end; assumption.
Qed.

Lemma xsltApplyOneTemplate_step_spec nd oldInsert w st :
  walk_ok w -> insert (ctxt st) = oldInsert ->
  wp (xsltApplyOneTemplate_step X rec nd oldInsert w)
     (step_post oldInsert (w_has_variables w) st) st.
Proof.
  intros Hok Hins. unfold xsltApplyOneTemplate_step.
  destruct (w_insert w) as [ins|] eqn:Ew.
  2:{ apply wp_ret. unfold walk_ok in Hok. rewrite Ew in Hok.
      split; auto. }
  pose proof Hok as Hlen. unfold walk_ok in Hlen. rewrite Ew in Hlen.
  apply wp_bind.
  destruct (cursor_node (w_cur w)) as [cur|] eqn:Ecur; [|exact I].
  apply wp_ret. destruct (IS_XSLT_ELEM cur).
  - apply wp_bind. eapply wp_mono; [apply instruction_spec; exact Hins|].
    intros hv s (Hr & Hb & Hi).
    eapply skip_children_post; eauto; unfold walk_ok; simpl; exact Hlen.
  - apply wp_bind. eapply wp_mono; [apply copy_literal_spec|].
    intros copy s [Hr Hcopy].
    assert (Hr' : rel keep_walk st s) by (apply rel_weaken; exact Hr).
    assert (Hi : insert (ctxt s) = oldInsert) by solve_rel.
    assert (Hb : base_vars (w_has_variables w) s
                 = base_vars (w_has_variables w) st).
    { unfold base_vars. destruct (w_has_variables w); solve_rel. }
    assert (Hskip :
      wp (skip_children {| w_cur := w_cur w; w_insert := Some ins;
                           w_copy := copy;
                           w_has_variables := w_has_variables w |})
         (step_post oldInsert (w_has_variables w) st) s).
    { eapply skip_children_post; eauto; unfold walk_ok; simpl; exact Hlen. }
    destruct (first_child_type cur) as [t|] eqn:Et; [|exact Hskip].
    destruct (cursor_children (w_cur w)) as [down|] eqn:Ed; [|exact Hskip].
    destruct (bool_decide (t = XML_ENTITY_DECL)); [exact Hskip|].
    apply wp_ret. unfold step_post. split; [|auto].
    assert (Hel : node_type cur = XML_ELEMENT_NODE).
    { unfold cursor_children in Ed. rewrite Ecur in Ed.
      destruct cur; [reflexivity|discriminate]. }
    destruct (Hcopy Hel) as (c & -> & Hc).
    unfold walk_ok. simpl. rewrite (cursor_children_length _ _ Ed). lia.
Qed.

Lemma xsltApplyOneTemplate_loop_spec nd oldInsert w st :
  wp (xsltApplyOneTemplate_loop X rec nd oldInsert w)
     (fun _ st' => spec (TemplateLoop nd oldInsert w) st st') st.
Proof.
  apply wp_intro. intros [] s' Hrun Hok Hins.
  unfold xsltApplyOneTemplate_loop in Hrun.
  apply bind_done in Hrun as (r & s1 & Hstep & Hrest).
  pose proof (wp_done _ _ _ _ _
                (xsltApplyOneTemplate_step_spec nd oldInsert w st Hok Hins)
                Hstep) as Hpost.
  destruct r as [|hv|w']; simpl in Hpost.
  - injection Hrest as <-. destruct Hpost as [-> Hv].
    unfold base_vars. rewrite Hv. split; [apply rel_refl|]. auto.
  - destruct Hpost as (Hr & Hb & Hi).
    unfold base_vars in *. destruct hv.
    + injection Hrest as <-. simpl. split; [solve_rel|]. split; auto.
    + injection Hrest as <-. split; auto.
  - destruct Hpost as (Hok' & Hr & Hb & Hi).
    pose proof (wp_done _ _ _ _ _ (Hrec (TemplateLoop nd oldInsert w') s1)
                  Hrest) as Hnext.
    simpl in Hnext. destruct (Hnext Hok' Hi) as (Hr2 & Hv2 & Hi2).
    split; [eapply rel_trans; eauto|]. split; [congruence|auto].
Qed.

Lemma xsltApplyOneTemplate_rel nd list st :
  wp (xsltApplyOneTemplate rec nd list) (fun _ st' => rel keep_all st st') st.
Proof.
  unfold xsltApplyOneTemplate. apply wp_bind, wp_get.
  destruct list as [b|]; [|apply wp_ret, rel_refl].
  eapply wp_mono; [apply (Hrec (TemplateLoop _ _ _))|].
  intros [] s H. simpl in H.
  destruct H as (Hr & Hv & Hi); [|reflexivity|].
  - unfold walk_ok. simpl. destruct (insert (ctxt st)); simpl; [lia|auto].
  - unfold base_vars in Hv. simpl in Hv. solve_rel.
Qed.

End Soundness.

(** * The properties of the specification *)

(** Whatever the interpreter runs to completion satisfies [spec]. *)
Theorem exec_sound X fuel : sound (exec X fuel).
Proof.
  induction fuel as [|f IH]; intros c st; [exact I|].
  destruct c; simpl.
  - apply xsltApplyOneTemplate_rel; exact IH.
  - apply xsltProcessOneNode_rel; exact IH.
  - apply xsltApplyOneTemplate_loop_spec; exact IH.
  - apply xsltDefaultProcessOneNode_loop_rel; exact IH.
Qed.

(** C3.  Whenever xsltApplyOneTemplate returns, the stack of variable
    scopes is the one it was entered with: the scope that the body opened
    on its first variable, param or call-template, if it opened one, has
    been popped, once, and nothing below it was touched.  This covers
    every return of the procedure, the early one on a NULL insertion point
    included: that return is only reached before any scope was pushed,
    since in a stylesheet tree the insertion point follows the walk down
    and up. *)
Theorem xsltApplyOneTemplate_scope_balanced X fuel nd list st st' :
  xsltApplyOneTemplate (exec X fuel) nd list st = Done tt st' ->
  variables (ctxt st') = variables (ctxt st).
Proof.
  intros H.
  pose proof (wp_done _ _ _ _ _
    (xsltApplyOneTemplate_rel (exec X fuel) (exec_sound X fuel) nd list st) H)
    as R.
  apply R.
Qed.

(** C10.  With a NULL stylesheet or a NULL source document,
    xsltApplyStylesheet returns NULL and leaves the memory as it was: no
    context and no document is allocated, nothing is logged. *)
Theorem xsltApplyStylesheet_null X fuel (s : option xsltStylesheet)
        (d : option ptr) (m : memory) :
  s = None \/ d = None ->
  xsltApplyStylesheet X fuel s d m = Returns None m.
Proof. intros [-> | ->]; [reflexivity | destruct s; reflexivity]. Qed.

(** C8.  When the insertion point already has a child, xsltAttribute logs
    an error and returns: the result tree, and so the attributes and the
    children of the insertion point, and the context are unchanged, and
    the body of the instruction is not evaluated (whatever [rec] is). *)
Theorem xsltAttribute_after_children X rec nd inst st ip target :
  insert (ctxt st) = Some ip ->
  forest_at (out (mem st)) ip = Some target ->
  o_children target <> [] ->
  exists st',
    xsltAttribute X rec nd inst st = Done tt st' /\
    errors (mem st') =
      errors (mem st) ++ ["xslt:attribute : node has already children"] /\
    out (mem st') = out (mem st) /\
    forest_at (out (mem st')) ip = Some target /\
    ctxt st' = ctxt st.
Proof.
  intros Hins Hat Hcs.
  exists (set_mem (fun m => with_errors
            (errors m ++ ["xslt:attribute : node has already children"]) m) st).
  split; [|auto].
  unfold xsltAttribute, bind, get. rewrite Hins. unfold deref, ret.
  rewrite Hat. destruct (o_children target); [contradiction|reflexivity].
Qed.

(** C6.  What the code does where the property fails: when the name
    attribute of a call-template names no template of the stylesheet,
    xsltCallTemplate does not get to report the error and return.  The
    argument of the message is [cur->name], and the local variable [cur]
    has not been assigned yet: the behaviour is undefined, a crash in
    the model, whatever the recursive calls [rec] would do (no template
    body is run before).  (The instruction is run under a non-NULL
    insertion point, as xsltApplyOneTemplate always does.) *)
Theorem xsltCallTemplate_unknown nd inst st ip prop :
  insert (ctxt st) = Some ip ->
  xmlGetNsProp inst "name" XSLT_NAMESPACE = Some prop ->
  xsltFindTemplate (style (ctxt st)) (called_name prop)
                   (href <$> called_ns (out (mem st)) ip prop) = None ->
  forall rec, xsltCallTemplate rec nd inst st = Fault.
Proof.
  intros Hins Hname Hfind rec.
  unfold xsltCallTemplate, bind, get. rewrite Hins, Hname.
  destruct (is_set (called_prefix prop)
            && negb (is_set (called_ns (out (mem st)) ip prop)));
    simpl; rewrite Hfind; reflexivity.
Qed.

(** C7.  What the code does where the property fails: when the evaluation
    of the test leaves no result, xsltIf runs the body of the instruction
    all the same ([doit] is initialised to 1 and only a result changes
    it). *)
Theorem xsltIf_without_result X rec n inst prop st st1 :
  xmlGetNsProp inst "test" XSLT_NAMESPACE = Some prop ->
  xpath_setup n st = Done true st1 ->
  xmlXPathBooleanFunction X st1 (xmlXPathEvalExpr X st1 prop) = None ->
  xsltIf X rec (Some n) inst st =
    rec (ApplyOneTemplate (node (ctxt st1)) (first_child inst)) st1.
Proof.
  intros Htest Hsetup Hres.
  unfold xsltIf. rewrite Htest. unfold bind at 1. rewrite Hsetup. simpl.
  unfold bind, get. rewrite Hres. reflexivity.
Qed.

(** C2.  Whenever xsltApplyTemplates or xsltForEach returns, on the
    normal exit as on the error exits, the node list of the context is
    the one at entry, and so are the context size and the proximity
    position of the XPath context that was there at entry; this whatever
    the nested calls [rec] do. *)
Theorem selection_restores X rec nd inst st st' :
  xsltApplyTemplates X rec nd inst st = Done tt st' \/
  xsltForEach X rec nd inst st = Done tt st' ->
  nodeList (ctxt st') = nodeList (ctxt st) /\
  forall xc, xpathCtxt (ctxt st) = Some xc ->
    exists xc', xpathCtxt (ctxt st') = Some xc' /\
      contextSize xc' = contextSize xc /\
      proximityPosition xc' = proximityPosition xc.
Proof.
  intros [H|H].
  - exact (wp_done _ _ _ _ _ (xsltApplyTemplates_pres X rec nd inst st) H).
  - exact (wp_done _ _ _ _ _ (xsltForEach_pres X rec nd inst st) H).
Qed.

Lemma selection_restores_witness :
  xsltForEach Demo.engine (exec Demo.engine 20) (Some 1%nat)
    Demo.for_each_node (Demo.start Demo.plain Demo.items Demo.busy)
  = Done tt
      (Demo.final
         (xsltForEach Demo.engine (exec Demo.engine 20) (Some 1%nat)
            Demo.for_each_node (Demo.start Demo.plain Demo.items Demo.busy))
         (Demo.start Demo.plain Demo.items Demo.busy)) /\
  nodeList
    (ctxt (Demo.final
         (xsltForEach Demo.engine (exec Demo.engine 20) (Some 1%nat)
            Demo.for_each_node (Demo.start Demo.plain Demo.items Demo.busy))
         (Demo.start Demo.plain Demo.items Demo.busy))) = None.
Proof.
  assert (H : xsltForEach Demo.engine (exec Demo.engine 20) (Some 1%nat)
    Demo.for_each_node (Demo.start Demo.plain Demo.items Demo.busy)
  = Done tt
      (Demo.final
         (xsltForEach Demo.engine (exec Demo.engine 20) (Some 1%nat)
            Demo.for_each_node (Demo.start Demo.plain Demo.items Demo.busy))
         (Demo.start Demo.plain Demo.items Demo.busy)))
    by (vm_compute; reflexivity).
  split; [exact H|].
  exact (proj1 (selection_restores _ _ _ _ _ _ (or_intror H))).
Defined.

Lemma skip_sorts_count X nd cs : forall k st,
  wp (skip_sorts X nd cs k)
     (fun r _ => r = (k + leading_sorts cs)%nat) st.
Proof.
  induction cs as [|c rest IH]; intros k st; simpl.
  - apply wp_ret. lia.
  - destruct (IS_XSLT_ELEM c && IS_XSLT_NAME c "sort").
    + apply wp_bind. eapply wp_mono; [apply wp_true|].
      intros [] s _. eapply wp_mono; [apply IH|].
      intros r _ ->. lia.
    + apply wp_ret. lia.
Qed.

Lemma open_selected_count X nd inst tab st :
  wp (open_selected X nd inst tab)
     (fun r _ => snd (fst r) = leading_sorts (node_children inst)) st.
Proof.
  unfold open_selected. apply wp_bind.
  eapply wp_mono; [apply wp_true|]. intros saved s _.
  apply wp_bind. eapply wp_mono; [apply skip_sorts_count|].
  intros k s1 ->. repeat wp_prim0. reflexivity.
Qed.

Lemma node_loop_iterations X fuel (iter : ptr -> call) all :
  (forall p s s', spec (iter p) s s' -> rel keep_all s s') ->
  forall rest pre s s'',
    all = pre ++ rest ->
    nodeList (ctxt s) = Some all ->
    size_of (xpathCtxt (ctxt s)) = Z.of_nat (length all) ->
    node_loop (fun q => exec X fuel (iter q)) rest (Z.of_nat (length pre)) s
      = Done tt s'' ->
    iterations (exec X fuel) iter all (length pre) s s''.
Proof.
  intros Hiter. induction rest as [|p rest IH];
    intros pre s s'' Hall Hl Hsz Hrun.
  - simpl in Hrun. injection Hrun as <-. rewrite app_nil_r in Hall.
    subst pre. apply iterations_end.
  - cbn [node_loop] in Hrun.
    apply bind_done in Hrun as ([] & e & Henter & Hrun).
    apply bind_done in Hrun as ([] & s' & Hbody & Hrun).
    unfold enter_iteration, bind, modify_ctxt, modify, get, deref, ret
      in Henter. simpl in Henter.
    destruct (xpathCtxt (ctxt s)) as [xc|] eqn:Exc; [|discriminate].
    simpl in Henter. injection Henter as <-. simpl in Hsz.
    assert (Hlen : (length pre < length all)%nat).
    { rewrite Hall, length_app. simpl. lia. }
    pose proof (Hiter _ _ _ (wp_done _ _ _ _ _
                  (exec_sound X fuel (iter p) _) Hbody))
      as (_ & _ & Hl' & Hsz' & _).
    simpl in Hl', Hsz'.
    eapply iterations_step; [| |exact Hbody|].
    + exists xc. split; [exact Exc|reflexivity].
    + split; [rewrite Hall; apply list_lookup_middle; reflexivity|].
      split; [exact Hl|]. split; [reflexivity|].
      eexists. split; [reflexivity|]. simpl. repeat split; lia.
    + replace (S (length pre)) with (length (pre ++ [p]))
        by (rewrite length_app; simpl; lia).
      apply IH.
      * rewrite <- app_assoc. exact Hall.
      * rewrite Hl'. exact Hl.
      * rewrite Hsz'. exact Hsz.
      * rewrite length_app. simpl.
        replace (Z.of_nat (length pre + 1)) with (Z.of_nat (length pre) + 1)
          by lia.
        exact Hrun.
Qed.

Lemma iterate_selected_iterates X fuel nd inst l
      (body : nat -> ptr -> call) st1 st' :
  (forall k p s s', spec (body k p) s s' -> rel keep_all s s') ->
  iterate_selected X nd inst (Some l)
    (fun k p => exec X fuel (body k p)) st1 = Done tt st' ->
  iterates (exec X fuel) (body (leading_sorts (node_children inst)))
           l st1 st'.
Proof.
  intros Hbody Hrun. unfold iterate_selected in Hrun.
  apply bind_done in Hrun as (tab & s & Ed & Hrun).
  injection Ed as <- <-.
  apply bind_done in Hrun as ([[saved k] sorted] & s0 & Hopen & Hrun).
  apply bind_done in Hrun as ([] & sN & Hloop & Hleave).
  pose proof (wp_done _ _ _ _ _ (open_selected_arranged X nd inst l st1)
                Hopen) as (Hp & (Hl & xc & Exc & Hc) & Hkept).
  simpl in Hp, Hl, Exc.
  pose proof (wp_done _ _ _ _ _ (open_selected_count X nd inst l st1)
                Hopen) as Hk.
  simpl in Hk. subst k.
  exists sorted, s0, sN. split; [exact Hp|].
  split; [split; [exact Hl|exists xc; split; [exact Exc|exact Hc]]|].
  split; [exact Hkept|]. split.
  - apply (node_loop_iterations X fuel _ sorted (Hbody _) sorted []
             s0 sN eq_refl Hl).
    + rewrite Exc. simpl. rewrite Hc, Hp. reflexivity.
    + exact Hloop.
  - destruct saved as [[ol oc] op].
    unfold leave_list, bind, modify_ctxt, modify, get, deref, ret in Hleave.
    simpl in Hleave.
    destruct (xpathCtxt (ctxt sN)); [|discriminate].
    simpl in Hleave. injection Hleave as <-. reflexivity.
Qed.

(** C9.  Whenever xsltApplyTemplates or xsltForEach returns after it has
    selected a node list [l] of length N, by its select attribute or,
    for xsltApplyTemplates without select, from the children of the
    node, it has run exactly one iteration per node of the list, in the
    order that the xsl:sort children give.  The first iteration starts
    from the state in which the list was selected, with the list
    installed and N as context size; each iteration is opened from the
    state that the iteration before it returned in, by setting the
    current node and the proximity position and nothing else.
    Iteration i, counted from 0, ran (xsltProcessOneNode, or the body of
    the xsl:for-each, its children after the leading xsl:sort ones) in
    a state where the node list is the list iterated on, the current
    node is the node of index i, the context size is N and the
    proximity position is i+1, between 1 and N; this holds with
    whatever the iterations before it have run, nested iterations
    included. *)
Theorem iteration_context X fuel n inst st l st1 st' :
  (by_expression X n inst st l st1 ->
   (xsltApplyTemplates X (exec X fuel) (Some n) inst st = Done tt st' ->
    iterates (exec X fuel) ProcessOneNode l st1 st') /\
   (xsltForEach X (exec X fuel) (Some n) inst st = Done tt st' ->
    iterates (exec X fuel)
      (fun p =>
         ApplyOneTemplate (Some p)
           (replacement_at inst (leading_sorts (node_children inst))))
      l st1 st')) /\
  (by_children n inst st l st1 ->
   xsltApplyTemplates X (exec X fuel) (Some n) inst st = Done tt st' ->
   iterates (exec X fuel) ProcessOneNode l st1 st').
Proof.
  split.
  - intros (prop & Hsel & Hsetup & Heval). split; intros Hrun.
    + unfold xsltApplyTemplates in Hrun. rewrite Hsel in Hrun.
      unfold bind at 1 in Hrun. unfold bind at 1 in Hrun.
      rewrite Hsetup in Hrun. cbn [negb] in Hrun.
      unfold bind at 1, get at 1 in Hrun. rewrite Heval in Hrun.
      unfold ret at 1 in Hrun.
      exact (iterate_selected_iterates X fuel (Some n) inst l
               (fun _ p => ProcessOneNode p) st1 st'
               (fun _ _ _ _ H => H) Hrun).
    + unfold xsltForEach in Hrun. rewrite Hsel in Hrun.
      unfold bind at 1 in Hrun. rewrite Hsetup in Hrun. cbn [negb] in Hrun.
      unfold bind at 1, get at 1 in Hrun. rewrite Heval in Hrun.
      exact (iterate_selected_iterates X fuel (Some n) inst l
               (fun k p => ApplyOneTemplate (Some p) (replacement_at inst k))
               st1 st' (fun _ _ _ _ H => H) Hrun).
  - intros (Hsel & sn & Hn & Hlist) Hrun.
    unfold xsltApplyTemplates in Hrun. rewrite Hsel in Hrun.
    unfold bind at 1 in Hrun. unfold bind at 1, get at 1 in Hrun.
    rewrite Hn in Hrun. unfold bind at 1, deref at 1, ret at 1 in Hrun.
    unfold bind at 1 in Hrun. rewrite Hlist in Hrun.
    unfold ret at 1 in Hrun.
    exact (iterate_selected_iterates X fuel (Some n) inst l
             (fun _ p => ProcessOneNode p) st1 st'
             (fun _ _ _ _ H => H) Hrun).
Qed.

Lemma iteration_context_witness :
  by_expression Demo.engine 1%nat Demo.for_each_node
    (Demo.start Demo.plain Demo.items Demo.busy) [2%nat; 3%nat; 4%nat]
    (Demo.final
       (xpath_setup 1%nat (Demo.start Demo.plain Demo.items Demo.busy))
       (Demo.start Demo.plain Demo.items Demo.busy)) /\
  exists st',
    xsltForEach Demo.engine (exec Demo.engine 20) (Some 1%nat)
      Demo.for_each_node (Demo.start Demo.plain Demo.items Demo.busy)
      = Done tt st' /\
    iterates (exec Demo.engine 20)
      (fun p => ApplyOneTemplate (Some p)
                  (replacement_at Demo.for_each_node 0))
      [2%nat; 3%nat; 4%nat]
      (Demo.final
         (xpath_setup 1%nat (Demo.start Demo.plain Demo.items Demo.busy))
         (Demo.start Demo.plain Demo.items Demo.busy)) st'.
Proof.
  assert (H1 : by_expression Demo.engine 1%nat Demo.for_each_node
    (Demo.start Demo.plain Demo.items Demo.busy) [2%nat; 3%nat; 4%nat]
    (Demo.final
       (xpath_setup 1%nat (Demo.start Demo.plain Demo.items Demo.busy))
       (Demo.start Demo.plain Demo.items Demo.busy))).
  { exists "node()". split; [reflexivity|].
    split; vm_compute; reflexivity. }
  assert (H2 : xsltForEach Demo.engine (exec Demo.engine 20) (Some 1%nat)
    Demo.for_each_node (Demo.start Demo.plain Demo.items Demo.busy)
  = Done tt
      (Demo.final
         (xsltForEach Demo.engine (exec Demo.engine 20) (Some 1%nat)
            Demo.for_each_node (Demo.start Demo.plain Demo.items Demo.busy))
         (Demo.start Demo.plain Demo.items Demo.busy)))
    by (vm_compute; reflexivity).
  split; [exact H1|].
  eexists. split; [exact H2|].
  exact (proj2 (proj1 (iteration_context Demo.engine 20 1%nat
                         Demo.for_each_node _ _ _ _) H1) H2).
Defined.

Lemma xsltApplyOneTemplate_scope_balanced_witness :
  xsltApplyOneTemplate (exec Demo.engine 20) (Some 0%nat)
    (first_child Demo.with_variable) (Demo.start Demo.plain Demo.hello None)
  = Done tt
      (Demo.final
         (xsltApplyOneTemplate (exec Demo.engine 20) (Some 0%nat)
            (first_child Demo.with_variable)
            (Demo.start Demo.plain Demo.hello None))
         (Demo.start Demo.plain Demo.hello None)) /\
  variables
    (ctxt (Demo.final
         (xsltApplyOneTemplate (exec Demo.engine 20) (Some 0%nat)
            (first_child Demo.with_variable)
            (Demo.start Demo.plain Demo.hello None))
         (Demo.start Demo.plain Demo.hello None))) = [].
Proof.
  assert (H : xsltApplyOneTemplate (exec Demo.engine 20) (Some 0%nat)
    (first_child Demo.with_variable) (Demo.start Demo.plain Demo.hello None)
  = Done tt
      (Demo.final
         (xsltApplyOneTemplate (exec Demo.engine 20) (Some 0%nat)
            (first_child Demo.with_variable)
            (Demo.start Demo.plain Demo.hello None))
         (Demo.start Demo.plain Demo.hello None)))
    by (vm_compute; reflexivity).
  split; [exact H|].
  exact (xsltApplyOneTemplate_scope_balanced _ _ _ _ _ _ H).
Defined.

(** *** What the walks of the source tree remove *)

Lemma default_strip_spaces_policy strip nm :
  Z.eqb (default_strip_spaces strip nm) 1 = strip_policy strip nm.
Proof.
  unfold default_strip_spaces, strip_policy.
  destruct (strip !! nm) as [v|]; destruct (strip !! "*") as [w|];
    repeat match goal with
           | |- context [String.eqb ?a ?b] =>
               let E := fresh "E" in
               destruct (String.eqb a b) eqn:E;
               try (apply String.eqb_eq in E; subst)
           end; simpl in *; try reflexivity; try discriminate.
Qed.

Lemma apply_templates_strips_policy strip nm :
  apply_templates_strips strip nm = true -> strip_policy strip nm = true.
Proof.
  unfold apply_templates_strips, strip_policy.
  destruct (strip !! nm) as [v|]; [|discriminate].
  intros ->. reflexivity.
Qed.

Lemma filter_all {A} (P : A -> Prop) `{!forall x, Decision (P x)} (l : list A) :
  Forall P l -> filter P l = l.
Proof.
  induction 1 as [|x l Hx Hl IH]; [reflexivity|].
  rewrite filter_cons_True by exact Hx. now rewrite IH.
Qed.

Lemma filter_agree {A} (P Q : A -> Prop) `{!forall x, Decision (P x)}
      `{!forall x, Decision (Q x)} (l : list A) :
  Forall (fun x => P x <-> Q x) l -> filter P l = filter Q l.
Proof.
  induction 1 as [|x l Hx Hl IH]; [reflexivity|].
  destruct (decide (P x)) as [HP|HP].
  - rewrite !filter_cons_True by tauto. now rewrite IH.
  - rewrite !filter_cons_False by tauto. exact IH.
Qed.

Lemma next_in_spec l p x :
  NoDup l -> next_in l p = Some x -> x ∈ l /\ x <> p.
Proof.
  induction 1 as [|a l Ha Hl IH]; simpl; [discriminate|].
  case_bool_decide as E.
  - subst a. destruct l as [|b l]; [discriminate|]. simpl.
    intros [= ->]. split; [do 2 constructor|].
    intros ->. apply Ha. constructor.
  - intros H. destruct (IH H). split; [constructor|]; assumption.
Qed.

Lemma stripped_sort_same strip h h' n n' :
  s_type n' = s_type n -> s_content n' = s_content n ->
  s_parent n' = s_parent n ->
  (forall q pn', h' !! q = Some pn' ->
     exists pn, h !! q = Some pn /\ s_name pn' = s_name pn) ->
  stripped_sort strip h' n' -> stripped_sort strip h n.
Proof.
  intros Ht Hc Hp Hh [Hk | (Hb & m & q & pn' & Hm & Hq & Hl & Hs)].
  - left. unfold other_kind in *. rewrite <- Ht. exact Hk.
  - right. split.
    + unfold IS_BLANK_NODE in *. rewrite <- Ht, <- Hc. exact Hb.
    + destruct (Hh q pn' Hl) as (pn & Hl0 & Hn).
      exists m, q, pn. rewrite <- Hp, <- Hn. auto.
Qed.

Lemma src_stripped_refl strip h : tree_ok h -> src_stripped strip h h.
Proof.
  intros Hok p. destruct (h !! p) as [n|] eqn:E; [|discriminate].
  exists n. repeat split; auto.
  symmetry. apply filter_all.
  destruct (Hok p n E) as [_ HF].
  eapply Forall_impl; [exact HF|]. intros c Hc. simpl in Hc.
  destruct (h !! c); [eauto|discriminate].
Qed.

Lemma src_stripped_names strip h h' q pn' :
  src_stripped strip h h' -> h' !! q = Some pn' ->
  exists pn, h !! q = Some pn /\ s_name pn' = s_name pn.
Proof.
  intros H E. specialize (H q). rewrite E in H.
  destruct H as (pn & ? & ? & ? & _). eauto.
Qed.

Lemma src_stripped_trans strip h1 h2 h3 :
  src_stripped strip h1 h2 -> src_stripped strip h2 h3 ->
  src_stripped strip h1 h3.
Proof.
  intros H12 H23 p.
  pose proof (H12 p) as A. pose proof (H23 p) as B.
  destruct (h3 !! p) as [n3|] eqn:E3.
  - destruct B as (n2 & E2 & ? & ? & ? & ? & C3). rewrite E2 in A.
    destruct A as (n1 & E1 & ? & ? & ? & ? & C2).
    exists n1. repeat split; try congruence.
    rewrite C3, C2, list_filter_filter. apply filter_agree.
    apply Forall_forall. intros c _. split; [tauto|].
    intros [n Hc]. split; [eauto|].
    destruct (src_stripped_names strip _ _ _ _ H23 Hc) as (? & ? & _). eauto.
  - intros n1 E1. destruct (h2 !! p) as [n2|] eqn:E2.
    + destruct A as (n1' & E1' & ? & ? & ? & ? & _).
      assert (n1' = n1) by congruence. subst n1'.
      eapply (stripped_sort_same strip h1 h2 n1 n2); auto.
      intros q pn'. apply (src_stripped_names strip). exact H12.
    + eauto.
Qed.

(** *** Unlinking a node *)

Lemma with_s_children_same n : with_s_children n (s_children n) = n.
Proof. destruct n; reflexivity. Qed.

Lemma child_parent h x nx c n :
  tree_ok h -> h !! x = Some nx -> c ∈ s_children nx -> h !! c = Some n ->
  s_parent n = Some x.
Proof.
  intros Hok Ex Hc En. destruct (Hok x nx Ex) as [_ HF].
  rewrite Forall_forall in HF. specialize (HF c Hc).
  rewrite En in HF. simpl in HF. congruence.
Qed.

Lemma prune_not_child h p n x nx :
  tree_ok h -> h !! p = Some n -> h !! x = Some nx ->
  s_parent n <> Some x -> prune p nx = nx.
Proof.
  intros Hok Ep Ex Hne. unfold prune.
  rewrite filter_all; [apply with_s_children_same|].
  apply Forall_forall. intros c Hc ->. apply Hne.
  eapply child_parent; eauto.
Qed.

Lemma unlink_lookup_ne h p n x :
  tree_ok h -> h !! p = Some n -> x <> p ->
  unlink_and_free p h !! x = prune p <$> h !! x.
Proof.
  intros Hok Ep Hx. unfold unlink_and_free. rewrite Ep.
  rewrite lookup_delete_ne by congruence.
  assert (Hother : s_parent n <> Some x -> h !! x = prune p <$> h !! x).
  { intros Hne. destruct (h !! x) as [nx|] eqn:Ex; [|reflexivity].
    simpl. f_equal. symmetry. eapply prune_not_child; eauto. }
  destruct (s_parent n) as [q|] eqn:Eq; [|apply Hother; discriminate].
  destruct (h !! q) as [pn|] eqn:Epn.
  - destruct (decide (x = q)) as [->|Hq].
    + rewrite lookup_insert_eq, Epn. reflexivity.
    + rewrite lookup_insert_ne by congruence. apply Hother. congruence.
  - destruct (decide (x = q)) as [->|Hq].
    + rewrite Epn. reflexivity.
    + apply Hother. congruence.
Qed.

Lemma unlink_lookup_eq h p : unlink_and_free p h !! p = None.
Proof.
  unfold unlink_and_free. destruct (h !! p) eqn:E; [|exact E].
  apply lookup_delete_eq.
Qed.

Lemma unlink_stripped strip h p n :
  tree_ok h -> h !! p = Some n -> stripped_sort strip h n ->
  tree_ok (unlink_and_free p h) /\
  src_stripped strip h (unlink_and_free p h).
Proof.
  intros Hok Ep Hs. split.
  - intros x nx' Ex'.
    destruct (decide (x = p)) as [->|Hx];
      [rewrite unlink_lookup_eq in Ex'; discriminate|].
    rewrite (unlink_lookup_ne h p n x Hok Ep Hx) in Ex'.
    destruct (h !! x) as [nx|] eqn:Ex; [|discriminate].
    simpl in Ex'. injection Ex' as <-. simpl.
    destruct (Hok x nx Ex) as [Hnd HF]. split.
    + apply NoDup_filter. exact Hnd.
    + apply Forall_forall. intros c Hc.
      apply list_elem_of_filter in Hc as [Hcp Hc].
      rewrite Forall_forall in HF. specialize (HF c Hc).
      rewrite (unlink_lookup_ne h p n c Hok Ep Hcp).
      destruct (h !! c); [exact HF|discriminate].
  - intros x. destruct (decide (x = p)) as [->|Hx].
    + rewrite unlink_lookup_eq. intros n' En'.
      assert (n' = n) by congruence. subst n'. exact Hs.
    + rewrite (unlink_lookup_ne h p n x Hok Ep Hx).
      destruct (h !! x) as [nx|] eqn:Ex; [|discriminate]. simpl.
      exists nx. repeat split; auto.
      apply filter_agree. apply Forall_forall. intros c Hc.
      destruct (Hok x nx Ex) as [_ HF].
      rewrite Forall_forall in HF. specialize (HF c Hc).
      split.
      * intros Hcp. rewrite (unlink_lookup_ne h p n c Hok Ep Hcp).
        destruct (h !! c); [simpl; eauto|discriminate].
      * intros [n' Hn'] ->. rewrite unlink_lookup_eq in Hn'. discriminate.
Qed.

(** *** The relation between states *)

Lemma stripping_refl v : stripping True v v.
Proof.
  split; [reflexivity|]. intros Hok _. split; [exact Hok|].
  apply src_stripped_refl. exact Hok.
Qed.

Lemma stripping_trans (P : Prop) a b c :
  stripping True a b -> stripping P b c -> (tree_ok (snd a) -> P) ->
  stripping True a c.
Proof.
  intros [E1 H1] [E2 H2] HP. split; [congruence|].
  intros Hok _. destruct (H1 Hok I) as [Hb S1].
  destruct (H2 Hb (HP Hok)) as [Hc S2]. split; [exact Hc|].
  eapply src_stripped_trans; [exact S1|]. rewrite <- E1. exact S2.
Qed.

Lemma stripping_chain a b c :
  stripping True a b -> stripping True b c -> stripping True a c.
Proof. intros H1 H2. eapply stripping_trans; eauto. Qed.

Lemma stripping_unlink strip h p n :
  h !! p = Some n ->
  (tree_ok h -> stripped_sort strip h n) ->
  stripping True (strip, h) (strip, unlink_and_free p h).
Proof.
  intros Ep Hs. split; [reflexivity|]. intros Hok _. simpl.
  apply (unlink_stripped strip h p n Hok Ep (Hs Hok)).
Qed.

Lemma stripping_weaken (P : Prop) a b : stripping True a b -> stripping P a b.
Proof. intros [E H]. split; [exact E|]. intros Hok _. apply H; auto. Qed.

Ltac solve_strips :=
  unfold strips_spec, strips_only, stripping_view in *; simpl in *;
  repeat first
    [ eassumption
    | apply stripping_refl
    | eapply stripping_chain; [eassumption|] ].

Section Stripping.

Variable X : externals.

Lemma xmlAddChild_strips parent cur st :
  wp (xmlAddChild parent cur) (fun _ st' => strips_only st st') st.
Proof. unfold xmlAddChild. wp_run; solve_strips. Qed.

Hint Resolve xmlAddChild_strips : wpdb.

Lemma xmlSetNsProp_strips p ns nm v st :
  wp (xmlSetNsProp p ns nm v) (fun _ st' => strips_only st st') st.
Proof. unfold xmlSetNsProp. wp_run; solve_strips. Qed.

Hint Resolve xmlSetNsProp_strips : wpdb.

Lemma xmlSetProperties_strips p ps st :
  wp (xmlSetProperties p ps) (fun _ st' => strips_only st st') st.
Proof. unfold xmlSetProperties. wp_run; solve_strips. Qed.

Hint Resolve xmlSetProperties_strips : wpdb.

Lemma xpath_setup_strips nd st :
  wp (xpath_setup nd) (fun _ st' => strips_only st st') st.
Proof. unfold xpath_setup. wp_run; solve_strips. Qed.

Hint Resolve xpath_setup_strips : wpdb.

Lemma xsltSort_keys_strips prop number tab : forall i st,
  wp (xsltSort_keys X prop number tab i) (fun _ st' => strips_only st st') st.
Proof.
  induction tab as [|n rest IH]; intros i st; simpl.
  - wp_run. solve_strips.
  - wp_run. solve_strips.
Qed.

Hint Resolve xsltSort_keys_strips : wpdb.

Lemma xsltSort_strips nd inst st :
  wp (xsltSort X nd inst) (fun _ st' => strips_only st st') st.
Proof. unfold xsltSort. wp_run; solve_strips. Qed.

Hint Resolve xsltSort_strips : wpdb.

Lemma skip_sorts_strips nd cs : forall k st,
  wp (skip_sorts X nd cs k) (fun _ st' => strips_only st st') st.
Proof.
  induction cs as [|c rest IH]; intros k st; simpl.
  - wp_run. solve_strips.
  - wp_run; solve_strips.
Qed.

Hint Resolve skip_sorts_strips : wpdb.

Lemma node_loop_strips (body : ptr -> M unit) tab :
  (forall p st, wp (body p) (fun _ st' => strips_only st st') st) ->
  forall i st, wp (node_loop body tab i) (fun _ st' => strips_only st st') st.
Proof.
  intros Hbody. induction tab as [|p rest IH]; intros i st; simpl.
  - wp_run. solve_strips.
  - unfold enter_iteration. wp_run. solve_strips.
Qed.

Lemma iterate_selected_strips nd inst list (body : nat -> ptr -> M unit) st :
  (forall k p st, wp (body k p) (fun _ st' => strips_only st st') st) ->
  wp (iterate_selected X nd inst list body)
     (fun _ st' => strips_only st st') st.
Proof.
  intros Hbody. unfold iterate_selected, open_selected, enter_list, leave_list.
  wp_run.
  eapply wp_mono; [apply node_loop_strips; apply Hbody|]. intros [] s3 H3.
  wp_run. solve_strips.
Qed.

Lemma copy_source_text_strips n st :
  wp (copy_source_text n) (fun _ st' => strips_only st st') st.
Proof. unfold copy_source_text. wp_run; solve_strips. Qed.

Hint Resolve copy_source_text_strips : wpdb.

Lemma xsltCopyNode_strips nd ins st :
  wp (xsltCopyNode nd ins) (fun _ st' => strips_only st st') st.
Proof. unfold xsltCopyNode. wp_run; solve_strips. Qed.

Hint Resolve xsltCopyNode_strips : wpdb.

Lemma xsltValueOf_strips nd inst st :
  wp (xsltValueOf X nd inst) (fun _ st' => strips_only st st') st.
Proof. unfold xsltValueOf. wp_run; solve_strips. Qed.

Hint Resolve xsltValueOf_strips : wpdb.

Lemma xsltApplyTemplates_children_strips cs : forall acc st,
  wp (xsltApplyTemplates_children cs acc)
     (fun _ st' => strips_only st st') st.
Proof.
  induction cs as [|c rest IH]; intros acc st; simpl.
  - wp_run. solve_strips.
  - wp_run; try solve [solve_strips].
    all: unfold strips_only, stripping_view in *; simpl in *;
      (eapply stripping_chain; [|eassumption]);
      (eapply stripping_unlink; [eassumption|]); intros _.
    all: try solve [left; unfold other_kind;
                    repeat split; congruence].
    all: right; split; [assumption|];
      do 3 eexists; repeat split; try eassumption;
      apply apply_templates_strips_policy; assumption.
Qed.

Hint Resolve xsltApplyTemplates_children_strips : wpdb.

Lemma xsltCallTemplate_params_strips cs : forall hp st,
  wp (xsltCallTemplate_params cs hp) (fun _ st' => strips_only st st') st.
Proof.
  induction cs as [|c rest IH]; intros hp st; simpl.
  - wp_run. solve_strips.
  - unfold xsltParseStylesheetParam. wp_run; solve_strips.
Qed.

Hint Resolve xsltCallTemplate_params_strips : wpdb.

Lemma unwind_strips top path : forall ins st,
  wp (unwind top path ins) (fun _ st' => strips_only st st') st.
Proof.
  induction path as [|i up IH]; intros ins st; simpl.
  - wp_run.
  - wp_run; solve_strips.
Qed.

Hint Resolve unwind_strips : wpdb.

Lemma skip_children_strips w st :
  wp (skip_children w) (fun _ st' => strips_only st st') st.
Proof. unfold skip_children. wp_run; solve_strips. Qed.

Hint Resolve skip_children_strips : wpdb.

Variable rec : call -> M unit.

Hypothesis Hrec : careful rec.

Lemma rec_apply_strips nd l st :
  wp (rec (ApplyOneTemplate nd l)) (fun _ st' => strips_only st st') st.
Proof. apply (Hrec (ApplyOneTemplate nd l)). Qed.

Lemma rec_process_strips nd st :
  wp (rec (ProcessOneNode nd)) (fun _ st' => strips_only st st') st.
Proof. apply (Hrec (ProcessOneNode nd)). Qed.

Lemma rec_walk_strips nd oldInsert w st :
  wp (rec (TemplateLoop nd oldInsert w)) (fun _ st' => strips_only st st') st.
Proof. apply (Hrec (TemplateLoop nd oldInsert w)). Qed.

Hint Resolve rec_apply_strips rec_process_strips rec_walk_strips : wpdb.

Lemma xsltEvalTemplateString_strips nd parent st :
  wp (xsltEvalTemplateString rec nd parent)
     (fun _ st' => strips_only st st') st.
Proof. unfold xsltEvalTemplateString. wp_run; solve_strips. Qed.

Hint Resolve xsltEvalTemplateString_strips : wpdb.

Lemma xsltComment_strips nd inst st :
  wp (xsltComment rec nd inst) (fun _ st' => strips_only st st') st.
Proof. unfold xsltComment. wp_run; solve_strips. Qed.

Hint Resolve xsltComment_strips : wpdb.

Lemma xsltProcessingInstruction_strips nd inst st :
  wp (xsltProcessingInstruction X rec nd inst)
     (fun _ st' => strips_only st st') st.
Proof. unfold xsltProcessingInstruction. wp_run; solve_strips. Qed.

Hint Resolve xsltProcessingInstruction_strips : wpdb.

Lemma xsltAttribute_strips nd inst st :
  wp (xsltAttribute X rec nd inst) (fun _ st' => strips_only st st') st.
Proof. unfold xsltAttribute. wp_run; solve_strips. Qed.

Hint Resolve xsltAttribute_strips : wpdb.

Lemma xsltCallTemplate_strips nd inst st :
  wp (xsltCallTemplate rec nd inst) (fun _ st' => strips_only st st') st.
Proof. unfold xsltCallTemplate. wp_run; solve_strips. Qed.

Hint Resolve xsltCallTemplate_strips : wpdb.

Lemma xsltApplyTemplates_strips nd inst st :
  wp (xsltApplyTemplates X rec nd inst) (fun _ st' => strips_only st st') st.
Proof.
  unfold xsltApplyTemplates. wp_run; try solve [solve_strips].
  all: eapply wp_mono;
    [apply iterate_selected_strips; intros; apply rec_process_strips|];
    intros; solve_strips.
Qed.

Hint Resolve xsltApplyTemplates_strips : wpdb.

Lemma xsltIf_strips nd inst st :
  wp (xsltIf X rec nd inst) (fun _ st' => strips_only st st') st.
Proof. unfold xsltIf. wp_run; solve_strips. Qed.

Hint Resolve xsltIf_strips : wpdb.

Lemma xsltForEach_strips nd inst st :
  wp (xsltForEach X rec nd inst) (fun _ st' => strips_only st st') st.
Proof.
  unfold xsltForEach. wp_run; try solve [solve_strips].
  all: eapply wp_mono;
    [apply iterate_selected_strips; intros; apply rec_apply_strips|];
    intros; solve_strips.
Qed.

Hint Resolve xsltForEach_strips : wpdb.

Lemma xsltDefaultProcessOneNode_strips nd st :
  wp (xsltDefaultProcessOneNode rec nd) (fun _ st' => strips_only st st') st.
Proof.
  unfold xsltDefaultProcessOneNode. wp_run; try solve [solve_strips].
  all: match goal with
       | H : strips_spec (DefaultLoop _ _ _) _ _ |- _ =>
           simpl in H; unfold strips_only;
           (eapply stripping_trans; [apply stripping_refl|exact H|])
       end;
    intros _ pn Epn; simpl in Epn;
    (split; [|left; reflexivity]);
    intros p Hp;
    match goal with
    | E : src (mem _) !! _ = Some ?n |- _ =>
        assert (pn = n) by congruence; subst pn
    end;
    destruct (s_children _) as [|a' l]; simpl in Hp; [discriminate|];
    injection Hp as ->; constructor.
Qed.

Hint Resolve xsltDefaultProcessOneNode_strips : wpdb.

Lemma xsltProcessOneNode_strips nd st :
  wp (xsltProcessOneNode X rec nd) (fun _ st' => strips_only st st') st.
Proof. unfold xsltProcessOneNode. wp_run; solve_strips. Qed.

Lemma cache_kept parent s st st1 :
  strips_only st st1 -> tree_ok (src (mem st)) ->
  (forall pn0, src (mem st) !! parent = Some pn0 -> cached s pn0 st) ->
  forall pn, src (mem st1) !! parent = Some pn -> cached s pn st1.
Proof.
  intros [E H] Hok Hc pn Epn. simpl in *. destruct (H Hok I) as [_ S].
  destruct (src_stripped_names _ _ _ _ _ S Epn) as (pn0 & E0 & En).
  destruct (Hc pn0 E0) as [->|(m & Em & Es)]; [left; reflexivity|right].
  exists m. rewrite E, En. auto.
Qed.

Lemma ready_facts parent p s st st1 n pn :
  strips_only st st1 -> tree_ok (src (mem st)) ->
  loop_ready parent (Some p) s st ->
  src (mem st) !! p = Some n -> src (mem st1) !! parent = Some pn ->
  exists pn0,
    src (mem st) !! parent = Some pn0 /\ s_name pn = s_name pn0 /\
    stripSpaces (style (ctxt st1)) = stripSpaces (style (ctxt st)) /\
    s_parent n = Some parent /\ cached s pn0 st.
Proof.
  intros [E H] Hok Hready Ep Epn. simpl in *. destruct (H Hok I) as [_ S].
  destruct (src_stripped_names _ _ _ _ _ S Epn) as (pn0 & E0 & En).
  destruct (Hready pn0 E0) as [Hin Hc].
  exists pn0. repeat split; auto.
  eapply child_parent; eauto.
Qed.

Lemma cached_moved s pn pn0 st st1 :
  s_name pn = s_name pn0 ->
  stripSpaces (style (ctxt st1)) = stripSpaces (style (ctxt st)) ->
  cached s pn0 st -> cached s pn st1.
Proof.
  intros En Es [->|(m & Em & ->)]; [left; reflexivity|right].
  exists m. rewrite Es, En. auto.
Qed.

Lemma xsltDefaultProcessOneNode_loop_strips parent cur s st :
  wp (xsltDefaultProcessOneNode_loop rec parent cur s)
     (fun _ st' => strips_spec (DefaultLoop parent cur s) st st') st.
Proof.
  unfold xsltDefaultProcessOneNode_loop, strips_spec.
  destruct cur as [p|];
    [|apply wp_ret; apply stripping_weaken, stripping_refl].
  do 4 wp_prim.
  apply wp_bind. eapply (wp_mono _ (decided parent p s st)).
  - wp_run.
    all: split; [solve [solve_strips]|]; intros Hok Hready pn Epn.
    all: simpl.
    all: match goal with
         | Ep : src (mem ?st) !! ?p = Some ?n,
           Hok : tree_ok (src (mem ?st)),
           Hready : loop_ready ?parent (Some ?p) ?s ?st,
           Epn : src (mem ?s1) !! ?parent = Some ?pn |- _ =>
             let K := fresh "K" in
             assert (K : strips_only st s1)
               by first [apply stripping_refl | solve [solve_strips]];
             destruct (ready_facts parent p s st s1 n pn K Hok Hready
                         Ep Epn)
               as (pn0 & E0' & En & Es & Epar & Hc)
         end.
    all: split;
      [ first [ solve [eapply cached_moved; eauto]
              | idtac ]
      | first [ discriminate
              | intros _; eexists; split; [eassumption|];
                first [ solve [left; unfold other_kind;
                               repeat split; congruence]
                      | idtac ] ] ].
    all: try match goal with
             | A : s_parent ?x = Some ?q, B : s_parent ?x = Some ?q' |- _ =>
                 assert (q = q') by congruence; subst q
             end.
    all: repeat match goal with
                | A : ?h !! ?q = Some ?x, B : ?h !! ?q = Some ?y |- _ =>
                    lazymatch x with
                    | y => fail
                    | _ => assert (x = y) by congruence; subst x
                    end
                end.
    all: try solve [eapply cached_moved; [exact En|exact Es|];
                    right; eexists; split; [eassumption|reflexivity]].
    all: right; split; [assumption|];
      do 3 eexists; repeat split; try eassumption;
      rewrite <- default_strip_spaces_policy.
    all: try assumption.
    all: destruct Hc as [->|(m & Em & ->)]; [discriminate|].
    all: assert (m = g) by congruence; subst m; assumption.
  - intros [delete s'] st1 [K HQ]. simpl in HQ.
    wp_run.
    + destruct K as [Ek HK]. destruct H as [Eh HH].
      unfold stripping_view in *. simpl in *.
      split; [simpl; congruence|]. simpl. intros Hok Hready.
      destruct (HK Hok I) as [Hok1 S1].
      destruct (HQ Hok Hready s1 eq_refl) as [Hc Hd].
      destruct (Hd eq_refl) as (n1 & En1 & Hs).
      destruct (unlink_stripped _ _ _ _ Hok1 En1 Hs) as [Hok2 S2].
      rewrite Ek in S2, HH.
      destruct HH as [Hok' S3]; [exact Hok2| |].
      * intros pn2 Epn2. simpl in Epn2.
        destruct (decide (parent = p)) as [->|Hne];
          [rewrite unlink_lookup_eq in Epn2; discriminate|].
        rewrite (unlink_lookup_ne _ _ _ _ Hok1 En1 Hne), E0 in Epn2.
        simpl in Epn2. injection Epn2 as <-. split.
        -- intros x Hx. simpl. apply list_elem_of_filter.
           destruct (Hok1 parent s1 E0) as [Hnd _].
           destruct (next_in_spec _ _ _ Hnd Hx). split; assumption.
        -- exact Hc.
      * split; [exact Hok'|].
        eapply src_stripped_trans; [exact S1|].
        eapply src_stripped_trans; [exact S2|exact S3].
    + destruct K as [Ek HK]. destruct H as [Eh HH].
      unfold stripping_view in *. simpl in *.
      split; [simpl; congruence|]. simpl. intros Hok Hready.
      destruct (HK Hok I) as [Hok1 S1].
      destruct (HQ Hok Hready s1 eq_refl) as [Hc _].
      rewrite Ek in HH.
      destruct HH as [Hok' S3]; [exact Hok1| |].
      * intros pn2 Epn2. assert (pn2 = s1) by congruence. subst pn2. split.
        -- intros x Hx. destruct (Hok1 parent s1 E0) as [Hnd _].
           destruct (next_in_spec _ _ _ Hnd Hx). assumption.
        -- exact Hc.
      * split; [exact Hok'|].
        eapply src_stripped_trans; [exact S1|exact S3].
Qed.

(** *** The walk of a template body *)
Lemma instruction_strips nd oldInsert ins cur hv st :
  wp (xsltApplyOneTemplate_instruction X rec nd oldInsert ins cur hv)
     (fun _ st' => strips_only st st') st.
Proof.
  unfold xsltApplyOneTemplate_instruction, xsltParseStylesheetVariable,
    xsltParseStylesheetParam.
  wp_run; solve_strips.
Qed.

Hint Resolve instruction_strips : wpdb.

Lemma xsltApplyOneTemplate_step_strips nd oldInsert w st :
  wp (xsltApplyOneTemplate_step X rec nd oldInsert w)
     (fun _ st' => strips_only st st') st.
Proof. unfold xsltApplyOneTemplate_step. wp_run; solve_strips. Qed.

Hint Resolve xsltApplyOneTemplate_step_strips : wpdb.

Lemma xsltApplyOneTemplate_loop_strips nd oldInsert w st :
  wp (xsltApplyOneTemplate_loop X rec nd oldInsert w)
     (fun _ st' => strips_only st st') st.
Proof. unfold xsltApplyOneTemplate_loop. wp_run; solve_strips. Qed.

Lemma xsltApplyOneTemplate_strips nd list st :
  wp (xsltApplyOneTemplate rec nd list) (fun _ st' => strips_only st st') st.
Proof. unfold xsltApplyOneTemplate. wp_run; solve_strips. Qed.


End Stripping.

Lemma exec_careful X fuel : careful (exec X fuel).
Proof.
  induction fuel as [|f IH]; intros c st; [exact I|].
  destruct c; simpl.
  - apply xsltApplyOneTemplate_strips; exact IH.
  - apply xsltProcessOneNode_strips; exact IH.
  - apply xsltApplyOneTemplate_loop_strips; exact IH.
  - apply xsltDefaultProcessOneNode_loop_strips; exact IH.
Qed.

(** Whether a tree is well linked can be computed. *)
Lemma tree_ok_dec h : Decision (tree_ok h).
Proof.
  unfold tree_ok.
  apply (map_Forall_dec (fun p n =>
    NoDup (s_children n) /\
    Forall (fun c => s_parent <$> h !! c = Some (Some p)) (s_children n))).
Defined.

(** C5 as stated fails: on <r><!--c--></r> the default rule removes the
    comment from the source tree, which is no blank text node. *)
Lemma default_rule_removes_comment :
  xsltDefaultProcessOneNode (exec Demo.engine 20) 1%nat
    (Demo.start Demo.plain Demo.commented None)
  = Done tt
      (Demo.final
         (xsltDefaultProcessOneNode (exec Demo.engine 20) 1%nat
            (Demo.start Demo.plain Demo.commented None))
         (Demo.start Demo.plain Demo.commented None)) /\
  ~ only_blank_text_removed
      (src (mem (Demo.start Demo.plain Demo.commented None)))
      (src (mem (Demo.final
         (xsltDefaultProcessOneNode (exec Demo.engine 20) 1%nat
            (Demo.start Demo.plain Demo.commented None))
         (Demo.start Demo.plain Demo.commented None)))).
Proof.
  split; [vm_compute; reflexivity|].
  intros H.
  specialize (H 2%nat (Demo.snode XML_COMMENT_NODE "comment" "c" (Some 1%nat) [])).
  assert (E : IS_BLANK_NODE
                (Demo.snode XML_COMMENT_NODE "comment" "c" (Some 1%nat) [])
              = true).
  { apply H; vm_compute; reflexivity. }
  vm_compute in E. discriminate E.
Qed.

(** C5, as amended.  In the walk of the children under the default rule,
    a child that is neither element, document, text nor CDATA is not
    processed: it is unlinked from the source tree and freed, and the
    walk goes on with its next sibling.  A run of the default rule on a
    well linked source tree, with all that it calls, removes nodes of
    two sorts only, the nodes of these kinds and the blank text nodes
    that the strip/preserve map of the stylesheet designates for
    stripping by the name of their parent; every other node is still
    there with its type, name, content and parent, and its children are
    the former ones less the removed nodes, in the same order. *)
Theorem default_rule_unlinks_skipped :
  (forall rec parent p s st n pn,
      src (mem st) !! p = Some n -> other_kind n ->
      src (mem st) !! parent = Some pn ->
      xsltDefaultProcessOneNode_loop rec parent (Some p) s st =
        rec (DefaultLoop parent (next_in (s_children pn) p) s)
            (set_mem (fun m => with_src (unlink_and_free p (src m)) m) st)) /\
  (forall X fuel nd st st',
      tree_ok (src (mem st)) ->
      xsltDefaultProcessOneNode (exec X fuel) nd st = Done tt st' ->
      tree_ok (src (mem st')) /\
      src_stripped (stripSpaces (style (ctxt st)))
                   (src (mem st)) (src (mem st'))).
Proof.
  split.
  - intros rec parent p s st n pn Hp (H1 & H2 & H3 & H4 & H5) Hparent.
    unfold xsltDefaultProcessOneNode_loop, bind, get. rewrite Hp. simpl.
    destruct (s_type n); try contradiction; simpl; rewrite Hparent; reflexivity.
  - intros X fuel nd st st' Hok H.
    pose proof (wp_done _ _ _ _ _
      (xsltDefaultProcessOneNode_strips (exec X fuel) (exec_careful X fuel)
         nd st) H) as [_ R].
    apply R; [exact Hok|exact I].
Qed.

Lemma default_rule_unlinks_skipped_witness :
  tree_ok (src (mem (Demo.start Demo.plain Demo.commented None))) /\
  xsltDefaultProcessOneNode (exec Demo.engine 20) 1%nat
    (Demo.start Demo.plain Demo.commented None)
  = Done tt
      (Demo.final
         (xsltDefaultProcessOneNode (exec Demo.engine 20) 1%nat
            (Demo.start Demo.plain Demo.commented None))
         (Demo.start Demo.plain Demo.commented None)) /\
  src_stripped (stripSpaces Demo.plain)
    (src (mem (Demo.start Demo.plain Demo.commented None)))
    (src (mem (Demo.final
         (xsltDefaultProcessOneNode (exec Demo.engine 20) 1%nat
            (Demo.start Demo.plain Demo.commented None))
         (Demo.start Demo.plain Demo.commented None)))).
Proof.
  assert (Hok : tree_ok
                  (src (mem (Demo.start Demo.plain Demo.commented None)))).
  { apply (@bool_decide_unpack _ (tree_ok_dec _)). vm_compute. exact I. }
  assert (H : xsltDefaultProcessOneNode (exec Demo.engine 20) 1%nat
    (Demo.start Demo.plain Demo.commented None)
  = Done tt
      (Demo.final
         (xsltDefaultProcessOneNode (exec Demo.engine 20) 1%nat
            (Demo.start Demo.plain Demo.commented None))
         (Demo.start Demo.plain Demo.commented None)))
    by (vm_compute; reflexivity).
  split; [exact Hok|]. split; [exact H|].
  exact (proj2 (proj2 default_rule_unlinks_skipped _ _ _ _ _ Hok H)).
Defined.

(** C4.  The default rule follows the stripping policy of the
    specification, xsltApplyTemplates does not: it never consults the
    wildcard entry.  With the map that strips every element, the blank
    text child of r in <r>{blank}<!--c-->z</r> is removed by the default
    rule and kept by xsl:apply-templates. *)
Theorem strip_sites_differ :
  (forall strip nm,
      Z.eqb (default_strip_spaces strip nm) 1 = strip_policy strip nm) /\
  strip_policy {["*" := "strip"]} "r" = true /\
  apply_templates_strips {["*" := "strip"]} "r" = false /\
  src (mem (Demo.final
              (xsltDefaultProcessOneNode (exec Demo.engine 20) 1%nat
                 (Demo.start Demo.strip_all Demo.blank Demo.busy))
              (Demo.start Demo.strip_all Demo.blank Demo.busy))) !! 2%nat
    = None /\
  src (mem (Demo.final
              (xsltApplyTemplates Demo.engine (exec Demo.engine 20)
                 (Some 1%nat) (Demo.instr "apply-templates" [] [])
                 (Demo.start Demo.strip_all Demo.blank Demo.busy))
              (Demo.start Demo.strip_all Demo.blank Demo.busy))) !! 2%nat
    = Some (Demo.snode XML_TEXT_NODE "text" "  " (Some 1%nat) []).
Proof.
  split; [|repeat split; vm_compute; reflexivity].
  intros strip nm. unfold default_strip_spaces, strip_policy.
  destruct (strip !! nm) as [v|]; destruct (strip !! "*") as [w|];
    repeat match goal with
           | |- context [String.eqb ?a ?b] =>
               let E := fresh "E" in
               destruct (String.eqb a b) eqn:E;
               try (apply String.eqb_eq in E; subst)
           end; simpl in *; try reflexivity; try discriminate.
Qed.

(** C1.  The test that guards the attachment of the internal subset
    assigns XSLT_OUTPUT_XML to the output type instead of comparing with
    it: its outcome does not depend on the output method.  When
    XSLT_OUTPUT_XML is 0, an XML transformation with a declared DOCTYPE
    and a root element gets no internal subset; were it not 0, a text
    transformation would get one. *)
Theorem doctype_guard_ignores_method :
  (forall X s k t st,
      attach_doctype X s k (set_ctxt (with_type t) st) =
      attach_doctype X s k st) /\
  forall xml_first : bool,
    if xml_first
    then
      result_root
        (xsltApplyStylesheet (Demo.engine_numbered true) 20
           (Some (Demo.with_doctype (Some "xml"))) (Some 0%nat)
           (Demo.memory_of Demo.hello)) = Some "out" /\
      result_subset
        (xsltApplyStylesheet (Demo.engine_numbered true) 20
           (Some (Demo.with_doctype (Some "xml"))) (Some 0%nat)
           (Demo.memory_of Demo.hello)) = Some None
    else
      result_subset
        (xsltApplyStylesheet (Demo.engine_numbered false) 20
           (Some (Demo.with_doctype (Some "text"))) (Some 0%nat)
           (Demo.memory_of Demo.hello))
      = Some (Some {| dtd_name := "out"; ExternalID := None;
                      SystemID := Some "out.dtd" |}).
Proof.
  split.
  - intros X s k t st. reflexivity.
  - intros []; vm_compute; auto.
Qed.

Lemma xsltApplyStylesheet_null_witness :
  ((None : option xsltStylesheet) = None \/ Some 0%nat = None) /\
  xsltApplyStylesheet Demo.engine 20 None (Some 0%nat)
    (Demo.memory_of Demo.hello)
  = Returns None (Demo.memory_of Demo.hello).
Proof.
  split; [left; reflexivity|].
  apply (xsltApplyStylesheet_null Demo.engine 20 None (Some 0%nat)).
  left; reflexivity.
Defined.

Lemma xsltAttribute_after_children_witness :
  insert (ctxt Demo.filled) = Some {| p_root := 0%nat; p_path := [0%nat] |} /\
  forest_at (out (mem Demo.filled)) {| p_root := 0%nat; p_path := [0%nat] |}
  = Some (with_children (new_node XML_ELEMENT_NODE "out" "")
            [new_node XML_TEXT_NODE "text" "x"]) /\
  o_children (with_children (new_node XML_ELEMENT_NODE "out" "")
                [new_node XML_TEXT_NODE "text" "x"]) <> [] /\
  exists st',
    xsltAttribute Demo.engine (exec Demo.engine 20) (Some 0%nat)
      Demo.attribute_id Demo.filled = Done tt st' /\
    errors (mem st') =
      errors (mem Demo.filled)
      ++ ["xslt:attribute : node has already children"] /\
    out (mem st') = out (mem Demo.filled).
Proof.
  assert (H1 : insert (ctxt Demo.filled)
               = Some {| p_root := 0%nat; p_path := [0%nat] |})
    by reflexivity.
  assert (H2 : forest_at (out (mem Demo.filled))
                 {| p_root := 0%nat; p_path := [0%nat] |}
               = Some (with_children (new_node XML_ELEMENT_NODE "out" "")
                         [new_node XML_TEXT_NODE "text" "x"]))
    by reflexivity.
  assert (H3 : o_children (with_children (new_node XML_ELEMENT_NODE "out" "")
                [new_node XML_TEXT_NODE "text" "x"]) <> [])
    by (simpl; discriminate).
  split; [exact H1|]. split; [exact H2|]. split; [exact H3|].
  destruct (xsltAttribute_after_children Demo.engine (exec Demo.engine 20)
              (Some 0%nat) Demo.attribute_id Demo.filled _ _ H1 H2 H3)
    as (st' & Hrun & Herr & Hout & _).
  exists st'. split; [exact Hrun|]. split; [exact Herr|exact Hout].
Defined.

Lemma xsltCallTemplate_unknown_witness :
  insert (ctxt (Demo.start Demo.plain Demo.hello None)) = Some Demo.root /\
  xmlGetNsProp Demo.call_nowhere "name" XSLT_NAMESPACE = Some "nowhere" /\
  xsltFindTemplate (style (ctxt (Demo.start Demo.plain Demo.hello None)))
    (called_name "nowhere")
    (href <$> called_ns (out (mem (Demo.start Demo.plain Demo.hello None)))
                        Demo.root "nowhere") = None /\
  xsltCallTemplate (exec Demo.engine 20) (Some 0%nat) Demo.call_nowhere
    (Demo.start Demo.plain Demo.hello None) = Fault.
Proof.
  assert (H1 : insert (ctxt (Demo.start Demo.plain Demo.hello None))
               = Some Demo.root) by reflexivity.
  assert (H2 : xmlGetNsProp Demo.call_nowhere "name" XSLT_NAMESPACE
               = Some "nowhere") by reflexivity.
  assert (H3 : xsltFindTemplate
                 (style (ctxt (Demo.start Demo.plain Demo.hello None)))
                 (called_name "nowhere")
                 (href <$> called_ns
                    (out (mem (Demo.start Demo.plain Demo.hello None)))
                    Demo.root "nowhere") = None) by reflexivity.
  split; [exact H1|]. split; [exact H2|]. split; [exact H3|].
  exact (xsltCallTemplate_unknown (Some 0%nat) Demo.call_nowhere
           (Demo.start Demo.plain Demo.hello None) Demo.root "nowhere"
           H1 H2 H3 (exec Demo.engine 20)).
Defined.

Lemma xsltIf_without_result_witness :
  xmlGetNsProp Demo.if_unknown "test" XSLT_NAMESPACE = Some "unknown()" /\
  xpath_setup 0%nat (Demo.start Demo.plain Demo.hello None)
  = Done true
      (Demo.final (xpath_setup 0%nat (Demo.start Demo.plain Demo.hello None))
                  (Demo.start Demo.plain Demo.hello None)) /\
  xmlXPathBooleanFunction Demo.engine
    (Demo.final (xpath_setup 0%nat (Demo.start Demo.plain Demo.hello None))
                (Demo.start Demo.plain Demo.hello None))
    (xmlXPathEvalExpr Demo.engine
       (Demo.final (xpath_setup 0%nat (Demo.start Demo.plain Demo.hello None))
                   (Demo.start Demo.plain Demo.hello None))
       "unknown()") = None /\
  map Demo.render
    (out (mem (Demo.final
                 (xsltIf Demo.engine (exec Demo.engine 20) (Some 0%nat)
                    Demo.if_unknown (Demo.start Demo.plain Demo.hello None))
                 (Demo.start Demo.plain Demo.hello None))))
  = ["YES"].
Proof.
  assert (H1 : xmlGetNsProp Demo.if_unknown "test" XSLT_NAMESPACE
               = Some "unknown()") by reflexivity.
  assert (H2 : xpath_setup 0%nat (Demo.start Demo.plain Demo.hello None)
  = Done true
      (Demo.final (xpath_setup 0%nat (Demo.start Demo.plain Demo.hello None))
                  (Demo.start Demo.plain Demo.hello None)))
    by (vm_compute; reflexivity).
  assert (H3 : xmlXPathBooleanFunction Demo.engine
    (Demo.final (xpath_setup 0%nat (Demo.start Demo.plain Demo.hello None))
                (Demo.start Demo.plain Demo.hello None))
    (xmlXPathEvalExpr Demo.engine
       (Demo.final (xpath_setup 0%nat (Demo.start Demo.plain Demo.hello None))
                   (Demo.start Demo.plain Demo.hello None))
       "unknown()") = None) by (vm_compute; reflexivity).
  split; [exact H1|]. split; [exact H2|]. split; [exact H3|].
  rewrite (xsltIf_without_result Demo.engine (exec Demo.engine 20) 0%nat
             Demo.if_unknown "unknown()" _ _ H1 H2 H3).
  vm_compute. reflexivity.
Defined.

(** * Further properties of the code *)

(** ** The result tree only grows *)

Lemma append_nil_r s : s +:+ "" = s.
Proof.
  induction s as [|c s IH]; [reflexivity|].
  change (String c (s +:+ "") = String c s). now rewrite IH.
Qed.

Lemma append_assoc a b c : (a +:+ b) +:+ c = a +:+ (b +:+ c).
Proof.
  induction a as [|x a IH]; [reflexivity|].
  change (String x ((a +:+ b) +:+ c) = String x (a +:+ (b +:+ c))).
  now rewrite IH.
Qed.

Lemma extends_refl n : extends n n.
Proof.
  repeat split; auto. exists "". symmetry. apply append_nil_r.
Qed.

Lemma extends_trans a b c : extends a b -> extends b c -> extends a c.
Proof.
  intros (? & ? & ? & ? & s1 & E1) (? & ? & ? & ? & s2 & E2).
  repeat split; try congruence.
  exists (s1 +:+ s2). rewrite E2, E1. apply append_assoc.
Qed.

Lemma extends_with_children t cs : extends t (with_children t cs).
Proof.
  repeat split; auto. exists "". symmetry. apply append_nil_r.
Qed.

Lemma extends_with_properties t ps : extends t (with_properties t ps).
Proof.
  repeat split; auto. exists "". symmetry. apply append_nil_r.
Qed.

Lemma extends_with_content t s :
  extends t (with_content t (o_content t +:+ s)).
Proof. repeat split; auto. exists s. reflexivity. Qed.

Lemma node_grows_refl t : node_grows t t.
Proof. intros path n E. exists n. split; [exact E|apply extends_refl]. Qed.

Lemma grows_refl ts : grows ts ts.
Proof. intros p n E. exists n. split; [exact E|apply extends_refl]. Qed.

Lemma grows_trans a b c : grows a b -> grows b c -> grows a c.
Proof.
  intros H1 H2 p n E. destruct (H1 p n E) as (n1 & E1 & X1).
  destruct (H2 p n1 E1) as (n2 & E2 & X2).
  exists n2. split; [exact E2|]. eapply extends_trans; eauto.
Qed.

(** *** Updating a position and reading it back *)
Lemma list_update_spec {A} (f : A -> option A) : forall l i l',
  list_update l i f = Some l' ->
  exists x y, nth_error l i = Some x /\ f x = Some y /\
    nth_error l' i = Some y /\ length l' = length l /\
    forall j, j <> i -> nth_error l' j = nth_error l j.
Proof.
  induction l as [|a l IH]; intros i l' H; simpl in H; [discriminate|].
  destruct i as [|i].
  - destruct (f a) as [y|] eqn:E; [|discriminate]. injection H as <-.
    exists a, y. repeat split; auto. intros [|j] Hj; [congruence|reflexivity].
  - destruct (list_update l i f) as [l''|] eqn:E; [|discriminate].
    injection H as <-. destruct (IH i l'' E) as (x & y & ? & ? & ? & ? & Hj).
    exists x, y. repeat split; simpl; auto.
    intros [|j] Hne; [reflexivity|]. simpl. apply Hj. congruence.
Qed.

Lemma out_update_at f : forall path t t',
  out_update t path f = Some t' ->
  exists n n', out_at t path = Some n /\ f n = Some n' /\
               out_at t' path = Some n'.
Proof.
  induction path as [|i rest IH]; intros t t' H; simpl in H.
  - exists t, t'. auto.
  - destruct (list_update (o_children t) i _) as [cs|] eqn:E; [|discriminate].
    injection H as <-.
    destruct (list_update_spec _ _ _ _ E) as (x & y & Ex & Ey & Ey' & _ & _).
    destruct (IH _ _ Ey) as (n & n' & ? & ? & ?).
    exists n, n'. simpl. rewrite Ex, Ey'. auto.
Qed.

Lemma forest_update_at f ts p ts' :
  forest_update ts p f = Some ts' ->
  exists n n', forest_at ts p = Some n /\ f n = Some n' /\
               forest_at ts' p = Some n'.
Proof.
  unfold forest_update, forest_at. intros H.
  destruct (list_update_spec _ _ _ _ H) as (x & y & Ex & Ey & Ey' & _ & _).
  rewrite Ex, Ey'. eapply out_update_at; eauto.
Qed.

Lemma out_update_grows f : forall path t t',
  (forall x y, out_at t path = Some x -> f x = Some y -> node_grows x y) ->
  out_update t path f = Some t' -> node_grows t t'.
Proof.
  induction path as [|i rest IH]; intros t t' Hf H; simpl in H.
  - eapply Hf; eauto.
  - destruct (list_update (o_children t) i _) as [cs|] eqn:E; [|discriminate].
    injection H as <-.
    destruct (list_update_spec _ _ _ _ E) as (x & y & Ex & Ey & Ey' & _ & Hj).
    intros [|j q] n Hn; simpl in *.
    + injection Hn as <-. eexists. split; [reflexivity|].
      apply extends_with_children.
    + destruct (decide (j = i)) as [->|Hne].
      * rewrite Ex in Hn. rewrite Ey'. eapply IH; eauto.
        intros x0 y0 Hx0. apply Hf. rewrite Ex. exact Hx0.
      * rewrite (Hj j Hne).
        destruct (nth_error (o_children t) j); [|discriminate].
        exists n. split; [exact Hn|apply extends_refl].
Qed.

Lemma forest_update_grows f ts p ts' :
  (forall x y, forest_at ts p = Some x -> f x = Some y -> node_grows x y) ->
  forest_update ts p f = Some ts' -> grows ts ts'.
Proof.
  intros Hf H. unfold forest_update in H.
  destruct (list_update_spec _ _ _ _ H) as (x & y & Ex & Ey & Ey' & _ & Hj).
  intros q n Hn. unfold forest_at in *.
  destruct (decide (p_root q = p_root p)) as [Eq|Hne].
  - rewrite Eq in *. rewrite Ex in Hn, Hf. rewrite Ey'.
    eapply out_update_grows; eauto.
  - rewrite (Hj _ Hne). destruct (nth_error ts (p_root q)); [|discriminate].
    exists n. split; [exact Hn|apply extends_refl].
Qed.

(** *** xmlAddChild *)
Lemma add_child_cases cs cur :
  add_child cs cur = (cs ++ [cur], length cs) \/
  exists pre l,
    cs = pre ++ [l] /\ o_type cur = XML_TEXT_NODE /\
    o_type l = XML_TEXT_NODE /\
    add_child cs cur =
      (pre ++ [with_content l (o_content l +:+ o_content cur)], length pre).
Proof.
  unfold add_child. destruct (last cs) as [l|] eqn:El; [|left; reflexivity].
  destruct (bool_decide (o_type cur = XML_TEXT_NODE)
            && bool_decide (o_type l = XML_TEXT_NODE)) eqn:Eb;
    [|left; reflexivity].
  right. apply andb_prop in Eb as [E1 E2].
  apply bool_decide_eq_true in E1. apply bool_decide_eq_true in E2.
  apply last_Some in El as [pre ->]. exists pre, l.
  rewrite removelast_last, length_app. simpl.
  replace (length pre + 1 - 1)%nat with (length pre) by lia. auto.
Qed.

Lemma add_child_grows t cur :
  node_grows t (with_children t (fst (add_child (o_children t) cur))).
Proof.
  intros [|j q] n Hn; simpl in Hn.
  { injection Hn as <-. eexists. split; [reflexivity|].
    apply extends_with_children. }
  destruct (nth_error (o_children t) j) as [c|] eqn:Ej; [|discriminate].
  simpl.
  destruct (add_child_cases (o_children t) cur)
    as [-> | (pre & l & Ecs & _ & _ & ->)]; simpl.
  - rewrite nth_error_app1 by (apply nth_error_Some; congruence).
    rewrite Ej. exists n. split; [exact Hn|apply extends_refl].
  - rewrite Ecs in Ej.
    destruct (lt_dec j (length pre)) as [Hlt|Hge].
    + rewrite nth_error_app1 in Ej |- * by exact Hlt.
      rewrite Ej. exists n. split; [exact Hn|apply extends_refl].
    + assert (Hj : (j < length (pre ++ [l]))%nat)
        by (apply nth_error_Some; congruence).
      rewrite length_app in Hj. simpl in Hj.
      assert (j = length pre) by lia. subst j.
      rewrite nth_error_app2 in Ej |- * by lia.
      rewrite Nat.sub_diag in *. simpl in *. injection Ej as <-.
      destruct q as [|k q]; simpl in *.
      * injection Hn as <-. eexists. split; [reflexivity|].
        apply extends_with_content.
      * exists n. split; [exact Hn|apply extends_refl].
Qed.

Lemma with_properties_grows t ps : node_grows t (with_properties t ps).
Proof.
  intros [|j q] n Hn; simpl in *.
  - injection Hn as <-. eexists. split; [reflexivity|].
    apply extends_with_properties.
  - exists n. split; [exact Hn|apply extends_refl].
Qed.

(** Dropping the detached trees that were added after [ts] *)
Lemma grows_detached ts x ts1 :
  grows (ts ++ x) ts1 -> grows ts (firstn (length ts) ts1).
Proof.
  intros H p n Hn. unfold forest_at in *.
  destruct (nth_error ts (p_root p)) as [t|] eqn:Et; [|discriminate].
  assert (Hlt : (p_root p < length ts)%nat)
    by (apply nth_error_Some; congruence).
  destruct (H p n) as (n' & Hn' & Hx).
  { unfold forest_at. rewrite nth_error_app1 by exact Hlt.
    rewrite Et. exact Hn. }
  exists n'. split; [|exact Hx]. unfold forest_at in Hn'.
  rewrite nth_error_firstn.
  destruct (Nat.ltb_spec (p_root p) (length ts)); [exact Hn'|lia].
Qed.

Lemma grows_app ts x : grows ts (ts ++ x).
Proof.
  intros p n Hn. unfold forest_at in *.
  destruct (nth_error ts (p_root p)) as [t|] eqn:Et; [|discriminate].
  rewrite nth_error_app1 by (apply nth_error_Some; congruence).
  rewrite Et. exists n. split; [exact Hn|apply extends_refl].
Qed.

Lemma steady_refl st : steady st st.
Proof. repeat split; auto using grows_refl. Qed.

Lemma steady_trans a b c : steady a b -> steady b c -> steady a c.
Proof.
  intros (? & ? & ? & ? & ? & ? & ?) (? & ? & ? & ? & ? & ? & ?).
  repeat split; try congruence.
  - etransitivity; eauto.
  - eapply grows_trans; eauto.
Qed.

Lemma prefix_snoc {A} (l1 l2 : list A) x :
  l1 `prefix_of` l2 -> l1 `prefix_of` l2 ++ [x].
Proof. apply prefix_app_r. Qed.

Lemma prefix_trans' {A} (l1 l2 l3 : list A) :
  l1 `prefix_of` l2 -> l2 `prefix_of` l3 -> l1 `prefix_of` l3.
Proof. intros; etransitivity; eauto. Qed.

Ltac solve_steady :=
  unfold steady in *; simpl in *;
  repeat match goal with
         | H : _ /\ _ |- _ => destruct H
         end;
  simplify_eq; repeat split; simpl; try congruence;
  eauto 8 using grows_refl, grows_trans, grows_app, prefix_snoc,
    prefix_trans'.

Section Growth.

Variable X : externals.

Lemma xmlAddChild_steady parent cur st :
  wp (xmlAddChild parent cur) (fun _ st' => steady st st') st.
Proof.
  unfold xmlAddChild. wp_run.
  all: first
    [ match goal with
      | E : forest_update _ _ _ = Some ?l0,
        E1 : add_child (o_children ?o0) _ = (?l, _) |- _ =>
          assert (G : grows (out (mem st)) l0);
          [ eapply forest_update_grows; [|exact E];
            intros x y Hx [= <-]; assert (x = o0) by congruence; subst x;
            replace l with (fst (add_child (o_children o0) cur))
              by (rewrite E1; reflexivity);
            apply add_child_grows
          | solve_steady ]
      end
    | solve_steady ].
Qed.

Hint Resolve xmlAddChild_steady : wpdb.

Lemma xmlSetNsProp_steady p ns nm v st :
  wp (xmlSetNsProp p ns nm v) (fun _ st' => steady st st') st.
Proof.
  unfold xmlSetNsProp. wp_run.
  all: first
    [ match goal with
      | E : forest_update _ _ _ = Some ?l0 |- _ =>
          assert (G : grows (out (mem st)) l0);
          [ eapply forest_update_grows; [|exact E];
            intros x y _ [= <-]; apply with_properties_grows
          | solve_steady ]
      end
    | solve_steady ].
Qed.

Hint Resolve xmlSetNsProp_steady : wpdb.

Lemma xmlSetProperties_steady p ps st :
  wp (xmlSetProperties p ps) (fun _ st' => steady st st') st.
Proof.
  unfold xmlSetProperties. wp_run.
  all: first
    [ match goal with
      | E : forest_update _ _ _ = Some ?l0 |- _ =>
          assert (G : grows (out (mem st)) l0);
          [ eapply forest_update_grows; [|exact E];
            intros x y _ [= <-]; apply with_properties_grows
          | solve_steady ]
      end
    | solve_steady ].
Qed.

Hint Resolve xmlSetProperties_steady : wpdb.

Lemma xpath_setup_steady nd st :
  wp (xpath_setup nd) (fun _ st' => steady st st') st.
Proof. unfold xpath_setup. wp_run; solve_steady. Qed.

Hint Resolve xpath_setup_steady : wpdb.

Lemma xsltSort_keys_steady prop number tab : forall i st,
  wp (xsltSort_keys X prop number tab i) (fun _ st' => steady st st') st.
Proof.
  induction tab as [|n rest IH]; intros i st; simpl.
  - wp_run. solve_steady.
  - wp_run. solve_steady.
Qed.

Hint Resolve xsltSort_keys_steady : wpdb.

Lemma xsltSort_steady nd inst st :
  wp (xsltSort X nd inst) (fun _ st' => steady st st') st.
Proof. unfold xsltSort. wp_run; solve_steady. Qed.

Hint Resolve xsltSort_steady : wpdb.

Lemma skip_sorts_steady nd cs : forall k st,
  wp (skip_sorts X nd cs k) (fun _ st' => steady st st') st.
Proof.
  induction cs as [|c rest IH]; intros k st; simpl.
  - wp_run. solve_steady.
  - wp_run; solve_steady.
Qed.

Hint Resolve skip_sorts_steady : wpdb.

Lemma node_loop_steady (body : ptr -> M unit) tab :
  (forall p st, wp (body p) (fun _ st' => steady st st') st) ->
  forall i st, wp (node_loop body tab i) (fun _ st' => steady st st') st.
Proof.
  intros Hbody. induction tab as [|p rest IH]; intros i st; simpl.
  - wp_run. solve_steady.
  - unfold enter_iteration. wp_run. solve_steady.
Qed.

Lemma iterate_selected_steady nd inst list (body : nat -> ptr -> M unit) st :
  (forall k p st, wp (body k p) (fun _ st' => steady st st') st) ->
  wp (iterate_selected X nd inst list body)
     (fun _ st' => steady st st') st.
Proof.
  intros Hbody. unfold iterate_selected, open_selected, enter_list, leave_list.
  wp_run.
  eapply wp_mono; [apply node_loop_steady; apply Hbody|]. intros [] s3 H3.
  wp_run. solve_steady.
Qed.

Lemma copy_source_text_steady n st :
  wp (copy_source_text n) (fun _ st' => steady st st') st.
Proof. unfold copy_source_text. wp_run; solve_steady. Qed.

Hint Resolve copy_source_text_steady : wpdb.

Lemma xsltCopyNode_steady nd ins st :
  wp (xsltCopyNode nd ins) (fun _ st' => steady st st') st.
Proof. unfold xsltCopyNode. wp_run; solve_steady. Qed.

Hint Resolve xsltCopyNode_steady : wpdb.

Lemma xsltValueOf_steady nd inst st :
  wp (xsltValueOf X nd inst) (fun _ st' => steady st st') st.
Proof. unfold xsltValueOf. wp_run; solve_steady. Qed.

Hint Resolve xsltValueOf_steady : wpdb.

Lemma xsltApplyTemplates_children_steady cs : forall acc st,
  wp (xsltApplyTemplates_children cs acc)
     (fun _ st' => steady st st') st.
Proof.
  induction cs as [|c rest IH]; intros acc st; simpl.
  - wp_run. solve_steady.
  - wp_run; solve_steady.
Qed.

Hint Resolve xsltApplyTemplates_children_steady : wpdb.

Lemma xsltCallTemplate_params_steady cs : forall hp st,
  wp (xsltCallTemplate_params cs hp) (fun _ st' => steady st st') st.
Proof.
  induction cs as [|c rest IH]; intros hp st; simpl.
  - wp_run. solve_steady.
  - unfold xsltParseStylesheetParam. wp_run; solve_steady.
Qed.

Hint Resolve xsltCallTemplate_params_steady : wpdb.

Lemma unwind_steady top path : forall ins st,
  wp (unwind top path ins) (fun _ st' => steady st st') st.
Proof.
  induction path as [|i up IH]; intros ins st; simpl.
  - wp_run.
  - wp_run; solve_steady.
Qed.

Hint Resolve unwind_steady : wpdb.

Lemma skip_children_steady w st :
  wp (skip_children w) (fun _ st' => steady st st') st.
Proof. unfold skip_children. wp_run; solve_steady. Qed.

Hint Resolve skip_children_steady : wpdb.

Variable rec : call -> M unit.

Hypothesis Hrec : unmoved rec.

Lemma rec_steady c st : wp (rec c) (fun _ st' => steady st st') st.
Proof. apply Hrec. Qed.

Hint Resolve rec_steady : wpdb.

Lemma xsltEvalTemplateString_steady nd parent st :
  wp (xsltEvalTemplateString rec nd parent)
     (fun _ st' => steady st st') st.
Proof.
  unfold xsltEvalTemplateString. wp_run.
  all: first [ solve [ unfold steady in *; simpl in *;
                       repeat match goal with
                              | H : _ /\ _ |- _ => destruct H
                              end;
                       repeat split; try congruence;
                       eapply grows_detached; eassumption ]
             | solve_steady ].
Qed.

Hint Resolve xsltEvalTemplateString_steady : wpdb.

Lemma xsltComment_steady nd inst st :
  wp (xsltComment rec nd inst) (fun _ st' => steady st st') st.
Proof. unfold xsltComment. wp_run; solve_steady. Qed.

Hint Resolve xsltComment_steady : wpdb.

Lemma xsltProcessingInstruction_steady nd inst st :
  wp (xsltProcessingInstruction X rec nd inst)
     (fun _ st' => steady st st') st.
Proof. unfold xsltProcessingInstruction. wp_run; solve_steady. Qed.

Hint Resolve xsltProcessingInstruction_steady : wpdb.

Lemma xsltAttribute_steady nd inst st :
  wp (xsltAttribute X rec nd inst) (fun _ st' => steady st st') st.
Proof. unfold xsltAttribute. wp_run; solve_steady. Qed.

Hint Resolve xsltAttribute_steady : wpdb.

Lemma xsltCallTemplate_steady nd inst st :
  wp (xsltCallTemplate rec nd inst) (fun _ st' => steady st st') st.
Proof. unfold xsltCallTemplate. wp_run; solve_steady. Qed.

Hint Resolve xsltCallTemplate_steady : wpdb.

Lemma xsltApplyTemplates_steady nd inst st :
  wp (xsltApplyTemplates X rec nd inst) (fun _ st' => steady st st') st.
Proof.
  unfold xsltApplyTemplates. wp_run; try solve [solve_steady].
  all: eapply wp_mono;
    [apply iterate_selected_steady; intros; apply rec_steady|];
    intros; solve_steady.
Qed.

Hint Resolve xsltApplyTemplates_steady : wpdb.

Lemma xsltIf_steady nd inst st :
  wp (xsltIf X rec nd inst) (fun _ st' => steady st st') st.
Proof. unfold xsltIf. wp_run; solve_steady. Qed.

Hint Resolve xsltIf_steady : wpdb.

Lemma xsltForEach_steady nd inst st :
  wp (xsltForEach X rec nd inst) (fun _ st' => steady st st') st.
Proof.
  unfold xsltForEach. wp_run; try solve [solve_steady].
  all: eapply wp_mono;
    [apply iterate_selected_steady; intros; apply rec_steady|];
    intros; solve_steady.
Qed.

Hint Resolve xsltForEach_steady : wpdb.

Lemma xsltDefaultProcessOneNode_steady nd st :
  wp (xsltDefaultProcessOneNode rec nd) (fun _ st' => steady st st') st.
Proof. unfold xsltDefaultProcessOneNode. wp_run; solve_steady. Qed.

Hint Resolve xsltDefaultProcessOneNode_steady : wpdb.

Lemma xsltProcessOneNode_steady nd st :
  wp (xsltProcessOneNode X rec nd) (fun _ st' => steady st st') st.
Proof. unfold xsltProcessOneNode. wp_run; solve_steady. Qed.

Lemma xsltDefaultProcessOneNode_loop_steady parent cur s st :
  wp (xsltDefaultProcessOneNode_loop rec parent cur s)
     (fun _ st' => steady st st') st.
Proof. unfold xsltDefaultProcessOneNode_loop. wp_run; solve_steady. Qed.

Lemma instruction_steady nd oldInsert ins cur hv st :
  wp (xsltApplyOneTemplate_instruction X rec nd oldInsert ins cur hv)
     (fun _ st' => steady st st') st.
Proof.
  unfold xsltApplyOneTemplate_instruction, xsltParseStylesheetVariable,
    xsltParseStylesheetParam.
  wp_run; solve_steady.
Qed.

Hint Resolve instruction_steady : wpdb.

Lemma xsltApplyOneTemplate_step_steady nd oldInsert w st :
  wp (xsltApplyOneTemplate_step X rec nd oldInsert w)
     (fun _ st' => steady st st') st.
Proof. unfold xsltApplyOneTemplate_step. wp_run; solve_steady. Qed.

Hint Resolve xsltApplyOneTemplate_step_steady : wpdb.

Lemma xsltApplyOneTemplate_loop_steady nd oldInsert w st :
  wp (xsltApplyOneTemplate_loop X rec nd oldInsert w)
     (fun _ st' => steady st st') st.
Proof. unfold xsltApplyOneTemplate_loop. wp_run; solve_steady. Qed.

Lemma xsltApplyOneTemplate_steady nd list st :
  wp (xsltApplyOneTemplate rec nd list) (fun _ st' => steady st st') st.
Proof. unfold xsltApplyOneTemplate. wp_run; solve_steady. Qed.

End Growth.

Lemma exec_steady X fuel : unmoved (exec X fuel).
Proof.
  induction fuel as [|f IH]; intros c st; [exact I|].
  destruct c; simpl.
  - apply xsltApplyOneTemplate_steady; exact IH.
  - apply xsltProcessOneNode_steady; exact IH.
  - apply xsltApplyOneTemplate_loop_steady; exact IH.
  - apply xsltDefaultProcessOneNode_loop_steady; exact IH.
Qed.

Lemma wp_conj {A} (m : M A) (Q Q' : A -> state -> Prop) st :
  wp m Q st -> wp m Q' st -> wp m (fun a s => Q a s /\ Q' a s) st.
Proof. unfold wp. destruct (m st); auto. Qed.

Lemma process_effect X fuel nd st :
  wp (exec X fuel (ProcessOneNode nd))
     (fun _ st' => rel keep_all st st' /\ steady st st') st.
Proof.
  apply wp_conj.
  - apply (exec_sound X fuel (ProcessOneNode nd)).
  - apply exec_steady.
Qed.

#[local] Hint Resolve process_effect : wpdb.

Lemma grows_new_tree ts x ts' :
  grows (ts ++ [x]) ts' ->
  exists t, nth_error ts' (length ts) = Some t /\ o_type t = o_type x.
Proof.
  intros G.
  destruct (G {| p_root := length ts; p_path := [] |} x) as (t & Et & Ht).
  - unfold forest_at. simpl. rewrite nth_error_app2 by lia.
    rewrite Nat.sub_diag. reflexivity.
  - unfold forest_at in Et. simpl in Et.
    destruct (nth_error ts' (length ts)) as [t'|]; [|discriminate].
    simpl in Et. injection Et as ->. exists t. split; [reflexivity|apply Ht].
Qed.

Lemma htmlNewDoc_type u e : doc_type (htmlNewDoc u e) = XML_HTML_DOCUMENT_NODE.
Proof. destruct u, e; reflexivity. Qed.

Lemma other_method_some (o : option string) m0 :
  match o with
  | Some m => if String.eqb m "xml" then None else Some m
  | None => None
  end = Some m0 -> o = Some m0.
Proof.
  destruct o as [m|]; [|discriminate].
  destruct (String.eqb m "xml"); [discriminate|]. congruence.
Qed.

Lemma other_method_none (o : option string) :
  match o with
  | Some m => if String.eqb m "xml" then None else Some m
  | None => None
  end = None -> o <> Some "html".
Proof.
  destruct o as [m|]; [|discriminate].
  destruct (String.eqb_spec m "xml") as [->|]; [|discriminate].
  intros _ [=].
Qed.

Lemma xsltApplyStylesheet_run_post X fuel s d st :
  wp (xsltApplyStylesheet_run X fuel s d) (run_post s st) st.
Proof.
  unfold xsltApplyStylesheet_run, new_document, attach_doctype.
  wp_run.
  all: unfold run_post, rel, steady, keep_all, when in *; simpl in *;
    repeat match goal with H : _ /\ _ |- _ => destruct H end;
    simplify_eq.
  all: split; [solve [eauto using src_shrink_refl]|].
  all: split; [solve [eauto using prefix_snoc]|].
  all: split; [solve [eauto using grows_refl, grows_trans, grows_app]|].
  all: intros k Hk; simplify_eq.
  all: split; [reflexivity|].
  all: match goal with
       | G : grows (_ ++ [_]) _ |- _ =>
           destruct (grows_new_tree _ _ _ G) as (t & Et & Ety)
       end.
  all: eexists; exists t; split; [first [reflexivity | eassumption]|].
  all: simpl in *; rewrite ?htmlNewDoc_type in *.
  all: repeat match goal with
              | E : (_ =? _)%string = true |- _ =>
                  apply String.eqb_eq in E; subst
              | E : (_ =? _)%string = false |- _ =>
                  apply String.eqb_neq in E
              | E : match method _ with _ => _ end = Some _ |- _ =>
                  apply other_method_some in E
              | E : match method _ with _ => _ end = None |- _ =>
                  apply other_method_none in E
              end.
  all: case_bool_decide; simplify_eq; repeat split; auto; try congruence.

Qed.

Lemma xsltApplyStylesheet_post X fuel s d m r m' :
  xsltApplyStylesheet X fuel (Some s) (Some d) m = Returns r m' ->
  exists st',
    m' = mem st' /\
    run_post s {| ctxt := xsltNewTransformContext s d; mem := m |} r st'.
Proof.
  unfold xsltApplyStylesheet. intros H.
  match type of H with
  | match ?run ?st0 with _ => _ end = _ =>
      assert (W : wp run (run_post s st0) st0)
  end.
  { wp_run.
    - eapply wp_mono; [apply xsltApplyStylesheet_run_post|].
      intros r0 s1 (H1 & H2 & H3 & H4). simpl in *.
      split; [exact H1|]. split; [exact H2|]. split; [exact H3|exact H4].
    - repeat split; simpl; auto using src_shrink_refl, grows_refl.
      + apply prefix_app_r. reflexivity.
      + discriminate.
      + discriminate.
    - apply xsltApplyStylesheet_run_post. }
  unfold wp in W.
  match type of H with
  | match ?e with _ => _ end = _ => destruct e as [r0 s1| |]
  end; try discriminate.
  injection H as <- <-. exists s1. split; [reflexivity|exact W].
Qed.

Lemma out_at_app t : forall path i,
  out_at t (path ++ [i]) =
  match out_at t path with
  | Some n => nth_error (o_children n) i
  | None => None
  end.
Proof.
  intros path. revert t.
  induction path as [|j rest IH]; intros t i; simpl.
  - destruct (nth_error (o_children t) i); reflexivity.
  - destruct (nth_error (o_children t) j); [apply IH|reflexivity].
Qed.

Lemma forest_at_child ts p i :
  forest_at ts (out_child p i) =
  match forest_at ts p with
  | Some n => nth_error (o_children n) i
  | None => None
  end.
Proof.
  unfold forest_at, out_child. simpl.
  destruct (nth_error ts (p_root p)); [apply out_at_app|reflexivity].
Qed.

Lemma grows_children ts ts' p n n' :
  grows ts ts' -> forest_at ts p = Some n -> forest_at ts' p = Some n' ->
  (length (o_children n) <= length (o_children n'))%nat.
Proof.
  intros G E E'.
  destruct (le_lt_dec (length (o_children n)) (length (o_children n')))
    as [Hle|Hlt]; [exact Hle|exfalso].
  destruct (nth_error (o_children n) (length (o_children n'))) as [c|] eqn:Ec.
  - destruct (G (out_child p (length (o_children n'))) c) as (c' & Ec' & _).
    { rewrite forest_at_child, E. exact Ec. }
    rewrite forest_at_child, E' in Ec'.
    assert (Hn : nth_error (o_children n') (length (o_children n')) <> None)
      by congruence.
    apply nth_error_Some in Hn. lia.
  - apply nth_error_None in Ec. lia.
Qed.

(** ** xsltApplyStylesheet as a whole *)

(** X1.  A transformation never adds a node to the source tree and never
    alters one: whenever xsltApplyStylesheet returns, every node of the
    source tree is a node that was there, with its type, name, content
    and parent, and its children are children it had, in their order;
    the nodes that are gone are blank text nodes and nodes that are
    neither element, document, text nor CDATA. *)
Theorem xsltApplyStylesheet_shrinks_source X fuel s d m r m' :
  xsltApplyStylesheet X fuel s d m = Returns r m' ->
  src_shrink (src m) (src m').
Proof.
  intros H. destruct s as [s|], d as [d|];
    try (injection H as <- <-; apply src_shrink_refl).
  destruct (xsltApplyStylesheet_post _ _ _ _ _ _ _ H) as (st' & -> & R).
  apply R.
Qed.

Lemma xsltApplyStylesheet_shrinks_source_witness :
  xsltApplyStylesheet Demo.engine 20 (Some Demo.plain) (Some 0%nat)
    (Demo.memory_of Demo.commented)
  = Returns (Some 0%nat)
      (memory_after
         (xsltApplyStylesheet Demo.engine 20 (Some Demo.plain) (Some 0%nat)
            (Demo.memory_of Demo.commented))
         (Demo.memory_of Demo.commented)) /\
  src_shrink (src (Demo.memory_of Demo.commented))
    (src (memory_after
            (xsltApplyStylesheet Demo.engine 20 (Some Demo.plain)
               (Some 0%nat) (Demo.memory_of Demo.commented))
            (Demo.memory_of Demo.commented))).
Proof.
  assert (H : xsltApplyStylesheet Demo.engine 20 (Some Demo.plain)
                (Some 0%nat) (Demo.memory_of Demo.commented)
  = Returns (Some 0%nat)
      (memory_after
         (xsltApplyStylesheet Demo.engine 20 (Some Demo.plain) (Some 0%nat)
            (Demo.memory_of Demo.commented))
         (Demo.memory_of Demo.commented)))
    by (vm_compute; reflexivity).
  split; [exact H|].
  exact (xsltApplyStylesheet_shrinks_source _ _ _ _ _ _ _ H).
Defined.


(** X4.  With an output method other than xml, html and text,
    xsltApplyStylesheet returns NULL without processing anything (whatever
    the fuel): one error is logged, no document is created, the source
    tree is untouched. *)
Theorem xsltApplyStylesheet_unsupported_method X fuel s d m meth :
  method s = Some meth ->
  meth <> "xml" -> meth <> "html" -> meth <> "text" ->
  exists m',
    xsltApplyStylesheet X fuel (Some s) (Some d) m = Returns None m' /\
    src m' = src m /\ out m' = out m /\ outdoc m' = outdoc m /\
    (errors m' = errors m ++ ["xsltApplyStylesheet: insupported method"] \/
     errors m' = errors m ++ ["xsltNewTransformContext : malloc failed"]).
Proof.
  intros Hm H1 H2 H3.
  apply String.eqb_neq in H1. apply String.eqb_neq in H2.
  apply String.eqb_neq in H3.
  unfold xsltApplyStylesheet, xsltApplyStylesheet_run, bind, alloc. simpl.
  destruct (allocs m) as [|[] l]; simpl; rewrite ?Hm, ?H1, ?H2, ?H3; simpl;
    eexists; (split; [reflexivity|]); simpl; auto.
Qed.


Lemma xsltApplyStylesheet_unsupported_method_witness :
  method (Demo.with_doctype (Some "pdf")) = Some "pdf" /\
  "pdf" <> "xml" /\ "pdf" <> "html" /\ "pdf" <> "text" /\
  exists m',
    xsltApplyStylesheet Demo.engine 0 (Some (Demo.with_doctype (Some "pdf")))
      (Some 0%nat) (Demo.memory_of Demo.hello) = Returns None m' /\
    out m' = out (Demo.memory_of Demo.hello).
Proof.
  assert (H0 : method (Demo.with_doctype (Some "pdf")) = Some "pdf")
    by reflexivity.
  assert (H1 : "pdf" <> "xml") by discriminate.
  assert (H2 : "pdf" <> "html") by discriminate.
  assert (H3 : "pdf" <> "text") by discriminate.
  split; [exact H0|]. split; [exact H1|]. split; [exact H2|].
  split; [exact H3|].
  destruct (xsltApplyStylesheet_unsupported_method Demo.engine 0
              (Demo.with_doctype (Some "pdf")) 0%nat
              (Demo.memory_of Demo.hello) "pdf" H0 H1 H2 H3)
    as (m' & Hrun & _ & Hout & _).
  exists m'. split; [exact Hrun|exact Hout].
Defined.

(** X5.  The result tree only grows.  Whatever procedure of the
    interpreter runs (xsltProcessOneNode, xsltApplyOneTemplate, the walk of
    a template body, the walk of the children under the default rule),
    when it returns every node that was in the result tree is still at
    its position, with its type, its name and its namespaces; its text is
    the text it had, possibly extended at the end, and it has lost no
    child. *)
Theorem result_tree_only_grows X fuel c st st' p n :
  exec X fuel c st = Done tt st' ->
  forest_at (out (mem st)) p = Some n ->
  exists n',
    forest_at (out (mem st')) p = Some n' /\
    o_type n' = o_type n /\ o_name n' = o_name n /\
    o_ns n' = o_ns n /\ o_nsDef n' = o_nsDef n /\
    (exists s, o_content n' = o_content n +:+ s) /\
    (length (o_children n) <= length (o_children n'))%nat.
Proof.
  intros H E.
  pose proof (wp_done _ _ _ _ _ (exec_steady X fuel c st) H) as S.
  destruct S as (_ & _ & _ & _ & _ & _ & G).
  destruct (G p n E) as (n' & E' & H1 & H2 & H3 & H4 & H5).
  exists n'. repeat split; auto.
  eapply grows_children; eauto.
Qed.

Lemma result_tree_only_grows_witness :
  exec Demo.engine 20 (ProcessOneNode 0%nat) Demo.filled
  = Done tt (Demo.final (exec Demo.engine 20 (ProcessOneNode 0%nat)
                           Demo.filled) Demo.filled) /\
  forest_at (out (mem Demo.filled))
    {| p_root := 0%nat; p_path := [0%nat; 0%nat] |}
  = Some (new_node XML_TEXT_NODE "text" "x") /\
  exists n',
    forest_at
      (out (mem (Demo.final (exec Demo.engine 20 (ProcessOneNode 0%nat)
                               Demo.filled) Demo.filled)))
      {| p_root := 0%nat; p_path := [0%nat; 0%nat] |} = Some n' /\
    o_type n' = XML_TEXT_NODE /\
    exists s, o_content n' = "x" +:+ s.
Proof.
  assert (H : exec Demo.engine 20 (ProcessOneNode 0%nat) Demo.filled
  = Done tt (Demo.final (exec Demo.engine 20 (ProcessOneNode 0%nat)
                           Demo.filled) Demo.filled))
    by (vm_compute; reflexivity).
  assert (E : forest_at (out (mem Demo.filled))
                {| p_root := 0%nat; p_path := [0%nat; 0%nat] |}
              = Some (new_node XML_TEXT_NODE "text" "x")) by reflexivity.
  split; [exact H|]. split; [exact E|].
  destruct (result_tree_only_grows _ _ _ _ _ _ _ H E)
    as (n' & E' & Ht & _ & _ & _ & Hc & _).
  exists n'. split; [exact E'|]. split; [exact Ht|exact Hc].
Defined.

(** X6.  xsltProcessOneNode gives the context back as it got it, but for
    the current node and the XPath context: when it returns, the
    insertion point, the node list and the stack of variable scopes are
    the ones at entry (what the procedures it runs change of them, they
    restore), and the stylesheet, the source document, the output
    document and the output type have not been assigned at all. *)
Theorem xsltProcessOneNode_frame X fuel nd st st' :
  xsltProcessOneNode X (exec X fuel) nd st = Done tt st' ->
  insert (ctxt st') = insert (ctxt st) /\
  nodeList (ctxt st') = nodeList (ctxt st) /\
  variables (ctxt st') = variables (ctxt st) /\
  style (ctxt st') = style (ctxt st) /\
  doc (ctxt st') = doc (ctxt st) /\
  output (ctxt st') = output (ctxt st) /\
  type (ctxt st') = type (ctxt st).
Proof.
  intros H.
  pose proof (wp_done _ _ _ _ _
    (xsltProcessOneNode_rel X (exec X fuel) (exec_sound X fuel) nd st) H)
    as (Hv & Hi & Hl & _).
  pose proof (wp_done _ _ _ _ _
    (xsltProcessOneNode_steady X (exec X fuel) (exec_steady X fuel) nd st) H)
    as (Hs & Ht & Hd & Ho & _).
  unfold when in *. simpl in *. repeat split; assumption.
Qed.

Lemma xsltProcessOneNode_frame_witness :
  xsltProcessOneNode Demo.engine (exec Demo.engine 20) 0%nat Demo.filled
  = Done tt (Demo.final (xsltProcessOneNode Demo.engine
                           (exec Demo.engine 20) 0%nat Demo.filled)
                        Demo.filled) /\
  insert (ctxt (Demo.final (xsltProcessOneNode Demo.engine
                              (exec Demo.engine 20) 0%nat Demo.filled)
                           Demo.filled))
  = Some {| p_root := 0%nat; p_path := [0%nat] |}.
Proof.
  assert (H : xsltProcessOneNode Demo.engine (exec Demo.engine 20) 0%nat
                Demo.filled
  = Done tt (Demo.final (xsltProcessOneNode Demo.engine
                           (exec Demo.engine 20) 0%nat Demo.filled)
                        Demo.filled))
    by (vm_compute; reflexivity).
  split; [exact H|].
  exact (proj1 (xsltProcessOneNode_frame _ _ _ _ _ H)).
Defined.

(** ** The text of the result *)

Lemma out_text_eq t :
  out_text t =
  if bool_decide (o_type t = XML_TEXT_NODE)
     || bool_decide (o_type t = XML_CDATA_SECTION_NODE)
  then o_content t else out_texts (o_children t).
Proof.
  destruct t as [ty nm c ns nsd ps cs]. simpl.
  destruct (bool_decide (ty = XML_TEXT_NODE)
            || bool_decide (ty = XML_CDATA_SECTION_NODE)); [reflexivity|].
  induction cs as [|x cs IH]; simpl; [reflexivity|]. now rewrite IH.
Qed.

Lemma out_text_holds t :
  holds_children t -> out_text t = out_texts (o_children t).
Proof.
  intros [H1 H2]. rewrite out_text_eq.
  rewrite !bool_decide_eq_false_2 by assumption. reflexivity.
Qed.

Lemma out_texts_app a b : out_texts (a ++ b) = out_texts a +:+ out_texts b.
Proof.
  induction a as [|x a IH]; simpl; [reflexivity|].
  rewrite IH. symmetry. apply append_assoc.
Qed.

Lemma out_texts_one x : out_texts [x] = out_text x.
Proof. simpl. apply append_nil_r. Qed.

(** xmlAddChild adds the text of the node to the text of the children,
    whether the node is appended or merged into the last text node. *)
Lemma add_child_text cs cur :
  out_texts (fst (add_child cs cur)) = out_texts cs +:+ out_text cur.
Proof.
  destruct (add_child_cases cs cur) as [-> | (pre & l & -> & Hc & Hl & ->)];
    simpl.
  - rewrite out_texts_app, out_texts_one. reflexivity.
  - rewrite !out_texts_app, !out_texts_one.
    rewrite (out_text_eq cur), (out_text_eq l), out_text_eq. simpl.
    rewrite Hc, Hl. simpl. rewrite append_assoc. reflexivity.
Qed.

Lemma add_child_append cs cur :
  o_type cur <> XML_TEXT_NODE ->
  add_child cs cur = (cs ++ [cur], length cs).
Proof.
  intros H. unfold add_child. destruct (last cs); [|reflexivity].
  rewrite (bool_decide_eq_false_2 _ H). reflexivity.
Qed.

(** *** Updates succeed where there is a node *)
Lemma list_update_total {A} (f : A -> option A) : forall l i x y,
  nth_error l i = Some x -> f x = Some y ->
  exists l', list_update l i f = Some l'.
Proof.
  induction l as [|a l IH]; intros [|i] x y Hx Hy; simpl in *;
    try discriminate.
  - injection Hx as ->. rewrite Hy. eauto.
  - destruct (IH i x y Hx Hy) as (l' & ->). eauto.
Qed.

Lemma out_update_total f : forall path t n n',
  out_at t path = Some n -> f n = Some n' ->
  exists t', out_update t path f = Some t'.
Proof.
  induction path as [|i rest IH]; intros t n n' Hn Hf; simpl in *.
  - injection Hn as ->. eauto.
  - destruct (nth_error (o_children t) i) as [c|] eqn:Ec; [|discriminate].
    destruct (IH c n n' Hn Hf) as (c' & Ec').
    destruct (list_update_total (fun c => out_update c rest f) _ _ _ _ Ec Ec')
      as (cs & ->). eauto.
Qed.

Lemma forest_update_total f ts p n n' :
  forest_at ts p = Some n -> f n = Some n' ->
  exists ts', forest_update ts p f = Some ts'.
Proof.
  unfold forest_at, forest_update. intros Hn Hf.
  destruct (nth_error ts (p_root p)) as [t|] eqn:Et; [|discriminate].
  destruct (out_update_total f _ _ _ _ Hn Hf) as (t' & Et').
  eapply list_update_total; eauto.
Qed.

(** xmlAddChild under a node that is there: the state it returns in and
    the node at the place of the parent. *)
Lemma xmlAddChild_at ip cur st target :
  forest_at (out (mem st)) ip = Some target ->
  exists ts',
    xmlAddChild (Some ip) cur st =
      Done (Some (out_child ip (snd (add_child (o_children target) cur))))
           (set_mem (with_out ts') st) /\
    forest_at ts' ip =
      Some (with_children target
              (fst (add_child (o_children target) cur))) /\
    grows (out (mem st)) ts'.
Proof.
  intros Ht.
  destruct (forest_update_total
              (fun t => Some (with_children t
                                (fst (add_child (o_children target) cur))))
              _ _ _ _ Ht eq_refl) as (ts' & Eu).
  exists ts'. split; [|split].
  - unfold xmlAddChild, bind, get, deref, ret. rewrite Ht.
    destruct (add_child (o_children target) cur) as [cs i] eqn:Ea.
    simpl in *. rewrite Eu. reflexivity.
  - destruct (forest_update_at _ _ _ _ Eu) as (n & n' & En & Ef & En').
    rewrite En'. rewrite Ht in En. injection En as <-. congruence.
  - eapply forest_update_grows; [|exact Eu].
    intros x y Hx [= <-]. assert (x = target) by congruence. subst x.
    apply add_child_grows.
Qed.

(** ** xsltValueOf, xsltCopyNode and xsltAttribute *)

Lemma alloc_ok st :
  can_alloc st ->
  exists st1, alloc st = Done true st1 /\ ctxt st1 = ctxt st /\
    src (mem st1) = src (mem st) /\ out (mem st1) = out (mem st) /\
    outdoc (mem st1) = outdoc (mem st) /\ errors (mem st1) = errors (mem st).
Proof.
  unfold can_alloc, alloc. intros H.
  destruct (allocs (mem st)) as [|[] l]; simpl in *.
  - exists st. repeat split; reflexivity.
  - eexists. split; [reflexivity|]. simpl. repeat split; reflexivity.
  - congruence.
Qed.

(** X7.  xsl:value-of adds the string value of its expression to the text
    at the insertion point: when disable-output-escaping is absent, yes
    or no, the select attribute is there, the XPath evaluation is set up
    and gives the string [s], the text of the node at the insertion
    point becomes the text it had followed by [s] (the new text node is
    appended, or merged into a text node that ends the children).  The
    only message logged is the one that reports
    disable-output-escaping="yes" as not implemented, before the
    evaluation is set up; the context and the source tree are those in
    which the expression was evaluated. *)
Theorem xsltValueOf_appends X n inst prop st st1 s ip target :
  (forall p, xmlGetNsProp inst "disable-output-escaping" XSLT_NAMESPACE
             = Some p -> p = "yes" \/ p = "no") ->
  xmlGetNsProp inst "select" XSLT_NAMESPACE = Some prop ->
  xpath_setup n (escaping_logged inst st) = Done true st1 ->
  xmlXPathStringFunction X st1 (xmlXPathEvalExpr X st1 prop)
    = Some (XPATH_STRING s) ->
  can_alloc st1 ->
  insert (ctxt st1) = Some ip ->
  forest_at (out (mem st1)) ip = Some target ->
  holds_children target ->
  exists st' target',
    xsltValueOf X (Some n) inst st = Done tt st' /\
    forest_at (out (mem st')) ip = Some target' /\
    out_text target' = out_text target +:+ s /\
    o_type target' = o_type target /\ o_name target' = o_name target /\
    ctxt st' = ctxt st1 /\ src (mem st') = src (mem st1) /\
    errors (mem st') = errors (mem st1).
Proof.
  intros Hesc Hsel Hsetup Hval Halloc Hins Hat Hholds.
  destruct (alloc_ok _ Halloc) as (s2 & Ea & Hc & Hs & Ho & _ & He).
  assert (Hat2 : forest_at (out (mem s2)) ip = Some target) by congruence.
  destruct (xmlAddChild_at ip (new_node XML_TEXT_NODE "text" s) s2 target Hat2)
    as (ts' & Eadd & Eat & _).
  exists (set_mem (with_out ts') s2).
  exists (with_children target
            (fst (add_child (o_children target)
                    (new_node XML_TEXT_NODE "text" s)))).
  split; [|split; [exact Eat|]].
  - unfold xsltValueOf. unfold bind at 1.
    assert (E0 : match xmlGetNsProp inst "disable-output-escaping"
                         XSLT_NAMESPACE with
                 | Some p =>
                     (if String.eqb p "yes" || String.eqb p "no" then ret tt
                      else xsltGenericError
                             "invalud value for disable-output-escaping");;
                     if String.eqb p "yes" then TODO else ret tt
                 | None => ret tt
                 end st = Done tt (escaping_logged inst st)).
    { unfold escaping_logged.
      destruct (xmlGetNsProp inst "disable-output-escaping" XSLT_NAMESPACE)
        as [p|]; [|reflexivity].
      destruct (Hesc p eq_refl) as [-> | ->]; reflexivity. }
    rewrite E0, Hsel.
    unfold bind at 1. rewrite Hsetup. simpl.
    unfold bind at 1. unfold get at 1. rewrite Hval.
    unfold bind at 1. unfold bind at 1. rewrite Ea.
    unfold bind at 1. rewrite Hins, Eadd. reflexivity.
  - split.
    + rewrite (out_text_holds (with_children target _)) by exact Hholds.
      simpl. rewrite add_child_text, (out_text_holds target Hholds).
      rewrite (out_text_eq (new_node _ _ _)). reflexivity.
    + simpl. repeat split; auto.
Qed.

Lemma xsltValueOf_appends_witness :
  exists st' target',
    xsltValueOf Demo.engine (Some 0%nat) Cases.value_of_raw Demo.filled
      = Done tt st' /\
    forest_at (out (mem st')) Cases.at_out = Some target' /\
    out_text target' = "xtext" /\
    errors (mem st') = errors (mem Demo.filled) ++ ["Unimplemented block"].
Proof.
  assert (H1 : forall p,
             xmlGetNsProp Cases.value_of_raw "disable-output-escaping"
               XSLT_NAMESPACE = Some p -> p = "yes" \/ p = "no")
    by (intros p Hp; left; vm_compute in Hp; congruence).
  assert (H2 : xmlGetNsProp Cases.value_of_raw "select" XSLT_NAMESPACE
               = Some "'text'") by reflexivity.
  assert (H3 : xpath_setup 0%nat
                 (escaping_logged Cases.value_of_raw Demo.filled)
               = Done true Cases.raw_ready)
    by (vm_compute; reflexivity).
  assert (H4 : xmlXPathStringFunction Demo.engine Cases.raw_ready
                 (xmlXPathEvalExpr Demo.engine Cases.raw_ready "'text'")
               = Some (XPATH_STRING "text")) by (vm_compute; reflexivity).
  assert (H5 : can_alloc Cases.raw_ready)
    by (vm_compute; discriminate).
  assert (H6 : insert (ctxt Cases.raw_ready) = Some Cases.at_out)
    by (vm_compute; reflexivity).
  assert (H7 : forest_at (out (mem Cases.raw_ready)) Cases.at_out
               = Some Cases.out_x) by (vm_compute; reflexivity).
  assert (H8 : holds_children Cases.out_x)
    by (split; discriminate).
  destruct (xsltValueOf_appends Demo.engine 0%nat Cases.value_of_raw
              "'text'" Demo.filled Cases.raw_ready "text" Cases.at_out
              Cases.out_x H1 H2 H3 H4 H5 H6 H7 H8)
    as (st' & target' & Hrun & Hat & Htext & _ & _ & _ & _ & Herr).
  exists st', target'. split; [exact Hrun|]. split; [exact Hat|].
  split; [rewrite Htext; reflexivity|].
  rewrite Herr. vm_compute. reflexivity.
Defined.








(** ** The built-in rule on text children *)

Lemma next_in_middle pre p rest :
  NoDup (pre ++ p :: rest) -> next_in (pre ++ p :: rest) p = head rest.
Proof.
  induction pre as [|x pre IH]; simpl; intros H.
  - rewrite bool_decide_eq_true_2 by reflexivity. reflexivity.
  - apply NoDup_cons in H as [Hx H].
    rewrite bool_decide_eq_false_2; [apply IH; exact H|].
    intros ->. apply Hx. apply elem_of_app. right. left.
Qed.

Lemma alloc_succeeds st :
  allocs_succeed st ->
  exists st1, alloc st = Done true st1 /\ allocs_succeed st1 /\
    ctxt st1 = ctxt st /\ src (mem st1) = src (mem st) /\
    out (mem st1) = out (mem st) /\ errors (mem st1) = errors (mem st).
Proof.
  unfold allocs_succeed, alloc. intros H.
  destruct (allocs (mem st)) as [|b l] eqn:E.
  - exists st. rewrite E. repeat split; auto.
  - apply Forall_cons in H as [-> H]. eexists. split; [reflexivity|].
    simpl. repeat split; auto.
Qed.

Lemma copy_source_text_at n st ip target :
  allocs_succeed st -> insert (ctxt st) = Some ip ->
  forest_at (out (mem st)) ip = Some target -> holds_children target ->
  s_type n = XML_TEXT_NODE \/ s_type n = XML_CDATA_SECTION_NODE ->
  exists st' target',
    copy_source_text n st = Done tt st' /\
    allocs_succeed st' /\ ctxt st' = ctxt st /\
    src (mem st') = src (mem st) /\ errors (mem st') = errors (mem st) /\
    forest_at (out (mem st')) ip = Some target' /\
    o_type target' = o_type target /\ o_name target' = o_name target /\
    out_text target' = out_text target +:+ s_content n.
Proof.
  intros Ha Hins Hat Hh Hty.
  destruct (alloc_succeeds _ Ha) as (s1 & Ea & Ha1 & Hc & Hs & Ho & He).
  assert (Hat1 : forest_at (out (mem s1)) ip = Some target) by congruence.
  destruct (xmlAddChild_at ip (xmlCopySourceNode n) s1 target Hat1)
    as (ts' & Eadd & Eat & _).
  assert (Htx :
    out_text (with_children target
                (fst (add_child (o_children target) (xmlCopySourceNode n))))
    = out_text target +:+ s_content n).
  { rewrite (out_text_holds (with_children target _)) by exact Hh.
    cbn [o_children with_children].
    rewrite add_child_text, (out_text_holds target Hh).
    rewrite (out_text_eq (xmlCopySourceNode n)). simpl.
    destruct Hty as [-> | ->]; reflexivity. }
  exists (set_mem (with_out ts') s1).
  exists (with_children target
            (fst (add_child (o_children target) (xmlCopySourceNode n)))).
  split.
  { unfold copy_source_text, bind. rewrite Ea. unfold get.
    rewrite Hc, Hins, Eadd. reflexivity. }
  split; [exact Ha1|]. split; [exact Hc|]. split; [exact Hs|].
  split; [exact He|]. split; [exact Eat|].
  split; [reflexivity|]. split; [reflexivity|exact Htx].
Qed.

Section DefaultText.

Variable X : externals.

Variable parent : ptr.

Variable pn : srcNode.

Variable h : gmap nat srcNode.

Variable c0 : xsltTransformContext.

Variable ip : outPtr.

Hypothesis Hparent : h !! parent = Some pn.

Hypothesis Hdup : NoDup (s_children pn).

Hypothesis Hkids : forall c, In c (s_children pn) ->
  exists n, h !! c = Some n /\ copied_as_text (stripSpaces (style c0)) n.

Hypothesis Hins : insert c0 = Some ip.

Lemma default_loop_text : forall rest pre fuel strip st target,
  s_children pn = pre ++ rest ->
  ctxt st = c0 -> src (mem st) = h -> allocs_succeed st ->
  forest_at (out (mem st)) ip = Some target -> holds_children target ->
  (length rest < fuel)%nat ->
  exists st' target',
    exec X fuel (DefaultLoop parent (head rest) strip) st = Done tt st' /\
    ctxt st' = c0 /\ src (mem st') = h /\
    errors (mem st') = errors (mem st) /\
    forest_at (out (mem st')) ip = Some target' /\
    o_type target' = o_type target /\ o_name target' = o_name target /\
    out_text target' = out_text target +:+ source_text h rest.
Proof.
  induction rest as [|p rest IH];
    intros pre fuel strip st target Hcs Hc Hs Ha Hat Hh Hfuel.
  - destruct fuel as [|f]; [simpl in Hfuel; lia|].
    exists st, target. simpl. repeat split; auto.
    symmetry. apply append_nil_r.
  - destruct fuel as [|f]; [simpl in Hfuel; lia|]. simpl in Hfuel.
    destruct (Hkids p) as (n & En & Hn).
    { rewrite Hcs. apply in_or_app. right. left. reflexivity. }
    assert (Hty : s_type n = XML_TEXT_NODE \/
                  s_type n = XML_CDATA_SECTION_NODE).
    { destruct Hn as [?|[? _]]; auto. }
    assert (Hins' : insert (ctxt st) = Some ip) by congruence.
    destruct (copy_source_text_at n st ip target Ha Hins' Hat Hh Hty)
      as (s1 & t1 & Ecopy & Ha1 & Hc1 & Hs1 & He1 & Hat1 & Ht1 & Hn1 & Htx1).
    assert (Hh1 : holds_children t1).
    { destruct Hh. split; congruence. }
    destruct (IH (pre ++ [p]) f strip s1 t1) as
      (st' & target' & Erun & Hc' & Hs' & He' & Hat' & Ht' & Hn' & Htx');
      try assumption; try congruence.
    { rewrite <- app_assoc. exact Hcs. }
    { lia. }
    exists st', target'. split.
    + simpl. unfold xsltDefaultProcessOneNode_loop.
      unfold bind at 1, get at 1. rewrite Hs, En. unfold bind at 1.
      unfold deref at 1, ret at 1.
      assert (Estep :
        (match s_type n with
         | XML_DOCUMENT_NODE | XML_HTML_DOCUMENT_NODE | XML_ELEMENT_NODE =>
             exec X f (ProcessOneNode p);; ret (false, strip)
         | XML_TEXT_NODE =>
             match IS_BLANK_NODE n, s_parent n, stripSpaces (style (ctxt st))
             with
             | true, Some q, Some strip0 =>
                 do s <-
                   (if Z.eqb strip (-1)
                    then
                      do pn0 <- deref (h !! q);
                      ret (default_strip_spaces strip0 (s_name pn0))
                    else ret strip);
                 if Z.eqb s 1 then ret (true, s)
                 else copy_source_text n;; ret (false, s)
             | _, _, _ => copy_source_text n;; ret (false, strip)
             end
         | XML_CDATA_SECTION_NODE => copy_source_text n;; ret (false, strip)
         | _ => ret (true, strip)
         end) st = Done (false, strip) s1).
      { rewrite Hc.
        destruct Hn as [-> | [-> [Hb | Hnone]]].
        - unfold bind. rewrite Ecopy. reflexivity.
        - rewrite Hb. unfold bind. rewrite Ecopy. reflexivity.
        - rewrite Hnone.
          destruct (IS_BLANK_NODE n), (s_parent n);
            unfold bind; rewrite Ecopy; reflexivity. }
      unfold bind at 1. rewrite Estep.
      unfold bind at 1, get at 1. rewrite Hs1, Hs, Hparent.
      unfold bind at 1, deref at 1, ret at 1.
      rewrite Hcs, next_in_middle by (rewrite <- Hcs; exact Hdup).
      unfold bind at 1, ret at 1. exact Erun.
    + repeat split; try congruence.
      rewrite Htx', Htx1, append_assoc. simpl. rewrite En. reflexivity.
Qed.

End DefaultText.

(** X10.  The built-in rule copies text.  Applied to a document or an
    element whose children are distinct nodes, CDATA sections and text
    nodes that are not blank (any text nodes when the stylesheet has no
    strip/preserve map), with no allocation failure,
    xsltDefaultProcessOneNode returns (with fuel for one call per child
    and one more), and the text of the node
    at the insertion point is the text it had followed by the contents of
    the children, in document order.  The source tree and the context are
    left as they were and nothing is logged. *)
Theorem default_rule_copies_text X fuel parent pn st ip target :
  src (mem st) !! parent = Some pn ->
  s_type pn = XML_ELEMENT_NODE \/ s_type pn = XML_DOCUMENT_NODE \/
  s_type pn = XML_HTML_DOCUMENT_NODE ->
  NoDup (s_children pn) ->
  (forall c, In c (s_children pn) ->
     exists n, src (mem st) !! c = Some n /\
               copied_as_text (stripSpaces (style (ctxt st))) n) ->
  allocs_succeed st ->
  insert (ctxt st) = Some ip ->
  forest_at (out (mem st)) ip = Some target ->
  holds_children target ->
  (length (s_children pn) < fuel)%nat ->
  exists st' target',
    xsltDefaultProcessOneNode (exec X fuel) parent st = Done tt st' /\
    forest_at (out (mem st')) ip = Some target' /\
    out_text target' =
      out_text target +:+ source_text (src (mem st)) (s_children pn) /\
    o_type target' = o_type target /\ o_name target' = o_name target /\
    ctxt st' = ctxt st /\ src (mem st') = src (mem st) /\
    errors (mem st') = errors (mem st).
Proof.
  intros Hp Hty Hdup Hkids Ha Hins Hat Hh Hfuel.
  destruct (default_loop_text X parent pn (src (mem st)) (ctxt st) ip
              Hp Hdup Hkids Hins (s_children pn) [] fuel (-1) st target)
    as (st' & target' & Erun & Hc & Hs & He & Hat' & Ht & Hn & Htx);
    auto.
  exists st', target'. split.
  - unfold xsltDefaultProcessOneNode, bind, get. rewrite Hp. simpl.
    destruct Hty as [-> | [-> | ->]]; exact Erun.
  - repeat split; assumption.
Qed.

Lemma default_rule_copies_text_witness :
  exists st' target',
    xsltDefaultProcessOneNode (exec Demo.engine 20) 1%nat Demo.filled
      = Done tt st' /\
    forest_at (out (mem st')) Cases.at_out = Some target' /\
    out_text target' = "xhello".
Proof.
  assert (H1 : src (mem Demo.filled) !! 1%nat
               = Some (Demo.snode XML_ELEMENT_NODE "r" "" (Some 0%nat)
                         [2%nat])) by (vm_compute; reflexivity).
  assert (H2 : s_type (Demo.snode XML_ELEMENT_NODE "r" "" (Some 0%nat)
                         [2%nat]) = XML_ELEMENT_NODE \/
               s_type (Demo.snode XML_ELEMENT_NODE "r" "" (Some 0%nat)
                         [2%nat]) = XML_DOCUMENT_NODE \/
               s_type (Demo.snode XML_ELEMENT_NODE "r" "" (Some 0%nat)
                         [2%nat]) = XML_HTML_DOCUMENT_NODE)
    by (left; reflexivity).
  assert (H3 : NoDup (s_children (Demo.snode XML_ELEMENT_NODE "r" ""
                                    (Some 0%nat) [2%nat])))
    by (simpl; apply NoDup_singleton).
  assert (H4 : forall c,
             In c (s_children (Demo.snode XML_ELEMENT_NODE "r" ""
                                 (Some 0%nat) [2%nat])) ->
             exists n, src (mem Demo.filled) !! c = Some n /\
               copied_as_text (stripSpaces (style (ctxt Demo.filled))) n).
  { intros c [<- | []].
    exists (Demo.snode XML_TEXT_NODE "text" "hello" (Some 1%nat) []).
    split; [vm_compute; reflexivity|].
    right. split; [reflexivity|]. right. reflexivity. }
  assert (H5 : allocs_succeed Demo.filled) by apply Forall_nil_2.
  assert (H6 : insert (ctxt Demo.filled) = Some Cases.at_out)
    by reflexivity.
  assert (H7 : forest_at (out (mem Demo.filled)) Cases.at_out
               = Some Cases.out_x) by reflexivity.
  assert (H8 : holds_children Cases.out_x) by (split; discriminate).
  assert (H9 : (length (s_children (Demo.snode XML_ELEMENT_NODE "r" ""
                                      (Some 0%nat) [2%nat])) < 20)%nat)
    by (simpl; lia).
  destruct (default_rule_copies_text Demo.engine 20 1%nat _ Demo.filled
              Cases.at_out Cases.out_x H1 H2 H3 H4 H5 H6 H7 H8 H9)
    as (st' & target' & Hrun & Hat & Htx & _).
  exists st', target'. split; [exact Hrun|]. split; [exact Hat|].
  rewrite Htx. vm_compute. reflexivity.
Defined.

(** ** The node list of xsl:apply-templates without select *)






(** ** Crashes, and instructions that only log *)


(** The walk of the children by xsl:apply-templates calls nothing that
    could run out of fuel, and leaves the context alone. *)
Lemma xsltApplyTemplates_children_ctxt cs : forall acc st,
  match xsltApplyTemplates_children cs acc st with
  | Done _ st' => ctxt st' = ctxt st
  | Fault => True
  | OutOfFuel => False
  end.
Proof.
  induction cs as [|c rest IH]; intros acc st; simpl; [reflexivity|].
  unfold bind at 1, get at 1.
  destruct (src (mem st) !! c) as [n|]; [|exact I].
  unfold bind at 1, deref at 1, ret at 1. unfold bind at 1.
  assert (D : (exists b,
    (match s_type n with
     | XML_TEXT_NODE =>
         match IS_BLANK_NODE n, s_parent n, stripSpaces (style (ctxt st))
         with
         | true, Some q, Some strip0 =>
             do pn0 <- deref (src (mem st) !! q);
             ret (apply_templates_strips strip0 (s_name pn0))
         | _, _, _ => ret false
         end
     | XML_DOCUMENT_NODE | XML_HTML_DOCUMENT_NODE | XML_ELEMENT_NODE
     | XML_CDATA_SECTION_NODE => ret false
     | _ => ret true
     end) st = Done b st) \/
    (match s_type n with
     | XML_TEXT_NODE =>
         match IS_BLANK_NODE n, s_parent n, stripSpaces (style (ctxt st))
         with
         | true, Some q, Some strip0 =>
             do pn0 <- deref (src (mem st) !! q);
             ret (apply_templates_strips strip0 (s_name pn0))
         | _, _, _ => ret false
         end
     | XML_DOCUMENT_NODE | XML_HTML_DOCUMENT_NODE | XML_ELEMENT_NODE
     | XML_CDATA_SECTION_NODE => ret false
     | _ => ret true
     end) st = Fault).
  { destruct (s_type n); try (left; eexists; reflexivity).
    destruct (IS_BLANK_NODE n); [|left; eexists; reflexivity].
    destruct (s_parent n) as [q|]; [|left; eexists; reflexivity].
    destruct (stripSpaces (style (ctxt st))); [|left; eexists; reflexivity].
    unfold bind. destruct (src (mem st) !! q);
      [left; eexists|right]; reflexivity. }
  destruct D as [(b & ->) | ->]; [|exact I].
  destruct b.
  - unfold bind, xmlFreeSourceNode, modify_mem, modify.
    specialize (IH acc (set_mem (fun m =>
                  with_src (unlink_and_free c (src m)) m) st)).
    destruct (xsltApplyTemplates_children rest acc _); auto.
  - apply IH.
Qed.

(** X12.  Run before the context has an XPath context, xsl:apply-templates
    without select crashes: the node list built from the children is
    installed and then the context size is saved through the NULL
    pointer ([ctxt->xpathCtxt->contextSize]).  Nothing creates the XPath
    context on this path, unlike on the path with select. *)
Theorem xsltApplyTemplates_without_context X rec n inst st :
  xmlGetNsProp inst "select" XSLT_NAMESPACE = None ->
  xpathCtxt (ctxt st) = None ->
  xsltApplyTemplates X rec (Some n) inst st = Fault.
Proof.
  intros Hsel Hxp. unfold xsltApplyTemplates. rewrite Hsel.
  unfold bind at 1. unfold bind at 1, get at 1.
  destruct (src (mem st) !! n) as [sn|]; [|reflexivity].
  unfold bind at 1, deref at 1, ret at 1. unfold bind at 1.
  pose proof (xsltApplyTemplates_children_ctxt (s_children sn) [] st) as H.
  destruct (xsltApplyTemplates_children (s_children sn) [] st)
    as [l st1| |]; [|reflexivity|contradiction].
  unfold ret at 1.
  unfold iterate_selected, open_selected, enter_list, bind, get, deref, ret.
  simpl. rewrite H, Hxp. reflexivity.
Qed.

Lemma xsltApplyTemplates_without_context_witness :
  xmlGetNsProp (Demo.instr "apply-templates" [] []) "select" XSLT_NAMESPACE
    = None /\
  xpathCtxt (ctxt (Demo.start Demo.plain Demo.hello None)) = None /\
  xsltApplyTemplates Demo.engine (exec Demo.engine 20) (Some 0%nat)
    (Demo.instr "apply-templates" [] [])
    (Demo.start Demo.plain Demo.hello None) = Fault.
Proof.
  split; [reflexivity|]. split; [reflexivity|].
  apply xsltApplyTemplates_without_context; reflexivity.
Defined.

(** X13.  When the evaluation of the select expression leaves no result,
    xsl:apply-templates and xsl:for-each crash: the node list stays NULL
    and its length is read ([list->nodeNr]). *)
Theorem selection_without_result X rec n inst prop st st1 :
  xmlGetNsProp inst "select" XSLT_NAMESPACE = Some prop ->
  xpath_setup n st = Done true st1 ->
  xmlXPathEvalExpr X st1 prop = None ->
  xsltApplyTemplates X rec (Some n) inst st = Fault /\
  xsltForEach X rec (Some n) inst st = Fault.
Proof.
  intros Hsel Hsetup Hres. split.
  - unfold xsltApplyTemplates. rewrite Hsel.
    unfold bind at 1. unfold bind at 1. rewrite Hsetup. simpl.
    unfold bind at 1, get at 1. rewrite Hres. reflexivity.
  - unfold xsltForEach. rewrite Hsel.
    unfold bind at 1. rewrite Hsetup. simpl.
    unfold bind at 1, get at 1. rewrite Hres. reflexivity.
Qed.

Lemma selection_without_result_witness :
  xmlGetNsProp Cases.for_each_unknown "select" XSLT_NAMESPACE
    = Some "unknown()" /\
  xpath_setup 0%nat (Demo.start Demo.plain Demo.hello None)
    = Done true Cases.ready /\
  xmlXPathEvalExpr Demo.engine Cases.ready "unknown()" = None /\
  xsltForEach Demo.engine (exec Demo.engine 20) (Some 0%nat)
    Cases.for_each_unknown (Demo.start Demo.plain Demo.hello None) = Fault.
Proof.
  assert (H1 : xmlGetNsProp Cases.for_each_unknown "select" XSLT_NAMESPACE
               = Some "unknown()") by reflexivity.
  assert (H2 : xpath_setup 0%nat (Demo.start Demo.plain Demo.hello None)
               = Done true Cases.ready) by (vm_compute; reflexivity).
  assert (H3 : xmlXPathEvalExpr Demo.engine Cases.ready "unknown()" = None)
    by (vm_compute; reflexivity).
  split; [exact H1|]. split; [exact H2|]. split; [exact H3|].
  exact (proj2 (selection_without_result Demo.engine (exec Demo.engine 20)
                  0%nat Cases.for_each_unknown "unknown()" _ _ H1 H2 H3)).
Defined.

(** X14.  When the allocation of a copy fails, the copy of a text node
    of the source is given up with an error logged and nothing else
    changed, but xsltCopyNode crashes: it assigns to a field of the copy
    ([copy->doc]) before it tests the copy against NULL. *)
Theorem copy_allocation_failure n nd ins st l :
  allocs (mem st) = false :: l ->
  copy_source_text n st =
    Done tt (set_mem
               (fun m =>
                  with_errors
                    (errors m
                     ++ ["xsltDefaultProcessOneNode: text copy failed"])
                    (with_allocs l m)) st) /\
  xsltCopyNode nd ins st = Fault.
Proof.
  intros Ha. split.
  - unfold copy_source_text, bind, alloc. rewrite Ha. reflexivity.
  - unfold xsltCopyNode, bind, alloc. rewrite Ha. reflexivity.
Qed.

Lemma copy_allocation_failure_witness :
  allocs (mem (set_mem (with_allocs [false]) Demo.filled)) = [false] /\
  xsltCopyNode (Demo.lit "i" []) Cases.at_out
    (set_mem (with_allocs [false]) Demo.filled) = Fault.
Proof.
  split; [reflexivity|].
  exact (proj2 (copy_allocation_failure
                  (Demo.snode XML_TEXT_NODE "text" "x" None [])
                  (Demo.lit "i" []) Cases.at_out
                  (set_mem (with_allocs [false]) Demo.filled) []
                  eq_refl)).
Defined.



(** ** Nodes ignored, xsl:sort, xsl:call-template *)

(** X16.  The built-in rule does nothing for a node that is neither a
    document, an element nor a text node: when no template matches such a
    node (a comment, a processing instruction, an attribute, and a CDATA
    section as well), xsltProcessOneNode returns with the state as it
    was. *)
Theorem builtin_rule_ignores X rec nd n st :
  xsltGetTemplate X st nd = None ->
  src (mem st) !! nd = Some n ->
  s_type n <> XML_DOCUMENT_NODE -> s_type n <> XML_HTML_DOCUMENT_NODE ->
  s_type n <> XML_ELEMENT_NODE -> s_type n <> XML_TEXT_NODE ->
  xsltProcessOneNode X rec nd st = Done tt st.
Proof.
  intros Ht Hn H1 H2 H3 H4.
  unfold xsltProcessOneNode, bind, get. rewrite Ht.
  unfold xsltDefaultProcessOneNode, bind, get. rewrite Hn. simpl.
  destruct (s_type n); try contradiction; reflexivity.
Qed.

(** xsltSort on a list that is not there or has at most one node *)
Lemma xsltSort_short X nd inst st :
  nodeList (ctxt st) = None \/
  (exists tab, nodeList (ctxt st) = Some tab /\ (length tab <= 1)%nat) ->
  xsltSort X nd inst st = Done tt st.
Proof.
  intros H. unfold xsltSort. destruct nd as [n|]; [|reflexivity].
  unfold bind, get. destruct H as [-> | (tab & -> & Hlen)]; [reflexivity|].
  apply Nat.leb_le in Hlen. rewrite Hlen. reflexivity.
Qed.


(** X18.  Whenever xsltCallTemplate returns, the stack of variable scopes
    and the insertion point are the ones it was entered with: the scope
    it pushes for the first xsl:with-param is popped after the template
    has run. *)
Theorem xsltCallTemplate_scope_balanced X fuel nd inst st st' :
  xsltCallTemplate (exec X fuel) nd inst st = Done tt st' ->
  variables (ctxt st') = variables (ctxt st) /\
  insert (ctxt st') = insert (ctxt st).
Proof.
  intros H.
  pose proof (wp_done _ _ _ _ _
    (xsltCallTemplate_rel (exec X fuel) (exec_sound X fuel) nd inst st) H)
    as (Hv & Hi & _).
  split; [exact Hv|exact Hi].
Qed.

Lemma builtin_rule_ignores_witness :
  xsltGetTemplate Demo.engine (Demo.start Demo.plain Demo.commented None)
    2%nat = None /\
  xsltProcessOneNode Demo.engine (exec Demo.engine 20) 2%nat
    (Demo.start Demo.plain Demo.commented None)
  = Done tt (Demo.start Demo.plain Demo.commented None).
Proof.
  assert (H1 : xsltGetTemplate Demo.engine
                 (Demo.start Demo.plain Demo.commented None) 2%nat = None)
    by reflexivity.
  split; [exact H1|].
  apply (builtin_rule_ignores Demo.engine (exec Demo.engine 20) 2%nat
           (Demo.snode XML_COMMENT_NODE "comment" "c" (Some 1%nat) [])).
  - exact H1.
  - vm_compute; reflexivity.
  - discriminate.
  - discriminate.
  - discriminate.
  - discriminate.
Defined.


Lemma xsltCallTemplate_scope_balanced_witness :
  xsltCallTemplate (exec Demo.engine 20) (Some 0%nat) Cases.call_t
    (Demo.start Cases.named Demo.hello None)
  = Done tt
      (Demo.final
         (xsltCallTemplate (exec Demo.engine 20) (Some 0%nat) Cases.call_t
            (Demo.start Cases.named Demo.hello None))
         (Demo.start Cases.named Demo.hello None)) /\
  variables
    (ctxt (Demo.final
             (xsltCallTemplate (exec Demo.engine 20) (Some 0%nat)
                Cases.call_t (Demo.start Cases.named Demo.hello None))
             (Demo.start Cases.named Demo.hello None))) = [] /\
  map Demo.render
    (out (mem (Demo.final
                 (xsltCallTemplate (exec Demo.engine 20) (Some 0%nat)
                    Cases.call_t (Demo.start Cases.named Demo.hello None))
                 (Demo.start Cases.named Demo.hello None))))
  = ["<b></b>"].
Proof.
  assert (H : xsltCallTemplate (exec Demo.engine 20) (Some 0%nat)
                Cases.call_t (Demo.start Cases.named Demo.hello None)
  = Done tt
      (Demo.final
         (xsltCallTemplate (exec Demo.engine 20) (Some 0%nat) Cases.call_t
            (Demo.start Cases.named Demo.hello None))
         (Demo.start Cases.named Demo.hello None)))
    by (vm_compute; reflexivity).
  split; [exact H|]. split.
  - exact (proj1 (xsltCallTemplate_scope_balanced _ _ _ _ _ _ H)).
  - vm_compute. reflexivity.
Defined.

(** ** Empty selections, comments and processing instructions *)

Lemma xpath_setup_has_context n st st1 :
  xpath_setup n st = Done true st1 ->
  exists xc, xpathCtxt (ctxt st1) = Some xc.
Proof.
  intros H.
  assert (W : wp (xpath_setup n)
                 (fun ok st' => ok = true ->
                    exists xc, xpathCtxt (ctxt st') = Some xc) st).
  { unfold xpath_setup. repeat wp_prim0; intros; try discriminate;
      simpl; eauto. }
  exact (wp_done _ _ _ _ _ W H eq_refl).
Qed.

Lemma skip_sorts_short X nd cs : forall k st,
  nodeList (ctxt st) = None \/
  (exists tab, nodeList (ctxt st) = Some tab /\ (length tab <= 1)%nat) ->
  exists k', skip_sorts X nd cs k st = Done k' st.
Proof.
  induction cs as [|c rest IH]; intros k st H; simpl; [eauto|].
  destruct (IS_XSLT_ELEM c && IS_XSLT_NAME c "sort"); [|eauto].
  unfold bind. rewrite (xsltSort_short X nd c st H). apply IH. exact H.
Qed.

Lemma iterate_nothing X nd inst body st xc :
  xpathCtxt (ctxt st) = Some xc ->
  iterate_selected X nd inst (Some []) body st = Done tt st.
Proof.
  intros Hxc.
  unfold iterate_selected. unfold bind at 1, deref at 1, ret at 1.
  unfold open_selected. unfold bind at 1. unfold bind at 1.
  unfold enter_list, bind, get, modify_ctxt, modify, deref, ret.
  rewrite Hxc. simpl.
  match goal with
  | |- context [skip_sorts X nd ?cs ?k ?s] =>
      destruct (skip_sorts_short X nd cs k s) as (k' & ->)
  end.
  { right. exists []. split; [reflexivity|simpl; lia]. }
  simpl. unfold leave_list, bind, get, modify_ctxt, modify, deref, ret.
  simpl. destruct st as [c m]. destruct c. simpl in *. subst.
  destruct xc. reflexivity.
Qed.

(** X19.  A selection that is empty runs nothing: when the select
    expression evaluates to the empty node set, xsl:apply-templates and
    xsl:for-each return in the state in which the expression was
    evaluated, whatever their body and the templates are (the xsl:sort
    children find nothing to sort, no iteration is run, and the node
    list, the context size and the position are put back). *)
Theorem selection_of_nothing X rec n inst prop st st1 :
  xmlGetNsProp inst "select" XSLT_NAMESPACE = Some prop ->
  xpath_setup n st = Done true st1 ->
  xmlXPathEvalExpr X st1 prop = Some (XPATH_NODESET []) ->
  xsltApplyTemplates X rec (Some n) inst st = Done tt st1 /\
  xsltForEach X rec (Some n) inst st = Done tt st1.
Proof.
  intros Hsel Hsetup Hres.
  destruct (xpath_setup_has_context _ _ _ Hsetup) as (xc & Hxc).
  split.
  - unfold xsltApplyTemplates. rewrite Hsel.
    unfold bind at 1. unfold bind at 1. rewrite Hsetup. simpl.
    unfold bind at 1, get at 1. rewrite Hres. unfold ret at 1.
    eapply iterate_nothing; eauto.
  - unfold xsltForEach. rewrite Hsel.
    unfold bind at 1. rewrite Hsetup. simpl.
    unfold bind at 1, get at 1. rewrite Hres.
    eapply iterate_nothing; eauto.
Qed.

Lemma selection_of_nothing_witness :
  xmlGetNsProp Demo.for_each_node "select" XSLT_NAMESPACE = Some "node()" /\
  xsltForEach Demo.engine (exec Demo.engine 20) (Some 2%nat)
    Demo.for_each_node (Demo.start Demo.plain Demo.hello None)
  = Done tt (Demo.final
               (xpath_setup 2%nat (Demo.start Demo.plain Demo.hello None))
               (Demo.start Demo.plain Demo.hello None)).
Proof.
  assert (H1 : xmlGetNsProp Demo.for_each_node "select" XSLT_NAMESPACE
               = Some "node()") by reflexivity.
  assert (H2 : xpath_setup 2%nat (Demo.start Demo.plain Demo.hello None)
               = Done true
                   (Demo.final
                      (xpath_setup 2%nat
                         (Demo.start Demo.plain Demo.hello None))
                      (Demo.start Demo.plain Demo.hello None)))
    by (vm_compute; reflexivity).
  assert (H3 : xmlXPathEvalExpr Demo.engine
                 (Demo.final
                    (xpath_setup 2%nat
                       (Demo.start Demo.plain Demo.hello None))
                    (Demo.start Demo.plain Demo.hello None)) "node()"
               = Some (XPATH_NODESET [])) by (vm_compute; reflexivity).
  split; [exact H1|].
  exact (proj2 (selection_of_nothing Demo.engine (exec Demo.engine 20)
                  2%nat Demo.for_each_node "node()" _ _ H1 H2 H3)).
Defined.

Lemma xsltEvalTemplateString_insert rec nd parent st v st1 :
  xsltEvalTemplateString rec nd parent st = Done v st1 ->
  insert (ctxt st1) = insert (ctxt st).
Proof.
  intros H.
  assert (W : wp (xsltEvalTemplateString rec nd parent)
                 (fun _ st' => insert (ctxt st') = insert (ctxt st)) st).
  { unfold xsltEvalTemplateString. repeat wp_prim0; try reflexivity.
    all: eapply wp_mono; [apply wp_true|]; intros [] s _;
      repeat wp_prim0; reflexivity. }
  exact (wp_done _ _ _ _ _ W H).
Qed.

Lemma xmlAddChild_last ip cur s r s' :
  xmlAddChild (Some ip) cur s = Done r s' ->
  o_type cur <> XML_TEXT_NODE ->
  exists target,
    forest_at (out (mem s)) ip = Some target /\
    forest_at (out (mem s')) ip
      = Some (with_children target (o_children target ++ [cur])).
Proof.
  intros H Hty.
  destruct (forest_at (out (mem s)) ip) as [target|] eqn:Et.
  - destruct (xmlAddChild_at ip cur s target Et) as (ts' & Eadd & Eat & _).
    rewrite Eadd in H. injection H as <- <-.
    rewrite (add_child_append _ _ Hty) in Eat.
    exists target. split; [reflexivity|exact Eat].
  - unfold xmlAddChild, bind, get in H. rewrite Et in H. discriminate.
Qed.

Lemma alloc_frame st ok st1 :
  alloc st = Done ok st1 ->
  ctxt st1 = ctxt st /\ out (mem st1) = out (mem st).
Proof.
  unfold alloc. destruct (allocs (mem st)) as [|b l]; intros [= <- <-]; auto.
Qed.

Lemma append_run ip c s1 st' :
  insert (ctxt s1) = Some ip ->
  o_type c <> XML_TEXT_NODE ->
  (do ok <- alloc;
   if ok : bool then
     do st <- get;
     do _ <- xmlAddChild (insert (ctxt st)) c;
     ret tt
   else ret tt) s1 = Done tt st' ->
  appended ip c s1 st'.
Proof.
  intros Hins Hty H.
  apply bind_done in H as (ok & s2 & Ea & H).
  destruct (alloc_frame _ _ _ Ea) as [Ec Eo].
  exists ok, s2. split; [exact Ea|]. destruct ok.
  - unfold bind at 1, get at 1 in H.
    apply bind_done in H as (r & s3 & Hadd & H). injection H as <-.
    rewrite Ec, Hins in Hadd.
    destruct (xmlAddChild_last _ _ _ _ _ Hadd Hty) as (t1 & Et1 & Et).
    exists t1. rewrite <- Eo. auto.
  - injection H as <-. exact Eo.
Qed.

(** X20.  xsl:comment and xsl:processing-instruction append a node of
    their kind as the last child of the insertion node.  Whenever the
    instruction returns, run under an insertion point (and, for the
    processing instruction, with a name), its body has been evaluated to
    a string from the entry state, and every node that the result tree
    had at entry is still at its position; then, if the node can be
    allocated, the node at the insertion point has got one more child
    after the ones it had, a comment node, or a processing-instruction
    node of the name, whose content is the string the body evaluated
    to, the empty string when there is none; if the allocation fails
    nothing is added. *)
Theorem comment_and_pi_append X fuel nd inst st st' ip :
  insert (ctxt st) = Some ip ->
  (xsltComment (exec X fuel) nd inst st = Done tt st' ->
   exists value s1,
     xsltEvalTemplateString (exec X fuel) nd inst st = Done value s1 /\
     grows (out (mem st)) (out (mem s1)) /\
     appended ip (new_node XML_COMMENT_NODE "comment" (default "" value))
              s1 st') /\
  (forall ncname,
     xsltEvalAttrValueTemplate X st inst "name" = Some ncname ->
     xsltProcessingInstruction X (exec X fuel) nd inst st = Done tt st' ->
     exists value s1,
       xsltEvalTemplateString (exec X fuel) nd inst st = Done value s1 /\
       grows (out (mem st)) (out (mem s1)) /\
       appended ip (new_node XML_PI_NODE ncname (default "" value)) s1 st').
Proof.
  intros Hins.
  assert (Hev : forall value s1,
             xsltEvalTemplateString (exec X fuel) nd inst st = Done value s1 ->
             grows (out (mem st)) (out (mem s1)) /\
             insert (ctxt s1) = Some ip).
  { intros value s1 E. split.
    - pose proof (wp_done _ _ _ _ _
        (xsltEvalTemplateString_steady (exec X fuel) (exec_steady X fuel)
           nd inst st) E) as S.
      apply S.
    - rewrite (xsltEvalTemplateString_insert _ _ _ _ _ _ E). exact Hins. }
  split.
  - intros H. unfold xsltComment in H.
    apply bind_done in H as (v & s1 & E & H).
    destruct (Hev v s1 E) as [G Hi].
    exists v, s1. split; [exact E|]. split; [exact G|].
    apply append_run; [exact Hi|discriminate|exact H].
  - intros ncname Hname H. unfold xsltProcessingInstruction in H.
    unfold bind at 1, get at 1 in H. rewrite Hins, Hname in H.
    apply bind_done in H as (v & s1 & E & H).
    destruct (Hev v s1 E) as [G Hi].
    exists v, s1. split; [exact E|]. split; [exact G|].
    apply append_run; [exact Hi|discriminate|exact H].
Qed.

Lemma comment_and_pi_append_witness :
  xsltComment (exec Demo.engine 20) (Some 0%nat) Cases.comment_note
    Demo.filled
  = Done tt (Demo.final
               (xsltComment (exec Demo.engine 20) (Some 0%nat)
                  Cases.comment_note Demo.filled) Demo.filled) /\
  exists value s1,
    xsltEvalTemplateString (exec Demo.engine 20) (Some 0%nat)
      Cases.comment_note Demo.filled = Done value s1 /\
    appended Cases.at_out
      (new_node XML_COMMENT_NODE "comment" (default "" value)) s1
      (Demo.final
         (xsltComment (exec Demo.engine 20) (Some 0%nat)
            Cases.comment_note Demo.filled) Demo.filled).
Proof.
  assert (H : xsltComment (exec Demo.engine 20) (Some 0%nat)
                Cases.comment_note Demo.filled
  = Done tt (Demo.final
               (xsltComment (exec Demo.engine 20) (Some 0%nat)
                  Cases.comment_note Demo.filled) Demo.filled))
    by (vm_compute; reflexivity).
  split; [exact H|].
  destruct (proj1 (comment_and_pi_append Demo.engine 20
                     (Some 0%nat) Cases.comment_note Demo.filled _
                     Cases.at_out eq_refl) H) as (value & s1 & E & _ & A).
  exists value, s1. split; [exact E|exact A].
Defined.

(** ** Updates of the result forest, composed *)

(** *** Updates of the result forest, one after the other *)
Lemma list_update_ext {A} (f g : A -> option A) : forall l i,
  (forall x, nth_error l i = Some x -> f x = g x) ->
  list_update l i f = list_update l i g.
Proof.
  induction l as [|a l IH]; intros [|i] H; simpl; try reflexivity.
  - rewrite (H a eq_refl). reflexivity.
  - rewrite (IH i); [reflexivity|]. intros x Hx. apply H. exact Hx.
Qed.

Lemma list_update_twice {A} (f g : A -> option A) : forall l i l1,
  list_update l i f = Some l1 ->
  list_update l1 i g =
  list_update l i (fun x => match f x with Some y => g y | None => None end).
Proof.
  induction l as [|a l IH]; intros [|i] l1 H; simpl in *; try discriminate.
  - destruct (f a) as [y|]; [|discriminate]. injection H as <-. reflexivity.
  - destruct (list_update l i f) as [l'|] eqn:E; [|discriminate].
    injection H as <-. simpl. rewrite (IH i l' E). reflexivity.
Qed.

Lemma list_update_snoc {A} (f : A -> option A) l x :
  list_update (l ++ [x]) (length l) f =
  match f x with Some y => Some (l ++ [y]) | None => None end.
Proof.
  induction l as [|a l IH]; simpl.
  - destruct (f x); reflexivity.
  - rewrite IH. destruct (f x); reflexivity.
Qed.

Lemma out_update_ext f g : forall path t,
  (forall n, out_at t path = Some n -> f n = g n) ->
  out_update t path f = out_update t path g.
Proof.
  induction path as [|i rest IH]; intros t H; simpl.
  - apply H. reflexivity.
  - rewrite (list_update_ext (fun c => out_update c rest f)
                             (fun c => out_update c rest g)); [reflexivity|].
    intros c Hc. apply IH. intros n Hn. apply H. simpl. rewrite Hc. exact Hn.
Qed.

Lemma list_update_none {A} (F G : A -> option A) : forall l i,
  (forall x, nth_error l i = Some x -> F x = None -> G x = None) ->
  list_update l i F = None -> list_update l i G = None.
Proof.
  induction l as [|a l IH]; intros [|i] H E; simpl in *; try reflexivity.
  - destruct (F a) eqn:Ea; [discriminate|]. rewrite (H a eq_refl Ea).
    reflexivity.
  - destruct (list_update l i F) eqn:El; [discriminate|].
    rewrite (IH i); [reflexivity| |exact El]. intros x Hx. apply H. exact Hx.
Qed.

Lemma out_update_none f g : forall path t,
  out_update t path f = None ->
  out_update t path
    (fun n => match f n with Some m => g m | None => None end) = None.
Proof.
  induction path as [|i rest IH]; intros t H; simpl in *.
  - rewrite H. reflexivity.
  - destruct (list_update (o_children t) i (fun c => out_update c rest f))
      eqn:E; [discriminate|].
    rewrite (list_update_none (fun c => out_update c rest f)
               (fun c => out_update c rest
                  (fun n => match f n with Some m => g m | None => None end))
               _ _ (fun x _ Hx => IH x Hx) E).
    reflexivity.
Qed.

Lemma out_update_twice f g : forall path t t1,
  out_update t path f = Some t1 ->
  out_update t1 path g =
  out_update t path (fun n => match f n with Some m => g m | None => None end).
Proof.
  induction path as [|i rest IH]; intros t t1 H; simpl in *.
  - rewrite H. reflexivity.
  - destruct (list_update (o_children t) i _) as [cs|] eqn:E; [|discriminate].
    injection H as <-. simpl.
    rewrite (list_update_twice _ (fun c => out_update c rest g) _ _ _ E).
    rewrite (list_update_ext _
               (fun c => out_update c rest
                  (fun n => match f n with Some m => g m | None => None end))).
    + destruct (list_update (o_children t) i _); reflexivity.
    + intros c Hc. destruct (out_update c rest f) as [c1|] eqn:Ec.
      * apply IH. exact Ec.
      * symmetry. apply out_update_none. exact Ec.
Qed.

Lemma out_update_child f : forall path t k,
  out_update t (path ++ [k]) f =
  out_update t path
    (fun n => match list_update (o_children n) k f with
              | Some cs => Some (with_children n cs)
              | None => None
              end).
Proof.
  induction path as [|i rest IH]; intros t k; simpl.
  - rewrite (list_update_ext (fun c => out_update c [] f) f); [reflexivity|].
    reflexivity.
  - rewrite (list_update_ext (fun c => out_update c (rest ++ [k]) f)
               (fun c => out_update c rest
                  (fun n => match list_update (o_children n) k f with
                            | Some cs => Some (with_children n cs)
                            | None => None
                            end))); [reflexivity|].
    intros c _. apply IH.
Qed.

Lemma forest_update_ext f g ts p :
  (forall n, forest_at ts p = Some n -> f n = g n) ->
  forest_update ts p f = forest_update ts p g.
Proof.
  intros H. unfold forest_update. apply list_update_ext.
  intros t Ht. apply out_update_ext. intros n Hn. apply H.
  unfold forest_at. rewrite Ht. exact Hn.
Qed.

Lemma forest_update_twice f g ts p ts1 :
  forest_update ts p f = Some ts1 ->
  forest_update ts1 p g =
  forest_update ts p
    (fun n => match f n with Some m => g m | None => None end).
Proof.
  unfold forest_update. intros H.
  rewrite (list_update_twice _ (fun t => out_update t (p_path p) g) _ _ _ H).
  apply list_update_ext. intros t Ht.
  destruct (out_update t (p_path p) f) as [t1|] eqn:E.
  - apply out_update_twice. exact E.
  - destruct (list_update_spec _ _ _ _ H) as (x & y & Ex & Ey & _).
    congruence.
Qed.

Lemma forest_update_child f ts p k :
  forest_update ts (out_child p k) f =
  forest_update ts p
    (fun n => match list_update (o_children n) k f with
              | Some cs => Some (with_children n cs)
              | None => None
              end).
Proof.
  unfold forest_update, out_child. simpl.
  apply list_update_ext. intros t _. apply out_update_child.
Qed.

(** ** The walk of a literal template body *)

Lemma literal_element nm ns d ps cs :
  literal (Element nm ns d ps cs) =
  negb (IS_XSLT_ELEM (Element nm ns d ps cs)) && forallb literal cs.
Proof. reflexivity. Qed.

Lemma node_count_element nm ns d ps cs :
  node_count (Element nm ns d ps cs) = S (nodes_count cs).
Proof. reflexivity. Qed.

(** *** Cursors *)
Lemma node_at_app top : forall l i,
  node_at top (l ++ [i]) =
  match node_at top l with
  | Some n => nth_error (node_children n) i
  | None => None
  end.
Proof.
  intros l. revert top. induction l as [|j l IH]; intros top i; simpl.
  - destruct (nth_error (node_children top) i); reflexivity.
  - destruct (nth_error (node_children top) j); [apply IH|reflexivity].
Qed.

Lemma cursor_node_child top q i P :
  cursor_node {| c_top := top; c_path := q |} = Some P ->
  cursor_node {| c_top := top; c_path := i :: q |}
  = nth_error (node_children P) i.
Proof.
  unfold cursor_node. simpl. intros H. rewrite node_at_app, H. reflexivity.
Qed.

Lemma cursor_next_child top q i P :
  cursor_node {| c_top := top; c_path := q |} = Some P ->
  cursor_next {| c_top := top; c_path := i :: q |} =
  match nth_error (node_children P) (S i) with
  | Some _ => Some {| c_top := top; c_path := S i :: q |}
  | None => None
  end.
Proof.
  intros H. unfold cursor_next. simpl.
  rewrite (cursor_node_child top q (S i) P H). reflexivity.
Qed.

Lemma out_parent_child p k : out_parent (out_child p k) = Some p.
Proof.
  unfold out_parent, out_child. simpl.
  destruct (p_path p ++ [k]) eqn:E.
  - destruct (p_path p); discriminate.
  - rewrite <- E, removelast_last. destruct p. reflexivity.
Qed.

(** *** The steps of the walk on literal nodes *)
Lemma forest_update_same ts p t :
  forest_at ts p = Some t ->
  forest_update ts p (fun _ => Some (with_children t (o_children t)))
  = Some ts.
Proof.
  intros Ht.
  destruct (forest_update_total
              (fun _ : outNode => Some (with_children t (o_children t)))
              ts p t _ Ht eq_refl) as (ts' & E).
  rewrite E. f_equal.
  unfold forest_update in E. unfold forest_at in Ht.
  assert (L : forall (l : list outNode) i (f : outNode -> option outNode) l',
             list_update l i f = Some l' ->
             (forall x, nth_error l i = Some x -> f x = Some x) -> l' = l).
  { induction l as [|a l IH]; intros [|i] f l' H Hf; simpl in *;
      try discriminate.
    - rewrite (Hf a eq_refl) in H. congruence.
    - destruct (list_update l i f) eqn:E1; [|discriminate].
      injection H as <-. f_equal. eapply IH; eauto. }
  assert (O : forall path (t0 t1 : outNode),
             out_at t0 path = Some t ->
             out_update t0 path
               (fun _ => Some (with_children t (o_children t))) = Some t1 ->
             t1 = t0).
  { induction path as [|i rest IH]; intros t0 t1 H0 H1; simpl in *.
    - injection H0 as ->. injection H1 as <-. destruct t. reflexivity.
    - destruct (list_update (o_children t0) i _) as [cs|] eqn:E1;
        [|discriminate].
      injection H1 as <-.
      destruct (nth_error (o_children t0) i) as [c|] eqn:Ec; [|discriminate].
      assert (cs = o_children t0).
      { eapply L; [exact E1|]. intros x Hx.
        assert (x = c) by congruence. subst x. cbv beta.
        destruct (out_update c rest
                    (fun _ : outNode =>
                       Some (with_children t (o_children t))))
          as [c1|] eqn:E2.
        - f_equal. eapply IH; eauto.
        - destruct (list_update_spec _ _ _ _ E1) as (x & y & Ex & Ey & _).
          congruence. }
      subst cs. destruct t0. reflexivity. }
  eapply L; [exact E|]. intros x Hx. rewrite Hx in Ht. cbv beta.
  destruct (out_update x (p_path p)
              (fun _ : outNode => Some (with_children t (o_children t))))
    as [x1|] eqn:E2.
  - f_equal. eapply O; eauto.
  - destruct (list_update_spec _ _ _ _ E) as (x0 & y & Ex & Ey & _).
    congruence.
Qed.

Lemma xmlAddChild_run ip cur st target :
  forest_at (out (mem st)) ip = Some target ->
  exists st1,
    xmlAddChild (Some ip) cur st =
      Done (Some (out_child ip (snd (add_child (o_children target) cur))))
           st1 /\
    forest_update (out (mem st)) ip
      (fun _ => Some (with_children target
                        (fst (add_child (o_children target) cur))))
      = Some (out (mem st1)) /\
    ctxt st1 = ctxt st /\ src (mem st1) = src (mem st) /\
    errors (mem st1) = errors (mem st) /\ allocs (mem st1) = allocs (mem st).
Proof.
  intros Ht.
  destruct (forest_update_total
              (fun _ : outNode =>
                 Some (with_children target
                         (fst (add_child (o_children target) cur))))
              _ _ _ _ Ht eq_refl) as (ts' & Eu).
  exists (set_mem (with_out ts') st). split; [|split; [exact Eu|]].
  - unfold xmlAddChild, bind, get, deref, ret. rewrite Ht.
    destruct (add_child (o_children target) cur) as [cs i] eqn:Ea.
    simpl in *.
    rewrite (forest_update_ext (fun t => Some (with_children t cs))
               (fun _ => Some (with_children target cs))), Eu;
      [reflexivity|].
    intros n Hn. congruence.
  - simpl. repeat split; reflexivity.
Qed.

Lemma xsltCopyNode_run nd ins st target :
  allocs_succeed st ->
  forest_at (out (mem st)) ins = Some target ->
  exists st1 copy,
    xsltCopyNode nd ins st
      = Done (out_child ins (length (o_children target))) st1 /\
    forest_update (out (mem st)) ins
      (fun _ => Some (with_children target (o_children target ++ [copy])))
      = Some (out (mem st1)) /\
    o_type copy = XML_ELEMENT_NODE /\ o_name copy = node_name nd /\
    o_content copy = "" /\ o_children copy = [] /\
    allocs_succeed st1 /\
    ctxt st1 = ctxt st /\ src (mem st1) = src (mem st) /\
    errors (mem st1) = errors (mem st).
Proof.
  intros Ha Hat.
  destruct (alloc_succeeds _ Ha) as (s2 & Ea & Ha2 & Hc & Hs & Ho & He).
  assert (Hat2 : forest_at (out (mem s2)) ins = Some target) by congruence.
  unfold xsltCopyNode. unfold bind at 1. rewrite Ea.
  unfold bind at 1. unfold ret at 1. unfold bind at 1. unfold get at 1.
  unfold bind at 1. rewrite Hat2. unfold deref at 1, ret at 1.
  match goal with
  | |- context [let '(cns, nsdef) := ?e in _] =>
      destruct e as [cns nsdef] eqn:Ens
  end.
  match goal with
  | |- context [xmlAddChild (Some ins) ?c] =>
      destruct (xmlAddChild_run ins c s2 target Hat2)
        as (st1 & Eadd & Eu & Hc1 & Hs1 & He1 & Ha1);
      assert (Eapp : add_child (o_children target) c
                     = (o_children target ++ [c], length (o_children target)))
        by (apply add_child_append; discriminate);
      rewrite Eapp in Eadd, Eu; cbn [fst snd] in Eadd, Eu;
      exists st1, c
  end.
  split; [unfold bind; rewrite Eadd; reflexivity|].
  split; [rewrite <- Ho; exact Eu|].
  simpl. repeat split; try congruence.
  unfold allocs_succeed in *. rewrite Ha1. exact Ha2.
Qed.

Section Walk.

Variable X : externals.

Variable nd : option ptr.

Variable old : option outPtr.

Variable top : xmlNode.

Lemma loop_unfold f w st :
  exec X (S f) (TemplateLoop nd old w) st =
  bind (xsltApplyOneTemplate_step X (exec X f) nd old w)
       (finish X nd old f) st.
Proof. reflexivity. Qed.

Lemma same_but_out_trans a b c :
  same_but_out a b -> same_but_out b c -> same_but_out a c.
Proof.
  intros (? & ? & ? & ?) (? & ? & ? & ?). repeat split; congruence.
Qed.

(** The node after the last child of an element is reached from the
    element: leaving the children under the copy comes to the same as
    leaving the element under its own insertion point. *)
Lemma skip_children_last j q c ins copy st :
  cursor_next {| c_top := top; c_path := j :: q |} = None ->
  q <> [] -> out_parent c = Some ins ->
  skip_children (walk_at top (j :: q) c copy) st =
  skip_children (walk_at top q ins copy) st.
Proof.
  intros Hnext Hq Hpar. unfold skip_children, walk_at. cbn [w_cur w_insert
    w_copy w_has_variables c_top c_path]. rewrite Hnext.
  cbn [unwind]. unfold bind at 2. unfold deref at 1, ret at 1.
  rewrite Hpar. destruct q as [|i q]; [contradiction|].
  destruct (cursor_next {| c_top := top; c_path := i :: q |}) as [nx|];
    reflexivity.
Qed.

Lemma graft_child F0 Fa ins target cs0 x g y :
  forest_update F0 ins
    (fun _ => Some (with_children target (cs0 ++ [x]))) = Some Fa ->
  g x = Some y ->
  forest_update Fa (out_child ins (length cs0)) g =
  forest_update F0 ins (fun _ => Some (with_children target (cs0 ++ [y]))).
Proof.
  intros H Hg. rewrite forest_update_child.
  rewrite (forest_update_twice _ _ _ _ _ H). cbn [o_children with_children].
  rewrite list_update_snoc, Hg. reflexivity.
Qed.

Lemma graft_child_at F0 Fa ins target cs0 x :
  forest_update F0 ins
    (fun _ => Some (with_children target (cs0 ++ [x]))) = Some Fa ->
  forest_at Fa (out_child ins (length cs0)) = Some x.
Proof.
  intros H. destruct (forest_update_at _ _ _ _ H) as (n & n' & _ & E & E').
  injection E as <-. rewrite forest_at_child, E'. simpl.
  rewrite nth_error_app2 by lia. rewrite Nat.sub_diag. reflexivity.
Qed.

Lemma graft_again F0 Fa Fb ins target cs1 cs2 :
  forest_update F0 ins (fun _ => Some (with_children target cs1)) = Some Fa ->
  forest_update Fa ins
    (fun _ => Some (with_children (with_children target cs1) cs2)) = Some Fb ->
  forest_update F0 ins (fun _ => Some (with_children target cs2)) = Some Fb.
Proof.
  intros H1 H2. rewrite (forest_update_twice _ _ _ _ _ H1) in H2. exact H2.
Qed.

(** The copy of a literal result element and of its attributes *)
Lemma copy_element nm ns d ps kids ins st target :
  allocs_succeed st ->
  forest_at (out (mem st)) ins = Some target ->
  exists st1 e,
    (do c <- xsltCopyNode (Element nm ns d ps kids) ins;
     match node_properties (Element nm ns d ps kids) with
     | [] => ret tt
     | _ :: _ =>
         do st <- get;
         xmlSetProperties c
           (xsltAttrListTemplateProcess X st c
              (node_properties (Element nm ns d ps kids)))
     end;;
     ret (Some c)) st
    = Done (Some (out_child ins (length (o_children target)))) st1 /\
    forest_update (out (mem st)) ins
      (fun _ => Some (with_children target (o_children target ++ [e])))
      = Some (out (mem st1)) /\
    o_type e = XML_ELEMENT_NODE /\ o_name e = nm /\ o_content e = "" /\
    o_children e = [] /\ same_but_out st st1.
Proof.
  intros Ha Hat.
  destruct (xsltCopyNode_run (Element nm ns d ps kids) ins st target Ha Hat)
    as (sa & copy & Ecopy & Eu & Hty & Hnm & Hct & Hch & Ha1 & Hc & Hs & He).
  unfold bind at 1. rewrite Ecopy. cbn [node_properties].
  destruct ps as [|a ps].
  - exists sa, copy. split; [reflexivity|]. split; [exact Eu|].
    repeat split; auto.
  - set (c := out_child ins (length (o_children target))).
    set (ps' := xsltAttrListTemplateProcess X sa c (a :: ps)).
    destruct (forest_update_total
                (fun _ : outNode =>
                   Some (with_children target
                           (o_children target ++ [with_properties copy ps'])))
                _ _ _ _ Hat eq_refl) as (Fb & Eb).
    assert (E2 : forest_update (out (mem sa)) c
                   (fun t => Some (with_properties t ps')) = Some Fb).
    { unfold c.
      rewrite (graft_child _ _ _ _ _ _
                 (fun t => Some (with_properties t ps')) _ Eu eq_refl).
      exact Eb. }
    exists (set_mem (with_out Fb) sa), (with_properties copy ps').
    split.
    + unfold bind, get, xmlSetProperties, bind, get, deref, ret.
      fold c. fold ps'. rewrite E2. reflexivity.
    + split; [exact Eb|]. simpl. repeat split; auto.
Qed.

Section Siblings.

Variable N : nat.

Hypothesis Hnode : forall n,
  (node_count n <= N)%nat -> literal n = true ->
  forall q ins copy f st target,
    q <> [] ->
    cursor_node {| c_top := top; c_path := q |} = Some n ->
    allocs_succeed st -> forest_at (out (mem st)) ins = Some target ->
    exists st1 copy1 cs1,
      exec X (node_count n + f)
        (TemplateLoop nd old (walk_at top q ins copy)) st
      = bind (skip_children (walk_at top q ins copy1)) (finish X nd old f)
             st1 /\
      (forall rest cs2,
         emits rest cs1 cs2 -> emits (n :: rest) (o_children target) cs2) /\
      forest_update (out (mem st)) ins
        (fun _ => Some (with_children target cs1)) = Some (out (mem st1)) /\
      same_but_out st st1.

Lemma walk_siblings P qP : 
  cursor_node {| c_top := top; c_path := qP |} = Some P ->
  forall rest i ins copy f st target,
    drop i (node_children P) = rest -> rest <> [] ->
    (nodes_count rest <= N)%nat -> forallb literal rest = true ->
    allocs_succeed st -> forest_at (out (mem st)) ins = Some target ->
    exists st1 copy1 cs1,
      exec X (nodes_count rest + f)
        (TemplateLoop nd old (walk_at top (i :: qP) ins copy)) st
      = bind (skip_children
                (walk_at top ((i + length rest - 1)%nat :: qP) ins copy1))
             (finish X nd old f) st1 /\
      emits rest (o_children target) cs1 /\
      forest_update (out (mem st)) ins
        (fun _ => Some (with_children target cs1)) = Some (out (mem st1)) /\
      same_but_out st st1.
Proof.
  intros HP. induction rest as [|n rest IH];
    intros i ins copy f st target Hdrop Hne Hsize Hlit Ha Hat;
    [contradiction|].
  unfold nodes_count in Hsize. simpl in Hsize, Hlit.
  apply andb_prop in Hlit as [Hln Hlr].
  assert (Hi : nth_error (node_children P) i = Some n).
  { rewrite <- hd_error_skipn, Hdrop. reflexivity. }
  assert (Hdrop' : drop (S i) (node_children P) = rest).
  { replace (S i) with (i + 1)%nat by lia.
    rewrite <- drop_drop, Hdrop. reflexivity. }
  assert (Hq : i :: qP <> []) by discriminate.
  assert (Hcur : cursor_node {| c_top := top; c_path := i :: qP |} = Some n).
  { rewrite (cursor_node_child top qP i P HP). exact Hi. }
  destruct (Hnode n ltac:(lia) Hln (i :: qP) ins copy
              (nodes_count rest + f)%nat st target Hq Hcur Ha Hat)
    as (s1 & copy1 & cs1 & Erun & Hem & Eu & Hsame).
  assert (Efuel : (nodes_count (n :: rest) + f
                   = node_count n + (nodes_count rest + f))%nat).
  { unfold nodes_count. simpl. lia. }
  rewrite Efuel, Erun.
  destruct rest as [|n2 rest].
  - (* the last sibling *)
    exists s1, copy1, cs1. simpl.
    replace (i + 1 - 1)%nat with i by lia.
    split; [reflexivity|]. split; [apply Hem; constructor|].
    split; [exact Eu|exact Hsame].
  - (* on to the next sibling *)
    destruct (forest_update_at _ _ _ _ Eu) as (t0 & t1 & _ & Et1 & Hat1).
    injection Et1 as <-.
    assert (Hne2 : n2 :: rest <> []) by discriminate.
    assert (Hsize2 : (nodes_count (n2 :: rest) <= N)%nat).
    { unfold nodes_count in *. simpl in *. lia. }
    destruct (IH (S i) ins copy1 f s1 (with_children target cs1)
                Hdrop' Hne2 Hsize2 Hlr (proj1 Hsame) Hat1)
      as (s2 & copy2 & cs2 & Erun2 & Hem2 & Eu2 & Hsame2).
    exists s2, copy2, cs2. split; [|split; [|split]].
    + unfold bind at 1. unfold skip_children at 1.
      cbn [walk_at w_cur w_insert w_copy w_has_variables].
      rewrite (cursor_next_child top qP i P HP).
      assert (Hn2 : nth_error (node_children P) (S i) = Some n2).
      { rewrite <- hd_error_skipn, Hdrop'. reflexivity. }
      rewrite Hn2. unfold ret at 1. cbn [finish].
      fold (walk_at top (S i :: qP) ins copy1). rewrite Erun2.
      simpl length. 
      replace (S i + S (length rest) - 1)%nat
        with (i + S (S (length rest)) - 1)%nat by lia.
      reflexivity.
    + apply Hem. exact Hem2.
    + eapply graft_again; eauto.
    + eapply same_but_out_trans; eauto.
Qed.

End Siblings.

Lemma step_leaf rec k nm c q ins copy st target :
  cursor_node {| c_top := top; c_path := q |} = Some (Leaf k nm c) ->
  allocs_succeed st -> forest_at (out (mem st)) ins = Some target ->
  exists st1 copy1 cs1,
    xsltApplyOneTemplate_step X rec nd old (walk_at top q ins copy) st
      = skip_children (walk_at top q ins copy1) st1 /\
    (forall rest cs2,
       emits rest cs1 cs2 ->
       emits (Leaf k nm c :: rest) (o_children target) cs2) /\
    forest_update (out (mem st)) ins
      (fun _ => Some (with_children target cs1)) = Some (out (mem st1)) /\
    same_but_out st st1.
Proof.
  intros Hcur Ha Hat.
  assert (Etail : forall copy0,
    match first_child_type (Leaf k nm c) with
    | Some t =>
        match cursor_children {| c_top := top; c_path := q |} with
        | Some down =>
            if bool_decide (t = XML_ENTITY_DECL)
            then
              skip_children
                {| w_cur := {| c_top := top; c_path := q |};
                   w_insert := Some ins; w_copy := copy0;
                   w_has_variables := false |}
            else
              ret (WalkNext
                     {| w_cur := down;
                        w_insert := match copy0 with
                                    | Some c0 => Some c0
                                    | None => Some ins
                                    end;
                        w_copy := copy0; w_has_variables := false |})
        | None =>
            skip_children
              {| w_cur := {| c_top := top; c_path := q |};
                 w_insert := Some ins; w_copy := copy0;
                 w_has_variables := false |}
        end
    | None =>
        skip_children
          {| w_cur := {| c_top := top; c_path := q |};
             w_insert := Some ins; w_copy := copy0;
             w_has_variables := false |}
    end = skip_children (walk_at top q ins copy0)).
  { intros copy0. unfold cursor_children. rewrite Hcur.
    destruct k; reflexivity. }
  unfold xsltApplyOneTemplate_step.
  cbn [walk_at w_cur w_insert w_copy w_has_variables].
  unfold bind at 1. rewrite Hcur. unfold deref at 1, ret at 1.
  change (IS_XSLT_ELEM (Leaf k nm c)) with false. cbv iota.
  assert (Hk : k = LText \/ k <> LText)
    by (destruct k; (left; reflexivity) || (right; discriminate)).
  destruct Hk as [-> | Hk].
  - destruct (alloc_succeeds _ Ha) as (sa & Ea & Ha1 & Hc & Hs & Ho & He).
    assert (Hat1 : forest_at (out (mem sa)) ins = Some target) by congruence.
    destruct (xmlAddChild_run ins (xmlCopyNode (Leaf LText nm c)) sa target
                Hat1) as (s1 & Eadd & Eu & Hc1 & Hs1 & He1 & Ha2).
    eexists s1, _, _. split; [|split; [|split]].
    + unfold bind at 1.
      assert (E1 : bool_decide (node_type (Leaf LText nm c) = XML_TEXT_NODE)
                   = true) by reflexivity.
      rewrite E1. unfold bind at 1. rewrite Ea. cbv iota. rewrite Eadd.
      rewrite Etail. reflexivity.
    + intros rest cs2 H. apply emits_text. exact H.
    + rewrite <- Ho. exact Eu.
    + repeat split; try congruence.
      unfold allocs_succeed in *. rewrite Ha2. exact Ha1.
  - exists st, copy, (o_children target). split; [|split; [|split]].
    + unfold bind at 1.
      assert (E1 : bool_decide (node_type (Leaf k nm c) = XML_TEXT_NODE)
                   = false) by (destruct k; try reflexivity; congruence).
      assert (E2 : bool_decide (node_type (Leaf k nm c) = XML_ELEMENT_NODE)
                   = false) by (destruct k; reflexivity).
      rewrite E1, E2. unfold ret at 1. rewrite Etail. reflexivity.
    + intros rest cs2 H. apply emits_skip; assumption.
    + apply forest_update_same. exact Hat.
    + repeat split; auto.
Qed.

Lemma walk_node : forall N n,
  (node_count n <= N)%nat -> literal n = true ->
  forall q ins copy f st target,
    q <> [] ->
    cursor_node {| c_top := top; c_path := q |} = Some n ->
    allocs_succeed st -> forest_at (out (mem st)) ins = Some target ->
    exists st1 copy1 cs1,
      exec X (node_count n + f)
        (TemplateLoop nd old (walk_at top q ins copy)) st
      = bind (skip_children (walk_at top q ins copy1)) (finish X nd old f)
             st1 /\
      (forall rest cs2,
         emits rest cs1 cs2 -> emits (n :: rest) (o_children target) cs2) /\
      forest_update (out (mem st)) ins
        (fun _ => Some (with_children target cs1)) = Some (out (mem st1)) /\
      same_but_out st st1.
Proof.
  induction N as [|N IHN]; intros n Hsize Hlit q ins copy f st target
    Hq Hcur Ha Hat.
  { destruct n; simpl in Hsize; lia. }
  destruct n as [nm ns d ps kids | k nm c].
  2:{ (* a leaf *)
    change (node_count (Leaf k nm c) + f)%nat with (S f).
    rewrite loop_unfold.
    destruct (step_leaf (exec X f) k nm c q ins copy st target Hcur Ha Hat)
      as (s1 & copy1 & cs1 & Estep & Hem & Eu & Hsame).
    exists s1, copy1, cs1. split; [|auto].
    unfold bind at 1. rewrite Estep. reflexivity. }
  (* a literal result element *)
  rewrite literal_element in Hlit. apply andb_prop in Hlit as [Hx Hkids].
  apply negb_true_iff in Hx.
  rewrite node_count_element in Hsize |- *.
  change (S (nodes_count kids) + f)%nat with (S (nodes_count kids + f)).
  rewrite loop_unfold.
  destruct (copy_element nm ns d ps kids ins st target Ha Hat)
    as (sb & e & Ecopy & Eu & Hty & Hnm & Hct & Hch & Hsame).
  set (c := out_child ins (length (o_children target))) in *.
  assert (Estep : forall rec,
    xsltApplyOneTemplate_step X rec nd old (walk_at top q ins copy) st =
    match first_child_type (Element nm ns d ps kids) with
    | Some t =>
        match cursor_children {| c_top := top; c_path := q |} with
        | Some down =>
            if bool_decide (t = XML_ENTITY_DECL)
            then skip_children (walk_at top q ins (Some c))
            else ret (WalkNext
                        {| w_cur := down; w_insert := Some c;
                           w_copy := Some c; w_has_variables := false |})
        | None => skip_children (walk_at top q ins (Some c))
        end
    | None => skip_children (walk_at top q ins (Some c))
    end sb).
  { intros rec. unfold xsltApplyOneTemplate_step.
    cbn [walk_at w_cur w_insert w_copy w_has_variables].
    unfold bind at 1. rewrite Hcur. unfold deref at 1, ret at 1.
    rewrite Hx.
    assert (E1 : bool_decide (node_type (Element nm ns d ps kids)
                              = XML_TEXT_NODE) = false) by reflexivity.
    assert (E2 : bool_decide (node_type (Element nm ns d ps kids)
                              = XML_ELEMENT_NODE) = true) by reflexivity.
    rewrite E1, E2. unfold bind at 1. rewrite Ecopy. reflexivity. }
  unfold bind at 1. rewrite Estep. clear Estep.
  destruct kids as [|k1 kids].
  - (* no content *)
    exists sb, (Some c), (o_children target ++ [e]).
    split; [reflexivity|]. split; [|split; [exact Eu|exact Hsame]].
    intros rest cs2 H. eapply emits_element; eauto.
    rewrite Hch. constructor.
  - (* the content is walked under the copy *)
    assert (Ec : cursor_children {| c_top := top; c_path := q |}
                 = Some {| c_top := top; c_path := 0%nat :: q |}).
    { unfold cursor_children. rewrite Hcur. reflexivity. }
    assert (Et : bool_decide (node_type k1 = XML_ENTITY_DECL) = false).
    { destruct k1 as [? ? ? ? ?|k ? ?]; [reflexivity|destruct k; reflexivity]. }
    cbn [first_child_type]. rewrite Ec, Et. unfold ret at 1. cbn [finish].
    fold (walk_at top (0%nat :: q) c (Some c)).
    assert (Hate : forest_at (out (mem sb)) c = Some e).
    { unfold c. eapply graft_child_at. exact Eu. }
    assert (Hne : k1 :: kids <> []) by discriminate.
    destruct (walk_siblings N IHN (Element nm ns d ps (k1 :: kids)) q Hcur
                (k1 :: kids) 0%nat c (Some c) f sb e eq_refl Hne
                ltac:(lia) Hkids (proj1 Hsame) Hate)
      as (s2 & copy2 & ks & Erun & Hem & Eu2 & Hsame2).
    rewrite Erun.
    exists s2, copy2, (o_children target ++ [with_children e ks]).
    split; [|split; [|split]].
    + unfold bind. rewrite (skip_children_last _ q c ins); try assumption.
      * reflexivity.
      * rewrite (cursor_next_child top q _ _ Hcur).
        cbn [node_children length].
        replace (nth_error (k1 :: kids) (S (0 + S (length kids) - 1)))
          with (@None xmlNode); [reflexivity|].
        symmetry. apply nth_error_None. simpl. lia.
      * apply out_parent_child.
    + intros rest cs2 H.
      apply (emits_element nm ns d ps (k1 :: kids) rest (o_children target)
               (with_children e ks) cs2); auto.
      simpl. rewrite Hch in Hem. exact Hem.
    + rewrite <- Eu2. symmetry. unfold c.
      apply (graft_child _ _ _ _ _ _
               (fun _ => Some (with_children e ks)) _ Eu eq_refl).
    + eapply same_but_out_trans; eauto.
Qed.

End Walk.

Lemma template_body_run X fuel nd top i st ip target :
  (i < length (node_children top))%nat ->
  forallb literal (drop i (node_children top)) = true ->
  allocs_succeed st ->
  insert (ctxt st) = Some ip ->
  forest_at (out (mem st)) ip = Some target ->
  (nodes_count (drop i (node_children top)) <= fuel)%nat ->
  exists st' cs',
    xsltApplyOneTemplate (exec X fuel) nd
      (Some {| b_parent := top; b_index := i |}) st = Done tt st' /\
    emits (drop i (node_children top)) (o_children target) cs' /\
    forest_update (out (mem st)) ip
      (fun _ => Some (with_children target cs')) = Some (out (mem st')) /\
    forest_at (out (mem st')) ip = Some (with_children target cs') /\
    same_but_out st st'.
Proof.
  intros Hi Hlit Ha Hins Hat Hfuel.
  set (rest := drop i (node_children top)) in *.
  assert (Hne : rest <> []).
  { intros E. apply (f_equal (@length _)) in E. unfold rest in E.
    rewrite length_drop in E. simpl in E. lia. }
  assert (Hlen : (i + length rest = length (node_children top))%nat).
  { unfold rest. rewrite length_drop. lia. }
  destruct (walk_siblings X nd (Some ip) top (nodes_count rest)
              (walk_node X nd (Some ip) top (nodes_count rest))
              top [] eq_refl rest i ip None (fuel - nodes_count rest)%nat
              st target eq_refl Hne (Nat.le_refl _) Hlit Ha Hat)
    as (s1 & copy1 & cs1 & Erun & Hem & Eu & Hsame).
  replace (nodes_count rest + (fuel - nodes_count rest))%nat with fuel
    in Erun by lia.
  exists s1, cs1. split; [|split; [exact Hem|split; [exact Eu|]]].
  - unfold xsltApplyOneTemplate, bind, get. rewrite Hins.
    change (body_cursor {| b_parent := top; b_index := i |})
      with {| c_top := top; c_path := [i] |}.
    fold (walk_at top [i] ip None). rewrite Erun.
    unfold bind, skip_children.
    cbn [walk_at w_cur w_insert w_copy w_has_variables c_top c_path].
    rewrite (cursor_next_child top [] _ top eq_refl).
    replace (nth_error (node_children top) (S (i + length rest - 1)))
      with (@None xmlNode).
    + reflexivity.
    + symmetry. apply nth_error_None. lia.
  - destruct (forest_update_at _ _ _ _ Eu) as (n0 & n1 & _ & E1 & Hat1).
    injection E1 as <-. split; [exact Hat1|exact Hsame].
Qed.

(** X21.  A template body made of text and literal result elements is
    copied to the result.  When the nodes of the body from [list] on hold
    no XSLT element, xsltApplyOneTemplate returns (with fuel for one
    iteration per node) and the result forest is the one before with the
    children of the insertion node replaced by what the body gives
    ([emits]): the text nodes and the literal elements are added after
    the children that were there, in document order, each element with
    the copies of its own content as children.  The context, the
    insertion point included, the source tree and the error log are as
    they were. *)
Theorem template_body_instantiated X fuel nd top i st ip target :
  (i < length (node_children top))%nat ->
  forallb literal (drop i (node_children top)) = true ->
  allocs_succeed st ->
  insert (ctxt st) = Some ip ->
  forest_at (out (mem st)) ip = Some target ->
  (nodes_count (drop i (node_children top)) <= fuel)%nat ->
  exists st' cs',
    xsltApplyOneTemplate (exec X fuel) nd
      (Some {| b_parent := top; b_index := i |}) st = Done tt st' /\
    emits (drop i (node_children top)) (o_children target) cs' /\
    forest_update (out (mem st)) ip
      (fun _ => Some (with_children target cs')) = Some (out (mem st')) /\
    forest_at (out (mem st')) ip = Some (with_children target cs') /\
    ctxt st' = ctxt st /\ src (mem st') = src (mem st) /\
    errors (mem st') = errors (mem st).
Proof.
  intros Hi Hlit Ha Hins Hat Hfuel.
  destruct (template_body_run X fuel nd top i st ip target
              Hi Hlit Ha Hins Hat Hfuel)
    as (st' & cs' & Hrun & Hem & Eu & Hat' & _ & Hc & Hs & He).
  exists st', cs'. auto 10.
Qed.

Lemma template_body_instantiated_witness :
  exists st',
    xsltApplyOneTemplate (exec Demo.engine 3) (Some 0%nat)
      (Some {| b_parent := Cases.a_x_y; b_index := 0%nat |})
      (Demo.start Demo.plain Demo.hello None) = Done tt st' /\
    map Demo.render (out (mem st')) = ["<a>x</a>y"].
Proof.
  assert (H1 : (0 < length (node_children Cases.a_x_y))%nat)
    by (simpl; lia).
  assert (H2 : forallb literal (drop 0 (node_children Cases.a_x_y)) = true)
    by reflexivity.
  assert (H3 : allocs_succeed (Demo.start Demo.plain Demo.hello None))
    by apply Forall_nil_2.
  assert (H4 : insert (ctxt (Demo.start Demo.plain Demo.hello None))
               = Some Demo.root) by reflexivity.
  assert (H5 : forest_at (out (mem (Demo.start Demo.plain Demo.hello None)))
                 Demo.root = Some (new_node XML_DOCUMENT_NODE "" ""))
    by reflexivity.
  assert (H6 : (nodes_count (drop 0 (node_children Cases.a_x_y)) <= 3)%nat)
    by (vm_compute; lia).
  destruct (template_body_instantiated Demo.engine 3 (Some 0%nat)
              Cases.a_x_y 0%nat (Demo.start Demo.plain Demo.hello None)
              Demo.root _ H1 H2 H3 H4 H5 H6)
    as (st' & cs' & Hrun & _).
  exists st'. split; [exact Hrun|].
  assert (E : xsltApplyOneTemplate (exec Demo.engine 3) (Some 0%nat)
                (Some {| b_parent := Cases.a_x_y; b_index := 0%nat |})
                (Demo.start Demo.plain Demo.hello None)
              = Done tt
                  (Demo.final
                     (xsltApplyOneTemplate (exec Demo.engine 3) (Some 0%nat)
                        (Some {| b_parent := Cases.a_x_y;
                                 b_index := 0%nat |})
                        (Demo.start Demo.plain Demo.hello None))
                     (Demo.start Demo.plain Demo.hello None)))
    by (vm_compute; reflexivity).
  rewrite E in Hrun. injection Hrun as <-. vm_compute. reflexivity.
Defined.

(** ** xsl:for-each and xsl:if on literal bodies *)

Lemma emits_app l1 l2 cs cs' cs'' :
  emits l1 cs cs' -> emits l2 cs' cs'' -> emits (l1 ++ l2) cs cs''.
Proof.
  intros H1 H2. induction H1; simpl.
  - exact H2.
  - apply emits_text. auto.
  - apply emits_skip; auto.
  - eapply emits_element; eauto.
Qed.

Lemma with_children_same (t : outNode) : with_children t (o_children t) = t.
Proof. destruct t; reflexivity. Qed.

Lemma with_children_twice (t : outNode) cs cs' :
  with_children (with_children t cs) cs' = with_children t cs'.
Proof. destruct t; reflexivity. Qed.

(** The content of an instruction or of a template, all literal, run by
    the interpreter *)
Lemma content_run X fuel nd inst st ip target :
  forallb literal (node_children inst) = true ->
  allocs_succeed st ->
  insert (ctxt st) = Some ip ->
  forest_at (out (mem st)) ip = Some target ->
  (nodes_count (node_children inst) < fuel)%nat ->
  exists st' cs',
    exec X fuel (ApplyOneTemplate nd (first_child inst)) st = Done tt st' /\
    emits (node_children inst) (o_children target) cs' /\
    forest_update (out (mem st)) ip
      (fun _ => Some (with_children target cs')) = Some (out (mem st')) /\
    forest_at (out (mem st')) ip = Some (with_children target cs') /\
    same_but_out st st'.
Proof.
  intros Hlit Ha Hins Hat Hfuel.
  destruct fuel as [|f]; [lia|]. cbn [exec].
  unfold first_child. destruct (node_children inst) as [|k ks] eqn:Ek.
  - exists st, (o_children target). split; [reflexivity|].
    split; [constructor|].
    split; [apply forest_update_same; exact Hat|].
    rewrite with_children_same.
    split; [exact Hat|]. repeat split; auto.
  - assert (H0 : (0 < length (node_children inst))%nat)
      by (rewrite Ek; simpl; lia).
    assert (Hd : drop 0 (node_children inst) = k :: ks)
      by (rewrite Ek; reflexivity).
    destruct (template_body_run X f nd inst 0%nat st ip target H0
                ltac:(rewrite Hd; exact Hlit) Ha Hins Hat
                ltac:(rewrite Hd; lia))
      as (st' & cs' & Hrun & Hem & Eu & Hat' & Hsame).
    rewrite Hd in Hem. exists st', cs'. auto.
Qed.

Lemma replacement_first inst : replacement_at inst 0 = first_child inst.
Proof.
  unfold replacement_at, first_child.
  destruct (node_children inst); reflexivity.
Qed.

Lemma skip_sorts_literal X nd cs st :
  forallb literal cs = true -> skip_sorts X nd cs 0 st = Done 0%nat st.
Proof.
  destruct cs as [|c rest]; [reflexivity|]. simpl. intros H.
  apply andb_prop in H as [H _].
  destruct c as [nm ns d ps kids|k nm c].
  - rewrite literal_element in H. apply andb_prop in H as [H _].
    apply negb_true_iff in H. rewrite H. reflexivity.
  - reflexivity.
Qed.

Section Iterations.

Variable X : externals.

Variable fuel : nat.

Variable inst : xmlNode.

Variable ip : outPtr.

Hypothesis Hlit : forallb literal (node_children inst) = true.

Hypothesis Hfuel : (nodes_count (node_children inst) < fuel)%nat.

Lemma node_loop_literal : forall l i st target,
  allocs_succeed st ->
  insert (ctxt st) = Some ip ->
  xpathCtxt (ctxt st) <> None ->
  forest_at (out (mem st)) ip = Some target ->
  exists st' cs',
    node_loop
      (fun p =>
         exec X fuel (ApplyOneTemplate (Some p) (replacement_at inst 0)))
      l i st = Done tt st' /\
    emits (concat (repeat (node_children inst) (length l)))
      (o_children target) cs' /\
    forest_at (out (mem st')) ip = Some (with_children target cs') /\
    allocs_succeed st' /\ same_frame (ctxt st) (ctxt st') /\
    node (ctxt st') = default (node (ctxt st)) (Some <$> last l) /\
    (exists xc xc',
       xpathCtxt (ctxt st) = Some xc /\ xpathCtxt (ctxt st') = Some xc' /\
       contextSize xc' = contextSize xc /\ xp_node xc' = xp_node xc /\
       (l = [] -> xc' = xc)) /\
    src (mem st') = src (mem st) /\ errors (mem st') = errors (mem st).
Proof.
  induction l as [|p rest IH]; intros i st target Ha Hins Hxc Hat.
  - exists st, (o_children target). simpl. split; [reflexivity|].
    split; [constructor|]. rewrite with_children_same.
    destruct (xpathCtxt (ctxt st)) as [xc|] eqn:Exc; [|contradiction].
    repeat split; auto. exists xc, xc. auto.
  - destruct (xpathCtxt (ctxt st)) as [xc|] eqn:Exc; [|contradiction].
    set (sa := set_ctxt
                 (with_xpathCtxt (Some (with_proximityPosition xc (i + 1))))
                 (set_ctxt (with_node (Some p)) st)).
    assert (Eenter : enter_iteration p i st = Done tt sa).
    { unfold enter_iteration, bind, modify_ctxt, modify, get, deref, ret.
      simpl. rewrite Exc. reflexivity. }
    destruct (content_run X fuel (Some p) inst sa ip target Hlit
                ltac:(exact Ha) ltac:(exact Hins) ltac:(exact Hat) Hfuel)
      as (sb & cs1 & Erun & Hem1 & _ & Hat1 & Ha1 & Hc1 & Hs1 & He1).
    assert (Hins1 : insert (ctxt sb) = Some ip) by (rewrite Hc1; exact Hins).
    assert (Hxc1 : xpathCtxt (ctxt sb) <> None)
      by (rewrite Hc1; discriminate).
    destruct (IH (i + 1) sb (with_children target cs1) Ha1 Hins1 Hxc1 Hat1)
      as (st' & cs' & Eloop & Hem & Hat' & Ha' & Hfr & Hnode & Hx & Hs & He).
    exists st', cs'. split; [|split; [|split; [|split; [|split; [|split]]]]].
    + cbn [node_loop]. unfold bind at 1. rewrite Eenter.
      unfold bind at 1. rewrite replacement_first in Eloop |- *.
      rewrite Erun. exact Eloop.
    + cbn [length repeat concat]. eapply emits_app; [exact Hem1|exact Hem].
    + rewrite with_children_twice in Hat'. exact Hat'.
    + exact Ha'.
    + rewrite Hc1 in Hfr. exact Hfr.
    + rewrite Hnode, Hc1. destruct rest as [|q rest']; [reflexivity|].
      change (last (p :: q :: rest')) with (last (q :: rest')).
      destruct (last (q :: rest')) eqn:El; [reflexivity|].
      apply last_None in El. discriminate.
    + split; [|split; [rewrite Hs, Hs1|rewrite He, He1]; reflexivity].
      destruct Hx as (xa & xb & Exa & Exb & Hcs & Hnd & _).
      rewrite Hc1 in Exa. simpl in Exa. injection Exa as <-.
      exists xc, xb. repeat split; auto. discriminate.
Qed.

End Iterations.

(** X22.  xsl:for-each instantiates its body once per selected node.  When
    the select expression evaluates to a node set of [length l] nodes and
    the content of the instruction is made of text and literal result
    elements (no xsl:sort), xsltForEach returns (with fuel for the walk
    of one body) and the insertion node has got the output of the body
    [length l] times, in a row, after the children it had.  The insertion
    point, the node list, the variables and the other fields of the
    context are those at the evaluation; the current node, that is not
    put back, is the last node selected.  Nothing is logged and the
    source is untouched. *)
Theorem xsltForEach_instantiates X fuel n inst prop st st1 l ip target :
  xmlGetNsProp inst "select" XSLT_NAMESPACE = Some prop ->
  xpath_setup n st = Done true st1 ->
  xmlXPathEvalExpr X st1 prop = Some (XPATH_NODESET l) ->
  forallb literal (node_children inst) = true ->
  allocs_succeed st1 ->
  insert (ctxt st1) = Some ip ->
  forest_at (out (mem st1)) ip = Some target ->
  (nodes_count (node_children inst) < fuel)%nat ->
  exists st' cs',
    xsltForEach X (exec X fuel) (Some n) inst st = Done tt st' /\
    emits (concat (repeat (node_children inst) (length l)))
      (o_children target) cs' /\
    forest_at (out (mem st')) ip = Some (with_children target cs') /\
    same_frame (ctxt st1) (ctxt st') /\
    node (ctxt st') = default (node (ctxt st1)) (Some <$> last l) /\
    src (mem st') = src (mem st1) /\ errors (mem st') = errors (mem st1).
Proof.
  intros Hsel Hsetup Heval Hlit Ha Hins Hat Hfuel.
  destruct (xpath_setup_has_context _ _ _ Hsetup) as (xc & Exc).
  set (sa := set_ctxt
               (with_xpathCtxt
                  (Some (with_contextSize xc (Z.of_nat (length l)))))
               (set_ctxt (with_nodeList (Some l)) st1)).
  destruct (node_loop_literal X fuel inst ip Hlit Hfuel l 0 sa target
              ltac:(exact Ha) ltac:(exact Hins) ltac:(discriminate)
              ltac:(exact Hat))
    as (sb & cs' & Eloop & Hem & Hat' & Ha' & Hfr & Hnode & Hx & Hs & He).
  destruct Hx as (xa & xb & Exa & Exb & _).
  eexists _, cs'. split; [|split; [exact Hem|]].
  - unfold xsltForEach. rewrite Hsel. unfold bind at 1. rewrite Hsetup.
    cbn [negb]. unfold bind at 1, get at 1. rewrite Heval.
    unfold iterate_selected, bind at 1, deref at 1, ret at 1.
    unfold open_selected, enter_list.
    unfold bind, get, modify_ctxt, modify, deref, ret. simpl.
    rewrite Exc. fold sa.
    rewrite (skip_sorts_literal X (Some n) _ sa Hlit). simpl.
    unfold bind in Eloop. rewrite Eloop.
    unfold leave_list, bind, get, modify_ctxt, modify, deref, ret. simpl.
    rewrite Exb. reflexivity.
  - simpl. split; [exact Hat'|].
    destruct Hfr as (F1 & F2 & F3 & F4 & F5 & F6 & F7).
    split; [|split; [exact Hnode|split; [exact Hs|exact He]]].
    unfold same_frame. simpl. repeat split; assumption.
Qed.

(** X23.  xsl:if instantiates its body when the test is true and adds
    nothing when it is false.  When the test expression evaluates to the
    boolean [b] and the content of the instruction is made of text and
    literal result elements, xsltIf returns and the insertion node has
    got the output of the body after the children it had if [b] is true;
    it is as it was otherwise.  The context is the one in which the test
    was evaluated, nothing is logged and the source is untouched. *)
Theorem xsltIf_instantiates X fuel n inst prop st st1 b ip target :
  xmlGetNsProp inst "test" XSLT_NAMESPACE = Some prop ->
  xpath_setup n st = Done true st1 ->
  xmlXPathBooleanFunction X st1 (xmlXPathEvalExpr X st1 prop)
    = Some (XPATH_BOOLEAN b) ->
  forallb literal (node_children inst) = true ->
  allocs_succeed st1 ->
  insert (ctxt st1) = Some ip ->
  forest_at (out (mem st1)) ip = Some target ->
  (nodes_count (node_children inst) < fuel)%nat ->
  exists st' cs',
    xsltIf X (exec X fuel) (Some n) inst st = Done tt st' /\
    emits (if b then node_children inst else []) (o_children target) cs' /\
    forest_at (out (mem st')) ip = Some (with_children target cs') /\
    ctxt st' = ctxt st1 /\ src (mem st') = src (mem st1) /\
    errors (mem st') = errors (mem st1).
Proof.
  intros Htest Hsetup Heval Hlit Ha Hins Hat Hfuel.
  assert (Erun : xsltIf X (exec X fuel) (Some n) inst st =
                 if b
                 then exec X fuel
                        (ApplyOneTemplate (node (ctxt st1))
                           (first_child inst)) st1
                 else Done tt st1).
  { unfold xsltIf. rewrite Htest. unfold bind at 1. rewrite Hsetup.
    cbn [negb]. unfold bind at 1, get at 1. rewrite Heval.
    destruct b; reflexivity. }
  rewrite Erun. destruct b.
  - destruct (content_run X fuel (node (ctxt st1)) inst st1 ip target
                Hlit Ha Hins Hat Hfuel)
      as (st' & cs' & Hrun & Hem & _ & Hat' & _ & Hc & Hs & He).
    exists st', cs'. auto 10.
  - exists st1, (o_children target). split; [reflexivity|].
    split; [constructor|]. rewrite with_children_same. auto.
Qed.

Lemma xsltForEach_instantiates_witness :
  exists st',
    xsltForEach Demo.engine (exec Demo.engine 2) (Some 1%nat)
      Demo.for_each_node (Demo.start Demo.plain Demo.items None)
      = Done tt st' /\
    map Demo.render (out (mem st')) = ["<i></i><i></i><i></i>"] /\
    node (ctxt st') = Some 4%nat.
Proof.
  pose (st := Demo.start Demo.plain Demo.items None).
  assert (H1 : xmlGetNsProp Demo.for_each_node "select" XSLT_NAMESPACE
               = Some "node()") by reflexivity.
  assert (H2 : xpath_setup 1%nat st = Done true (Cases.items_ready 1%nat))
    by (vm_compute; reflexivity).
  assert (H3 : xmlXPathEvalExpr Demo.engine (Cases.items_ready 1%nat)
                 "node()" = Some (XPATH_NODESET [2%nat; 3%nat; 4%nat]))
    by (vm_compute; reflexivity).
  assert (H4 : forallb literal (node_children Demo.for_each_node) = true)
    by reflexivity.
  assert (H5 : allocs_succeed (Cases.items_ready 1%nat))
    by apply Forall_nil_2.
  assert (H6 : insert (ctxt (Cases.items_ready 1%nat)) = Some Demo.root)
    by reflexivity.
  assert (H7 : forest_at (out (mem (Cases.items_ready 1%nat))) Demo.root
               = Some (new_node XML_DOCUMENT_NODE "" "")) by reflexivity.
  assert (H8 : (nodes_count (node_children Demo.for_each_node) < 2)%nat)
    by (vm_compute; lia).
  destruct (xsltForEach_instantiates Demo.engine 2 1%nat Demo.for_each_node
              "node()" st _ _ Demo.root _ H1 H2 H3 H4 H5 H6 H7 H8)
    as (st' & cs' & Hrun & _).
  exists st'. split; [exact Hrun|].
  assert (E : xsltForEach Demo.engine (exec Demo.engine 2) (Some 1%nat)
                Demo.for_each_node st
              = Done tt
                  (Demo.final
                     (xsltForEach Demo.engine (exec Demo.engine 2)
                        (Some 1%nat) Demo.for_each_node st) st))
    by (vm_compute; reflexivity).
  rewrite E in Hrun. injection Hrun as <-.
  split; vm_compute; reflexivity.
Defined.

Lemma xsltIf_instantiates_witness :
  exists st',
    xsltIf Demo.engine (exec Demo.engine 3) (Some 1%nat) Cases.if_true
      (Demo.start Demo.plain Demo.items None) = Done tt st' /\
    map Demo.render (out (mem st')) = ["<b>x</b>"].
Proof.
  pose (st := Demo.start Demo.plain Demo.items None).
  assert (H1 : xmlGetNsProp Cases.if_true "test" XSLT_NAMESPACE
               = Some "true()") by reflexivity.
  assert (H2 : xpath_setup 1%nat st = Done true (Cases.items_ready 1%nat))
    by (vm_compute; reflexivity).
  assert (H3 : xmlXPathBooleanFunction Demo.engine
                 (Cases.items_ready 1%nat)
                 (xmlXPathEvalExpr Demo.engine (Cases.items_ready 1%nat)
                    "true()") = Some (XPATH_BOOLEAN true))
    by (vm_compute; reflexivity).
  assert (H4 : forallb literal (node_children Cases.if_true) = true)
    by reflexivity.
  assert (H5 : allocs_succeed (Cases.items_ready 1%nat))
    by apply Forall_nil_2.
  assert (H6 : insert (ctxt (Cases.items_ready 1%nat)) = Some Demo.root)
    by reflexivity.
  assert (H7 : forest_at (out (mem (Cases.items_ready 1%nat))) Demo.root
               = Some (new_node XML_DOCUMENT_NODE "" "")) by reflexivity.
  assert (H8 : (nodes_count (node_children Cases.if_true) < 3)%nat)
    by (vm_compute; lia).
  destruct (xsltIf_instantiates Demo.engine 3 1%nat Cases.if_true
              "true()" st _ true Demo.root _ H1 H2 H3 H4 H5 H6 H7 H8)
    as (st' & cs' & Hrun & _).
  exists st'. split; [exact Hrun|].
  assert (E : xsltIf Demo.engine (exec Demo.engine 3) (Some 1%nat)
                Cases.if_true st
              = Done tt
                  (Demo.final
                     (xsltIf Demo.engine (exec Demo.engine 3) (Some 1%nat)
                        Cases.if_true st) st))
    by (vm_compute; reflexivity).
  rewrite E in Hrun. injection Hrun as <-. vm_compute. reflexivity.
Defined.

(** ** xsltApplyStylesheet from the processing of the document node *)

Lemma xsltApplyStylesheet_run_parts X fuel s d st :
  xsltApplyStylesheet_run X fuel s d st =
  bind (open_document s) (fill_document X fuel s d)
    (set_ctxt xsltEvalGlobalVariables st).
Proof. reflexivity. Qed.

Lemma new_document_run dc st :
  allocs_succeed st ->
  exists st1,
    new_document dc st = Done (Some (length (out (mem st)))) st1 /\
    allocs_succeed st1 /\ ctxt st1 = ctxt st /\
    src (mem st1) = src (mem st) /\ errors (mem st1) = errors (mem st) /\
    out (mem st1) = out (mem st) ++ [document_node dc] /\
    outdoc (mem st1) = Some dc.
Proof.
  intros Ha.
  destruct (alloc_succeeds _ Ha) as (s1 & Ea & Ha1 & Hc & Hs & Ho & He).
  eexists. split.
  - unfold new_document, bind at 1. rewrite Ea. cbv iota.
    unfold bind, get, modify_mem, modify, ret. simpl. rewrite Ho. reflexivity.
  - simpl. rewrite Ho. repeat split; auto.
Qed.

Lemma attach_doctype_run X s k st t dc :
  nth_error (out (mem st)) k = Some t ->
  outdoc (mem st) = Some dc ->
  exists st',
    attach_doctype X s k st = Done tt st' /\
    out (mem st') = out (mem st) /\ src (mem st') = src (mem st) /\
    errors (mem st') = errors (mem st).
Proof.
  intros Ht Hd. unfold attach_doctype.
  unfold bind at 1, modify_ctxt, modify.
  destruct (negb (Z.eqb (enum_value X XSLT_OUTPUT_XML) 0)
            && (is_set (doctypePublic s) || is_set (doctypeSystem s))).
  - unfold bind, get, deref, ret. simpl. rewrite Ht.
    destruct (xmlDocGetRootElement t).
    + rewrite Hd. eexists. split; [reflexivity|]. simpl. auto.
    + eexists. split; [reflexivity|]. simpl. auto.
  - eexists. split; [reflexivity|]. simpl. auto.
Qed.

Lemma run_frame X fuel s d st :
  allocs_succeed st -> supported s ->
  exists sC,
    allocs_succeed sC /\ style (ctxt sC) = style (ctxt st) /\
    insert (ctxt sC)
      = Some {| p_root := length (out (mem st)); p_path := [] |} /\
    src (mem sC) = src (mem st) /\ errors (mem sC) = errors (mem st) /\
    out (mem sC) = out (mem st) ++ [document_node (result_document s)] /\
    forall sD,
      exec X fuel (ProcessOneNode d) sC = Done tt sD ->
      exists sE,
        xsltApplyStylesheet_run X fuel s d st
          = Done (Some (length (out (mem st)))) sE /\
        out (mem sE) = out (mem sD) /\ src (mem sE) = src (mem sD) /\
        errors (mem sE) = errors (mem sD).
Proof.
  intros Ha Hm.
  set (sA := set_ctxt xsltEvalGlobalVariables st).
  set (k := length (out (mem st))).
  set (tgt := document_node (result_document s)).
  assert (Hb : exists sB dc,
            open_document s sA = Done (Some k) sB /\ allocs_succeed sB /\
            style (ctxt sB) = style (ctxt st) /\
            src (mem sB) = src (mem st) /\
            errors (mem sB) = errors (mem st) /\
            out (mem sB) = out (mem st) ++ [tgt] /\
            outdoc (mem sB) = Some dc).
  { unfold tgt, result_document, open_document.
    destruct Hm as [Hm|[Hm|[Hm|Hm]]]; rewrite Hm; cbn [String.eqb Ascii.eqb
      Bool.eqb andb]; unfold bind at 1, modify_ctxt at 1, modify at 1.
    - destruct (new_document_run (xmlNewDoc (version s))
                  (set_ctxt (with_type XSLT_OUTPUT_XML) sA) Ha)
        as (sB & E & Ha1 & Hc & Hs & He & Ho & Hd).
      exists sB, (xmlNewDoc (version s)). rewrite Hc.
      repeat split; auto.
    - destruct (new_document_run (xmlNewDoc (version s))
                  (set_ctxt (with_type XSLT_OUTPUT_XML) sA) Ha)
        as (sB & E & Ha1 & Hc & Hs & He & Ho & Hd).
      exists sB, (xmlNewDoc (version s)). rewrite Hc.
      repeat split; auto.
    - destruct (new_document_run
                  (htmlNewDoc (doctypePublic s) (doctypeSystem s))
                  (set_ctxt (with_type XSLT_OUTPUT_HTML) sA) Ha)
        as (sB & E & Ha1 & Hc & Hs & He & Ho & Hd).
      exists sB, (htmlNewDoc (doctypePublic s) (doctypeSystem s)).
      rewrite Hc.
      repeat split; auto.
    - destruct (new_document_run (xmlNewDoc (version s))
                  (set_ctxt (with_type XSLT_OUTPUT_TEXT) sA) Ha)
        as (sB & E & Ha1 & Hc & Hs & He & Ho & Hd).
      exists sB, (xmlNewDoc (version s)). rewrite Hc.
      repeat split; auto. }
  destruct Hb as (sB & dc & Eb & HaB & HstyB & HsB & HeB & HoB & HdB).
  set (ip := {| p_root := k; p_path := [] |}).
  set (sC := set_ctxt
               (fun c => with_node (Some d)
                           (with_insert (Some ip) (with_output (Some k) c)))
               (set_mem (with_outdoc
                           (Some (with_encoding dc true (encoding s)))) sB)).
  exists sC. split; [exact HaB|]. split; [exact HstyB|].
  split; [reflexivity|]. split; [exact HsB|]. split; [exact HeB|].
  split; [exact HoB|].
  intros sD Erun.
  pose proof (wp_done _ _ _ _ _ (exec_steady X fuel _ sC) Erun) as Hst.
  destruct Hst as (_ & _ & _ & _ & HdD & _ & Hg).
  assert (HoC : out (mem sC) = out (mem st) ++ [tgt]) by exact HoB.
  rewrite HoC in Hg. destruct (grows_new_tree _ _ _ Hg) as (tD & EtD & _).
  destruct (attach_doctype_run X s k sD tD
              (with_encoding dc true (encoding s)) EtD)
    as (sE & Eatt & HoE & HsE & HeE).
  { rewrite HdD. reflexivity. }
  exists sE. split; [|auto].
  rewrite xsltApplyStylesheet_run_parts. fold sA.
  unfold bind at 1. rewrite Eb. cbv iota. unfold fill_document.
  unfold bind at 1, get at 1. unfold bind at 1, deref at 1. rewrite HdB.
  unfold ret at 1. cbv iota.
  unfold bind at 1, modify_mem at 1, modify at 1.
  unfold bind at 1, modify_ctxt at 1, modify at 1.
  fold ip. fold sC.
  unfold bind at 1. rewrite Erun. unfold bind at 1. rewrite Eatt.
  reflexivity.
Qed.

(** The processing of the document node decides the result of
    xsltApplyStylesheet. *)
Lemma xsltApplyStylesheet_frame X fuel s d m :
  Forall (fun b => b = true) (allocs m) -> supported s ->
  exists sC,
    allocs_succeed sC /\ style (ctxt sC) = s /\
    insert (ctxt sC) = Some {| p_root := length (out m); p_path := [] |} /\
    src (mem sC) = src m /\ errors (mem sC) = errors m /\
    out (mem sC) = out m ++ [document_node (result_document s)] /\
    forall sD,
      exec X fuel (ProcessOneNode d) sC = Done tt sD ->
      xsltApplyStylesheet X fuel (Some s) (Some d) m
        = Returns (Some (length (out m)))
            (memory_after (xsltApplyStylesheet X fuel (Some s) (Some d) m) m)
      /\ out (memory_after (xsltApplyStylesheet X fuel (Some s) (Some d) m) m)
         = out (mem sD)
      /\ src (memory_after (xsltApplyStylesheet X fuel (Some s) (Some d) m) m)
         = src (mem sD)
      /\ errors
           (memory_after (xsltApplyStylesheet X fuel (Some s) (Some d) m) m)
         = errors (mem sD).
Proof.
  intros Ha Hm.
  set (s0 := {| ctxt := xsltNewTransformContext s d; mem := m |}).
  destruct (alloc_succeeds s0 Ha) as (s1 & Ea & Ha1 & Hc & Hs & Ho & He).
  destruct (run_frame X fuel s d s1 Ha1 Hm)
    as (sC & HaC & HstyC & HinsC & HsC & HeC & HoC & Hrest).
  exists sC. split; [exact HaC|]. split; [rewrite HstyC, Hc; reflexivity|].
  split; [rewrite HinsC, Ho; reflexivity|].
  split; [rewrite HsC, Hs; reflexivity|].
  split; [rewrite HeC, He; reflexivity|].
  split; [rewrite HoC, Ho; reflexivity|].
  intros sD Erun. destruct (Hrest sD Erun) as (sE & ErunE & HoE & HsE & HeE).
  assert (E : xsltApplyStylesheet X fuel (Some s) (Some d) m
              = Returns (Some (length (out m))) (mem sE)).
  { unfold xsltApplyStylesheet. fold s0. unfold bind at 1. rewrite Ea.
    cbv iota. rewrite ErunE, Ho. reflexivity. }
  rewrite E. simpl. auto.
Qed.

(** X24.  A stylesheet whose template for the document node has a body of
    text and literal result elements produces that body.  With an output
    method that is supported, no allocation failure and no DOCTYPE to
    attach at the end, xsltApplyStylesheet returns (with fuel for the
    walk of the body) a new document, added after the trees of the
    result memory: the document node that the output method gives (an
    HTML document comes with its DOCTYPE node as first child), and
    after the children this node has at its creation, what the body
    gives, in document order.  The trees that were there, the source
    tree and the error log are as they were. *)
Theorem xsltApplyStylesheet_literal X fuel s d m t :
  Forall (fun b => b = true) (allocs m) ->
  supported s ->
  no_doctype_attached X s ->
  (forall st, style (ctxt st) = s -> src (mem st) = src m ->
              xsltGetTemplate X st d = Some t) ->
  forallb literal (node_children (t_elem t)) = true ->
  (nodes_count (node_children (t_elem t)) + 1 < fuel)%nat ->
  exists m' cs,
    xsltApplyStylesheet X fuel (Some s) (Some d) m
      = Returns (Some (length (out m))) m' /\
    emits (node_children (t_elem t))
          (o_children (document_node (result_document s))) cs /\
    out m' = out m
             ++ [with_children (document_node (result_document s)) cs] /\
    src m' = src m /\ errors m' = errors m.
Proof.
  intros Ha Hm _ Hget Hlit Hfuel.
  destruct (xsltApplyStylesheet_frame X fuel s d m Ha Hm)
    as (sC & HaC & HstyC & HinsC & HsC & HeC & HoC & Hrest).
  set (ip := {| p_root := length (out m); p_path := [] |}) in *.
  set (tgt := document_node (result_document s)) in *.
  assert (HatC : forest_at (out (mem sC)) ip = Some tgt).
  { unfold forest_at. rewrite HoC. cbn [ip p_root p_path].
    rewrite nth_error_app2 by lia. rewrite Nat.sub_diag. reflexivity. }
  destruct fuel as [|f]; [lia|].
  assert (Ep : exec X (S f) (ProcessOneNode d) sC
               = exec X f (ApplyOneTemplate (Some d) (first_child (t_elem t)))
                   sC).
  { cbn [exec]. unfold xsltProcessOneNode, bind, get.
    rewrite (Hget sC HstyC HsC). reflexivity. }
  destruct (content_run X f (Some d) (t_elem t) sC ip tgt Hlit
              HaC HinsC HatC ltac:(lia))
    as (sD & cs & Erun & Hem & Eu & HatD & HaD & HcD & HsD & HeD).
  assert (HoD : out (mem sD) = out m ++ [with_children tgt cs]).
  { unfold forest_update in Eu. rewrite HoC in Eu.
    cbn [ip p_root p_path] in Eu.
    rewrite list_update_snoc in Eu. cbn [out_update] in Eu.
    injection Eu as <-. reflexivity. }
  rewrite <- Ep in Erun.
  destruct (Hrest sD Erun) as (E & HoE & HsE & HeE).
  eexists _, cs. split; [exact E|]. split; [exact Hem|].
  split; [rewrite HoE; exact HoD|].
  split; [rewrite HsE, HsD; exact HsC|rewrite HeE, HeD; exact HeC].
Qed.

Lemma xsltApplyStylesheet_literal_witness :
  exists m',
    xsltApplyStylesheet Demo.engine 5 (Some Cases.a_x_y_sheet) (Some 0%nat)
      (Demo.memory_of Demo.hello) = Returns (Some 0%nat) m' /\
    map Demo.render (out m') = ["<a>x</a>y"].
Proof.
  pose (t := Demo.template "/" [Demo.lit "a" [Demo.text "x"]; Demo.text "y"]).
  assert (H1 : Forall (fun b => b = true)
                 (allocs (Demo.memory_of Demo.hello)))
    by apply Forall_nil_2.
  assert (H2 : supported Cases.a_x_y_sheet) by (left; reflexivity).
  assert (H2' : no_doctype_attached Demo.engine Cases.a_x_y_sheet)
    by (left; reflexivity).
  assert (H3 : forall st,
             style (ctxt st) = Cases.a_x_y_sheet ->
             src (mem st) = src (Demo.memory_of Demo.hello) ->
             xsltGetTemplate Demo.engine st 0%nat = Some t).
  { intros st E1 E2. simpl. rewrite E1. simpl.
    unfold Demo.matches. rewrite E2. reflexivity. }
  assert (H4 : forallb literal (node_children (t_elem t)) = true)
    by reflexivity.
  assert (H5 : (nodes_count (node_children (t_elem t)) + 1 < 5)%nat)
    by (vm_compute; lia).
  destruct (xsltApplyStylesheet_literal Demo.engine 5 Cases.a_x_y_sheet
              0%nat (Demo.memory_of Demo.hello) t H1 H2 H2' H3 H4 H5)
    as (m' & cs & Hrun & _).
  exists m'. split; [exact Hrun|].
  assert (E : xsltApplyStylesheet Demo.engine 5 (Some Cases.a_x_y_sheet)
                (Some 0%nat) (Demo.memory_of Demo.hello)
              = Returns (Some 0%nat)
                  (memory_after
                     (xsltApplyStylesheet Demo.engine 5
                        (Some Cases.a_x_y_sheet) (Some 0%nat)
                        (Demo.memory_of Demo.hello))
                     (Demo.memory_of Demo.hello)))
    by (vm_compute; reflexivity).
  rewrite E in Hrun. injection Hrun as <-. vm_compute. reflexivity.
Defined.

(** ** The built-in rules on a subtree *)

Lemma copied_child_text strip n :
  copied_child strip n = true -> copied_as_text strip n.
Proof.
  unfold copied_child, copied_as_text.
  destruct (s_type n); try discriminate; auto.
  intros H. right. split; [reflexivity|].
  apply orb_true_iff in H as [H|H]; apply negb_true_iff in H; [auto|].
  right. destruct strip; [discriminate|reflexivity].
Qed.

Lemma builtin_text_unfold h strip k p :
  builtin_text h strip (S k) p =
  match h !! p with
  | Some n =>
      if element_like (s_type n) && bool_decide (NoDup (s_children n))
      then children_text h strip k (s_children n)
      else None
  | None => None
  end.
Proof. reflexivity. Qed.

Lemma children_text_cons h strip k c cs :
  children_text h strip k (c :: cs) =
  join_text (child_text h strip k c) (children_text h strip k cs).
Proof. reflexivity. Qed.

Lemma children_count h strip k : forall cs s c,
  children_text h strip k cs = Some (s, c) -> (1 <= c)%nat.
Proof.
  induction cs as [|x cs IH]; intros s c H.
  - injection H as _ <-. lia.
  - rewrite children_text_cons in H.
    destruct (child_text h strip k x) as [[s1 m1]|]; [|discriminate].
    destruct (children_text h strip k cs) as [[s2 m2]|] eqn:E;
      [|discriminate].
    injection H as _ <-. specialize (IH _ _ eq_refl). lia.
Qed.

Lemma builtin_text_count h strip k p s c :
  builtin_text h strip k p = Some (s, c) -> (1 <= c)%nat.
Proof.
  destruct k as [|k]; [discriminate|]. rewrite builtin_text_unfold.
  destruct (h !! p) as [n|]; [|discriminate].
  destruct (_ && _); [|discriminate]. apply children_count.
Qed.

Lemma forest_update_again F0 Fa Fb ins (t1 t2 : outNode) :
  forest_update F0 ins (fun _ => Some t1) = Some Fa ->
  forest_update Fa ins (fun _ => Some t2) = Some Fb ->
  forest_update F0 ins (fun _ => Some t2) = Some Fb.
Proof.
  intros H1 H2. rewrite (forest_update_twice _ _ _ _ _ H1) in H2. exact H2.
Qed.

Lemma forest_update_here ts p (t : outNode) :
  forest_at ts p = Some t -> forest_update ts p (fun _ => Some t) = Some ts.
Proof.
  intros H. pose proof (forest_update_same ts p t H) as E.
  rewrite with_children_same in E. exact E.
Qed.

Lemma copy_source_text_run n st ip target :
  allocs_succeed st -> insert (ctxt st) = Some ip ->
  forest_at (out (mem st)) ip = Some target -> holds_children target ->
  s_type n = XML_TEXT_NODE \/ s_type n = XML_CDATA_SECTION_NODE ->
  exists st' target',
    copy_source_text n st = Done tt st' /\
    allocs_succeed st' /\ ctxt st' = ctxt st /\
    src (mem st') = src (mem st) /\ errors (mem st') = errors (mem st) /\
    forest_update (out (mem st)) ip (fun _ => Some target')
      = Some (out (mem st')) /\
    forest_at (out (mem st')) ip = Some target' /\
    o_type target' = o_type target /\ o_name target' = o_name target /\
    out_text target' = out_text target +:+ s_content n.
Proof.
  intros Ha Hins Hat Hh Hty.
  destruct (alloc_succeeds _ Ha) as (s1 & Ea & Ha1 & Hc & Hs & Ho & He).
  assert (Hat1 : forest_at (out (mem s1)) ip = Some target) by congruence.
  destruct (xmlAddChild_run ip (xmlCopySourceNode n) s1 target Hat1)
    as (s2 & Eadd & Eu & Hc2 & Hs2 & He2 & Ha2).
  assert (Htx :
    out_text (with_children target
                (fst (add_child (o_children target) (xmlCopySourceNode n))))
    = out_text target +:+ s_content n).
  { rewrite (out_text_holds (with_children target _)) by exact Hh.
    cbn [o_children with_children].
    rewrite add_child_text, (out_text_holds target Hh).
    rewrite (out_text_eq (xmlCopySourceNode n)). simpl.
    destruct Hty as [-> | ->]; reflexivity. }
  destruct (forest_update_at _ _ _ _ Eu) as (n0 & n1 & _ & E1 & Hat2).
  injection E1 as <-.
  exists s2, (with_children target
                (fst (add_child (o_children target) (xmlCopySourceNode n)))).
  split.
  { unfold copy_source_text, bind. rewrite Ea. unfold get.
    rewrite Hc, Hins, Eadd. reflexivity. }
  split; [unfold allocs_succeed in *; rewrite Ha2; exact Ha1|].
  split; [congruence|]. split; [congruence|]. split; [congruence|].
  split; [rewrite <- Ho; exact Eu|]. split; [exact Hat2|].
  split; [reflexivity|]. split; [reflexivity|exact Htx].
Qed.

Section Builtin.

Variable X : externals.

Variable h : gmap nat srcNode.

Variable c0 : xsltTransformContext.

Variable ip : outPtr.

Hypothesis Hins : insert c0 = Some ip.

Hypothesis Hget : forall st p,
  ctxt st = c0 -> src (mem st) = h -> xsltGetTemplate X st p = None.

(** One iteration of the loop over the children that deletes nothing *)
Lemma default_loop_step g parent n pre p rest cn sv st st1 :
  h !! parent = Some n -> NoDup (s_children n) ->
  s_children n = pre ++ p :: rest ->
  src (mem st) = h -> h !! p = Some cn -> src (mem st1) = h ->
  match s_type cn with
  | XML_DOCUMENT_NODE | XML_HTML_DOCUMENT_NODE | XML_ELEMENT_NODE =>
      exec X g (ProcessOneNode p);; ret (false, sv)
  | XML_TEXT_NODE =>
      match IS_BLANK_NODE cn, s_parent cn, stripSpaces (style (ctxt st))
      with
      | true, Some q, Some strip0 =>
          do s <-
            (if Z.eqb sv (-1)
             then
               do pn0 <- deref (h !! q);
               ret (default_strip_spaces strip0 (s_name pn0))
             else ret sv);
          if Z.eqb s 1 then ret (true, s)
          else copy_source_text cn;; ret (false, s)
      | _, _, _ => copy_source_text cn;; ret (false, sv)
      end
  | XML_CDATA_SECTION_NODE => copy_source_text cn;; ret (false, sv)
  | _ => ret (true, sv)
  end st = Done (false, sv) st1 ->
  exec X (S g) (DefaultLoop parent (Some p) sv) st
  = exec X g (DefaultLoop parent (head rest) sv) st1.
Proof.
  intros Hparent Hdup Hcs Hs En Hs1 Estep.
  cbn [exec]. unfold xsltDefaultProcessOneNode_loop.
  unfold bind at 1, get at 1. rewrite Hs, En. unfold bind at 1.
  unfold deref at 1, ret at 1.
  unfold bind at 1. rewrite Estep.
  unfold bind at 1, get at 1. rewrite Hs1, Hparent.
  unfold bind at 1, deref at 1, ret at 1.
  rewrite Hcs, next_in_middle by (rewrite <- Hcs; exact Hdup).
  reflexivity.
Qed.

Section Level.

Variable k : nat.

Hypothesis IHk : forall p s c fuel,
  builtin_text h (stripSpaces (style c0)) k p = Some (s, c) ->
  (2 * c <= fuel)%nat ->
  copies h c0 ip (exec X fuel (ProcessOneNode p)) s.

Variable parent : ptr.

Variable n : srcNode.

Hypothesis Hparent : h !! parent = Some n.

Hypothesis Hdup : NoDup (s_children n).

Lemma default_loop_copies : forall rest pre g sv s c,
  s_children n = pre ++ rest ->
  children_text h (stripSpaces (style c0)) k rest = Some (s, c) ->
  (2 * c <= S g)%nat ->
  copies h c0 ip (exec X g (DefaultLoop parent (head rest) sv)) s.
Proof.
  induction rest as [|p rest IH]; intros pre g sv s c Hcs Htext Hg.
  - injection Htext as <- <-. destruct g as [|g]; [lia|].
    intros st target Hc Hs Ha Hat Hh. exists st, target.
    split; [reflexivity|]. repeat split; auto.
    + apply forest_update_here. exact Hat.
    + symmetry. apply append_nil_r.
  - rewrite children_text_cons in Htext.
    destruct (child_text h (stripSpaces (style c0)) k p) as [[s1 m1]|]
      eqn:E1; [|discriminate].
    destruct (children_text h (stripSpaces (style c0)) k rest)
      as [[s2 m2]|] eqn:E2; [|discriminate].
    injection Htext as <- <-.
    pose proof (children_count _ _ _ _ _ _ E2) as Hm2.
    unfold child_text in E1.
    destruct (h !! p) as [cn|] eqn:En; [|discriminate].
    assert (Hm1 : (1 <= m1)%nat).
    { destruct (element_like (s_type cn));
        [exact (builtin_text_count _ _ _ _ _ _ E1)|].
      destruct (copied_child (stripSpaces (style c0)) cn); [|discriminate].
      injection E1 as _ <-. lia. }
    destruct g as [|g]; [lia|].
    assert (Hcs' : s_children n = (pre ++ [p]) ++ rest)
      by (rewrite <- app_assoc; exact Hcs).
    pose proof (IH (pre ++ [p]) g sv s2 m2 Hcs' eq_refl ltac:(lia)) as Hrest.
    intros st target Hc Hs Ha Hat Hh.
    assert (Hchild : exists st1 t1,
      match s_type cn with
      | XML_DOCUMENT_NODE | XML_HTML_DOCUMENT_NODE | XML_ELEMENT_NODE =>
          exec X g (ProcessOneNode p);; ret (false, sv)
      | XML_TEXT_NODE =>
          match IS_BLANK_NODE cn, s_parent cn, stripSpaces (style (ctxt st))
          with
          | true, Some q, Some strip0 =>
              do s <-
                (if Z.eqb sv (-1)
                 then
                   do pn0 <- deref (h !! q);
                   ret (default_strip_spaces strip0 (s_name pn0))
                 else ret sv);
              if Z.eqb s 1 then ret (true, s)
              else copy_source_text cn;; ret (false, s)
          | _, _, _ => copy_source_text cn;; ret (false, sv)
          end
      | XML_CDATA_SECTION_NODE => copy_source_text cn;; ret (false, sv)
      | _ => ret (true, sv)
      end st = Done (false, sv) st1 /\
      ctxt st1 = c0 /\ src (mem st1) = h /\ allocs_succeed st1 /\
      errors (mem st1) = errors (mem st) /\
      forest_update (out (mem st)) ip (fun _ => Some t1)
        = Some (out (mem st1)) /\
      forest_at (out (mem st1)) ip = Some t1 /\
      o_type t1 = o_type target /\ o_name t1 = o_name target /\
      out_text t1 = out_text target +:+ s1).
    { destruct (element_like (s_type cn)) eqn:Eel.
      - destruct (IHk p s1 m1 g E1 ltac:(lia) st target Hc Hs Ha Hat Hh)
          as (st1 & t1 & Erun & H).
        exists st1, t1. split; [|exact H].
        destruct (s_type cn); try discriminate;
          unfold bind; rewrite Erun; reflexivity.
      - destruct (copied_child (stripSpaces (style c0)) cn) eqn:Ecp;
          [|discriminate].
        injection E1 as <- <-.
        pose proof (copied_child_text _ _ Ecp) as Hn.
        assert (Hty : s_type cn = XML_TEXT_NODE \/
                      s_type cn = XML_CDATA_SECTION_NODE).
        { destruct Hn as [?|[? _]]; auto. }
        assert (Hins' : insert (ctxt st) = Some ip) by congruence.
        destruct (copy_source_text_run cn st ip target Ha Hins' Hat Hh Hty)
          as (s1 & t1 & Ecopy & Ha1 & Hc1 & Hs1 & He1 & Eu1 & Hat1 & Ht1
              & Hn1 & Htx1).
        exists s1, t1. split.
        + rewrite Hc.
          destruct Hn as [-> | [-> [Hb | Hnone]]].
          * unfold bind. rewrite Ecopy. reflexivity.
          * rewrite Hb. unfold bind. rewrite Ecopy. reflexivity.
          * rewrite Hnone.
            destruct (IS_BLANK_NODE cn), (s_parent cn);
              unfold bind; rewrite Ecopy; reflexivity.
        + repeat split; try congruence. }
    destruct Hchild as (st1 & t1 & Estep & Hc1 & Hs1 & Ha1 & He1 & Eu1
                        & Hat1 & Ht1 & Hn1 & Htx1).
    assert (Hh1 : holds_children t1) by (destruct Hh; split; congruence).
    destruct (Hrest st1 t1 Hc1 Hs1 Ha1 Hat1 Hh1)
      as (st' & t' & Erun & Hc' & Hs' & Ha' & He' & Eu' & Hat' & Ht' & Hn'
          & Htx').
    exists st', t'. split.
    + cbn [head].
      rewrite (default_loop_step g parent n pre p rest cn sv st st1
                 Hparent Hdup Hcs Hs En Hs1 Estep).
      exact Erun.
    + repeat split; try congruence.
      * exact (forest_update_again _ _ _ _ _ _ Eu1 Eu').
      * rewrite Htx', Htx1. apply append_assoc.
Qed.

End Level.

Lemma builtin_copies : forall k p s c fuel,
  builtin_text h (stripSpaces (style c0)) k p = Some (s, c) ->
  (2 * c <= fuel)%nat ->
  copies h c0 ip (exec X fuel (ProcessOneNode p)) s.
Proof.
  induction k as [|k IHk]; intros p s c fuel Htext Hfuel; [discriminate|].
  rewrite builtin_text_unfold in Htext.
  destruct (h !! p) as [n|] eqn:En; [|discriminate].
  destruct (element_like (s_type n)) eqn:Eel; [|discriminate].
  destruct (bool_decide (NoDup (s_children n))) eqn:Edup; [|discriminate].
  apply bool_decide_eq_true in Edup. cbn [andb] in Htext.
  pose proof (children_count _ _ _ _ _ _ Htext) as Hc1.
  destruct fuel as [|f]; [lia|].
  pose proof (default_loop_copies k IHk p n En Edup (s_children n) [] f
                (-1) s c eq_refl Htext ltac:(lia)) as Hloop.
  intros st target Hc Hs Ha Hat Hh.
  destruct (Hloop st target Hc Hs Ha Hat Hh) as (st' & t' & Erun & H).
  exists st', t'. split; [|exact H].
  cbn [exec]. unfold xsltProcessOneNode, bind at 1, get at 1.
  rewrite (Hget st p Hc Hs).
  unfold xsltDefaultProcessOneNode, bind at 1, get at 1.
  rewrite Hs, En. unfold bind at 1, deref at 1, ret at 1.
  destruct (s_type n); try discriminate; exact Erun.
Qed.

End Builtin.

(** X25.  The built-in rules copy the text of a subtree.  When no
    template matches any node and no allocation fails, the processing
    of an element or a document whose descendants are elements, CDATA
    sections and text nodes that are not blank (any text nodes when the
    stylesheet has no strip/preserve map) returns (with fuel for two
    calls per node) and the text of the node at the insertion point is
    the text it had followed by the text of the descendants, in
    document order.
    The node at the insertion point is the only node of the result
    that changes; the context and the source tree are left as they were
    and nothing is logged. *)
Theorem builtin_rules_copy_text X fuel depth d st ip target s c :
  (forall st' p, ctxt st' = ctxt st -> src (mem st') = src (mem st) ->
                 xsltGetTemplate X st' p = None) ->
  builtin_text (src (mem st)) (stripSpaces (style (ctxt st))) depth d
    = Some (s, c) ->
  allocs_succeed st ->
  insert (ctxt st) = Some ip ->
  forest_at (out (mem st)) ip = Some target ->
  holds_children target ->
  (2 * c <= fuel)%nat ->
  exists st' target',
    xsltProcessOneNode X (exec X fuel) d st = Done tt st' /\
    forest_update (out (mem st)) ip (fun _ => Some target')
      = Some (out (mem st')) /\
    out_text target' = out_text target +:+ s /\
    o_type target' = o_type target /\ o_name target' = o_name target /\
    ctxt st' = ctxt st /\ src (mem st') = src (mem st) /\
    errors (mem st') = errors (mem st).
Proof.
  intros Hget Htext Ha Hins Hat Hh Hfuel.
  destruct (builtin_copies X (src (mem st)) (ctxt st) ip Hins Hget depth d s
              c (S fuel) Htext ltac:(lia) st target eq_refl eq_refl Ha Hat
              Hh)
    as (st' & t' & Erun & Hc & Hs & _ & He & Eu & _ & Ht & Hn & Htx).
  exists st', t'. split; [exact Erun|]. auto 10.
Qed.

Lemma document_node_type s :
  o_type (document_node (result_document s)) = result_type s.
Proof.
  unfold result_document, result_type.
  destruct (bool_decide (method s = Some "html")); [|reflexivity].
  unfold document_node. simpl. apply htmlNewDoc_type.
Qed.

Lemma document_node_text s :
  out_text (document_node (result_document s)) = "".
Proof.
  unfold result_document.
  destruct (bool_decide (method s = Some "html")); [|reflexivity].
  unfold htmlNewDoc.
  destruct (doctypePublic s), (doctypeSystem s); reflexivity.
Qed.

(** X26.  A stylesheet without a template that matches gives the text of
    the document.  With a supported output method and no allocation
    failure, when the descendants of the source document are elements,
    CDATA sections and text nodes that are not blank (any text nodes
    when the stylesheet has no strip/preserve map),
    xsltApplyStylesheet returns a new document, added after the trees of
    the result memory, whose text is the text of the source document in
    document order; the source tree and the error log are as they
    were. *)
Theorem xsltApplyStylesheet_builtin X fuel depth s d m txt c :
  Forall (fun b => b = true) (allocs m) ->
  supported s ->
  (forall st p, style (ctxt st) = s -> src (mem st) = src m ->
                xsltGetTemplate X st p = None) ->
  builtin_text (src m) (stripSpaces s) depth d = Some (txt, c) ->
  (2 * c <= fuel)%nat ->
  exists m' t,
    xsltApplyStylesheet X fuel (Some s) (Some d) m
      = Returns (Some (length (out m))) m' /\
    out m' = out m ++ [t] /\
    o_type t = result_type s /\ out_text t = txt /\
    src m' = src m /\ errors m' = errors m.
Proof.
  intros Ha Hm Hget Htext Hfuel.
  destruct (xsltApplyStylesheet_frame X fuel s d m Ha Hm)
    as (sC & HaC & HstyC & HinsC & HsC & HeC & HoC & Hrest).
  set (ip := {| p_root := length (out m); p_path := [] |}) in *.
  set (tgt := document_node (result_document s)) in *.
  assert (HatC : forest_at (out (mem sC)) ip = Some tgt).
  { unfold forest_at. rewrite HoC. cbn [ip p_root p_path].
    rewrite nth_error_app2 by lia. rewrite Nat.sub_diag. reflexivity. }
  assert (Hh : holds_children tgt).
  { unfold tgt, holds_children. rewrite document_node_type.
    unfold result_type.
    destruct (bool_decide (method s = Some "html")); split; discriminate. }
  assert (HgetC : forall st p, ctxt st = ctxt sC -> src (mem st) = src (mem sC)
                               -> xsltGetTemplate X st p = None).
  { intros st p H1 H2. apply Hget; [rewrite H1|rewrite H2]; assumption. }
  rewrite <- HsC, <- HstyC in Htext.
  destruct (builtin_copies X (src (mem sC)) (ctxt sC) ip HinsC HgetC depth d
              txt c fuel Htext Hfuel sC tgt eq_refl eq_refl HaC HatC Hh)
    as (sD & t' & Erun & Hc & Hs & _ & He & Eu & _ & Ht & Hn & Htx).
  assert (HoD : out (mem sD) = out m ++ [t']).
  { unfold forest_update in Eu. rewrite HoC in Eu.
    cbn [ip p_root p_path] in Eu.
    rewrite list_update_snoc in Eu. cbn [out_update] in Eu.
    injection Eu as <-. reflexivity. }
  destruct (Hrest sD Erun) as (E & HoE & HsE & HeE).
  eexists _, t'. split; [exact E|]. split; [rewrite HoE; exact HoD|].
  split; [rewrite Ht; apply document_node_type|].
  split; [rewrite Htx; unfold tgt; rewrite document_node_text; reflexivity|].
  split; [rewrite HsE, Hs; exact HsC|rewrite HeE, He; exact HeC].
Qed.

Lemma builtin_rules_copy_text_witness :
  exists st' target',
    xsltProcessOneNode Demo.engine (exec Demo.engine 12) 1%nat
      (Demo.start Demo.plain Cases.nested None) = Done tt st' /\
    forest_at (out (mem st')) Demo.root = Some target' /\
    out_text target' = "acd".
Proof.
  pose (st := Demo.start Demo.plain Cases.nested None).
  assert (H1 : forall st' p, ctxt st' = ctxt st ->
                 src (mem st') = src (mem st) ->
                 xsltGetTemplate Demo.engine st' p = None).
  { intros st' p E _. simpl. rewrite E. reflexivity. }
  assert (H2 : builtin_text (src (mem st)) (stripSpaces (style (ctxt st)))
                 3 1%nat = Some ("acd", 5%nat)) by (vm_compute; reflexivity).
  assert (H3 : allocs_succeed st) by apply Forall_nil_2.
  assert (H4 : insert (ctxt st) = Some Demo.root) by reflexivity.
  assert (H5 : forest_at (out (mem st)) Demo.root
               = Some (new_node XML_DOCUMENT_NODE "" "")) by reflexivity.
  assert (H6 : holds_children (new_node XML_DOCUMENT_NODE "" ""))
    by (split; discriminate).
  assert (H7 : (2 * 5 <= 12)%nat) by lia.
  destruct (builtin_rules_copy_text Demo.engine 12 3 1%nat st Demo.root _
              "acd" 5%nat H1 H2 H3 H4 H5 H6 H7)
    as (st' & t' & Hrun & Eu & Htx & _).
  exists st', t'. split; [exact Hrun|]. split; [|exact Htx].
  destruct (forest_update_at _ _ _ _ Eu) as (n0 & n1 & _ & E1 & Hat).
  injection E1 as <-. exact Hat.
Defined.

Lemma xsltApplyStylesheet_builtin_witness :
  exists m' t,
    xsltApplyStylesheet Demo.engine 12 (Some Demo.plain) (Some 0%nat)
      (Demo.memory_of Cases.nested) = Returns (Some 0%nat) m' /\
    out m' = [t] /\ out_text t = "acd".
Proof.
  assert (H1 : Forall (fun b => b = true)
                 (allocs (Demo.memory_of Cases.nested)))
    by apply Forall_nil_2.
  assert (H2 : supported Demo.plain) by (left; reflexivity).
  assert (H3 : forall st p, style (ctxt st) = Demo.plain ->
                 src (mem st) = src (Demo.memory_of Cases.nested) ->
                 xsltGetTemplate Demo.engine st p = None).
  { intros st p E _. simpl. rewrite E. reflexivity. }
  assert (H4 : builtin_text (src (Demo.memory_of Cases.nested))
                 (stripSpaces Demo.plain) 4 0%nat = Some ("acd", 6%nat))
    by (vm_compute; reflexivity).
  assert (H5 : (2 * 6 <= 12)%nat) by lia.
  destruct (xsltApplyStylesheet_builtin Demo.engine 12 4 Demo.plain 0%nat
              (Demo.memory_of Cases.nested) "acd" 6%nat H1 H2 H3 H4 H5)
    as (m' & t & Hrun & Hout & _ & Htx & _).
  exists m', t. split; [exact Hrun|]. split; [exact Hout|exact Htx].
Defined.
